(** * Trade classification engine of sol-explain: a shallow embedding

    The development follows [SolanaDexTradeParser] (the parser class with its
    [SimpleCache]) and the batch helpers built on top of it
    ([parseTradeInfoInternal], [parseMultipleTradeInfo],
    [parseTradeFromTransactionSync]).

    Conventions of the embedding:
    - a JavaScript number is a [jsnum]: an exact rational, or one of the three
      special values [PInf], [NInf], [NaN].  Rounding and overflow of IEEE
      doubles are not modelled, and neither is the sign of zero;
    - a property that may be absent ([undefined] or [null]) is an [option];
    - a JavaScript [Map] is an association list kept in insertion order;
    - a function that may raise returns a [result];
    - objects that are shared between the cache and its callers live in an
      explicit heap and are handled through their location. *)

From Stdlib Require Import List String Ascii Bool Arith ZArith QArith Lia.
From Stdlib Require Import Qabs Qpower DecimalString.
Import ListNotations.

Open Scope string_scope.
Open Scope Z_scope.

(* ================================================================== *)
(** ** JavaScript strings *)
(* ================================================================== *)

Module JsString.

(** [c.toLowerCase()] on one ASCII character. *)
Definition lowerAscii (c : ascii) : ascii :=
  let n := nat_of_ascii c in
  if (Nat.leb 65 n && Nat.leb n 90)%bool then ascii_of_nat (n + 32) else c.

(** [s.toLowerCase()], on ASCII text. *)
Fixpoint toLowerCase (s : string) : string :=
  match s with
  | EmptyString => EmptyString
  | String c t => String (lowerAscii c) (toLowerCase t)
  end.

(** [hay.includes(needle)]. *)
Fixpoint includes (hay needle : string) : bool :=
  (String.prefix needle hay
   || match hay with
      | EmptyString => false
      | String _ t => includes t needle
      end)%bool.

(** [xs.join(sep)]. *)
Fixpoint join (sep : string) (xs : list string) : string :=
  match xs with
  | [] => ""
  | [x] => x
  | x :: rest => x ++ sep ++ join sep rest
  end.

(** Truthiness of a string: only the empty string is falsy. *)
Definition truthy (s : string) : bool := negb (String.eqb s "").

(** Truthiness of a property that holds a string when present. *)
Definition truthyOpt (s : option string) : bool :=
  match s with
  | Some x => truthy x
  | None => false
  end.

(** [a || b] on strings. *)
Definition orElse (a : option string) (b : string) : string :=
  match a with
  | Some x => if truthy x then x else b
  | None => b
  end.

End JsString.

(* ================================================================== *)
(** ** JavaScript numbers *)
(* ================================================================== *)

Inductive jsnum : Type :=
| Fin (q : Q)
| PInf
| NInf
| NaN.

Module JsNum.

Definition Qltb (a b : Q) : bool := negb (Qle_bool b a).

Definition zero : jsnum := Fin 0.

Definition ofZ (z : Z) : jsnum := Fin (inject_Z z).

(** [-a]. *)
Definition neg (a : jsnum) : jsnum :=
  match a with
  | Fin q => Fin (- q)
  | PInf => NInf
  | NInf => PInf
  | NaN => NaN
  end.

(** [Math.abs(a)]. *)
Definition abs (a : jsnum) : jsnum :=
  match a with
  | Fin q => Fin (Qabs q)
  | PInf | NInf => PInf
  | NaN => NaN
  end.

(** [a + b]. *)
Definition add (a b : jsnum) : jsnum :=
  match a, b with
  | NaN, _ | _, NaN => NaN
  | Fin x, Fin y => Fin (x + y)
  | PInf, NInf | NInf, PInf => NaN
  | PInf, _ | _, PInf => PInf
  | NInf, _ | _, NInf => NInf
  end.

(** [a - b]. *)
Definition sub (a b : jsnum) : jsnum := add a (neg b).

(** Sign of a rational: [1], [0] or [-1]. *)
Definition sgn (q : Q) : Z := Z.sgn (Qnum q).

(** [a / b]. *)
Definition div (a b : jsnum) : jsnum :=
  match a, b with
  | NaN, _ | _, NaN => NaN
  | Fin x, Fin y =>
      if Qeq_bool y 0 then
        match sgn x with
        | Z0 => NaN
        | Zpos _ => PInf
        | Zneg _ => NInf
        end
      else Fin (x / y)
  | Fin _, (PInf | NInf) => Fin 0
  | (PInf | NInf), (PInf | NInf) => NaN
  | PInf, Fin y => if Qltb y 0 then NInf else PInf
  | NInf, Fin y => if Qltb y 0 then PInf else NInf
  end.

(** [a < b]; any comparison with [NaN] is false. *)
Definition ltb (a b : jsnum) : bool :=
  match a, b with
  | NaN, _ | _, NaN => false
  | Fin x, Fin y => Qltb x y
  | NInf, NInf => false
  | NInf, _ => true
  | _, PInf => match a with PInf => false | _ => true end
  | _, _ => false
  end.

(** [a > b]. *)
Definition gtb (a b : jsnum) : bool := ltb b a.

(** [a <= b]. *)
Definition leb (a b : jsnum) : bool :=
  match a, b with
  | NaN, _ | _, NaN => false
  | Fin x, Fin y => Qle_bool x y
  | NInf, _ => true
  | _, PInf => true
  | _, _ => false
  end.

(** [a === b] on numbers. *)
Definition eqb (a b : jsnum) : bool :=
  match a, b with
  | Fin x, Fin y => Qeq_bool x y
  | PInf, PInf | NInf, NInf => true
  | _, _ => false
  end.

(** Truthiness of a number: [0] and [NaN] are falsy. *)
Definition truthy (a : jsnum) : bool :=
  match a with
  | Fin q => negb (Qeq_bool q 0)
  | NaN => false
  | _ => true
  end.

(** The same number, up to the representation of the rational. *)
Definition same (a b : jsnum) : Prop :=
  match a, b with
  | Fin x, Fin y => x == y
  | PInf, PInf | NInf, NInf | NaN, NaN => True
  | _, _ => False
  end.

Definition isFinite (a : jsnum) : bool :=
  match a with
  | Fin _ => true
  | _ => false
  end.

Definition notNaN (a : jsnum) : Prop := a <> NaN.

End JsNum.

(* ================================================================== *)
(** ** JavaScript [Map] with string keys, in insertion order *)
(* ================================================================== *)

Module JsMap.

Definition t (V : Type) : Type := list (string * V).

Definition empty {V} : t V := [].

Definition size {V} (m : t V) : nat := List.length m.

Fixpoint get {V} (m : t V) (k : string) : option V :=
  match m with
  | [] => None
  | (k', v) :: rest => if String.eqb k k' then Some v else get rest k
  end.

Definition has {V} (m : t V) (k : string) : bool :=
  match get m k with
  | Some _ => true
  | None => false
  end.

(** [m.set(k, v)]: an existing key keeps its place, a new key goes last. *)
Fixpoint set {V} (m : t V) (k : string) (v : V) : t V :=
  match m with
  | [] => [(k, v)]
  | (k', v') :: rest =>
      if String.eqb k k' then (k', v) :: rest else (k', v') :: set rest k v
  end.

(** [m.delete(k)]. *)
Fixpoint delete {V} (m : t V) (k : string) : t V :=
  match m with
  | [] => []
  | (k', v') :: rest =>
      if String.eqb k k' then rest else (k', v') :: delete rest k
  end.

Definition keys {V} (m : t V) : list string := List.map fst m.

Definition values {V} (m : t V) : list V := List.map snd m.

(** [m.keys().next().value]: the oldest key, [undefined] on an empty map. *)
Definition firstKey {V} (m : t V) : option string :=
  match m with
  | [] => None
  | (k, _) :: _ => Some k
  end.

End JsMap.

(* ================================================================== *)
(** ** [SimpleCache] *)
(* ================================================================== *)

Module SimpleCache.

Section WithValue.
Context {V : Type}.

(** One stored entry: [{ value, timestamp }]. *)
Record item : Type := mkItem { value : V; timestamp : Z }.

Record t : Type := mk {
  cache : JsMap.t item;
  maxSize : nat;
  ttl : Z
}.

(** [new SimpleCache(maxSize, ttl)]. *)
Definition create (maxSize : nat) (ttl : Z) : t :=
  mk JsMap.empty maxSize ttl.

(** [get(key)], with [now] the value of [Date.now()]. *)
Definition get (now : Z) (key : string) (c : t) : option V * t :=
  match JsMap.get (cache c) key with
  | None => (None, c)
  | Some it =>
      if now - timestamp it >? ttl c
      then (None, mk (JsMap.delete (cache c) key) (maxSize c) (ttl c))
      else (Some (value it), c)
  end.

(** [set(key, value)], with [now] the value of [Date.now()]. *)
Definition set (now : Z) (key : string) (v : V) (c : t) : t :=
  let m :=
    if Nat.leb (maxSize c) (JsMap.size (cache c)) then
      match JsMap.firstKey (cache c) with
      | Some firstKey => JsMap.delete (cache c) firstKey
      | None => cache c
      end
    else cache c in
  mk (JsMap.set m key (mkItem v now)) (maxSize c) (ttl c).

(** [clear()]. *)
Definition clear (c : t) : t := mk JsMap.empty (maxSize c) (ttl c).

(** The key written by one step of a run of [set] calls. *)
Definition opKey (op : Z * string * V) : string := snd (fst op).

(** A run of [set] calls, each with its own clock reading. *)
Fixpoint setAll (ops : list (Z * string * V)) (c : t) : t :=
  match ops with
  | [] => c
  | (now, key, v) :: rest => setAll rest (set now key v c)
  end.

End WithValue.

Arguments item : clear implicits.
Arguments t : clear implicits.

End SimpleCache.

(* ================================================================== *)
(** ** Results of code that may raise *)
(* ================================================================== *)

Inductive result (A : Type) : Type :=
| Ok (a : A)
| Throw (error : string).

Arguments Ok {A} a.
Arguments Throw {A} error.

Definition rbind {A B} (r : result A) (k : A -> result B) : result B :=
  match r with
  | Ok a => k a
  | Throw e => Throw e
  end.

Notation "x <- c ;; k" := (rbind c (fun x => k))
  (at level 61, c at next level, right associativity).

(** [try { body } catch { return null }]. *)
Definition catchNull {A} (r : result (option A)) : option A :=
  match r with
  | Ok a => a
  | Throw _ => None
  end.

(** Reading a property of a value that is [undefined] raises a [TypeError]. *)
Definition mustBeDefined {A} (o : option A) : result A :=
  match o with
  | Some a => Ok a
  | None => Throw "TypeError"
  end.

(* ================================================================== *)
(** ** The decoded transaction record *)
(* ================================================================== *)

(** An entry of [message.accountKeys]: a plain address, or an object with its
    flags. *)
Module AccountKey.

Inductive t : Type :=
| Str (address : string)
| Obj (pubkey : option string) (signer : option bool) (writable : option bool).

(** Truthiness of the entry. *)
Definition truthy (a : t) : bool :=
  match a with
  | Str s => JsString.truthy s
  | Obj _ _ _ => true
  end.

(** [typeof a === 'string' ? a
     : (a.pubkey?.toString() || a.toString?.() || String(a))]. *)
Definition address (a : t) : string :=
  match a with
  | Str s => s
  | Obj pubkey _ _ => JsString.orElse pubkey "[object Object]"
  end.

(** [typeof acc === 'object' && acc.signer]. *)
Definition isSignerObject (a : t) : bool :=
  match a with
  | Str _ => false
  | Obj _ signer _ => match signer with Some b => b | None => false end
  end.

End AccountKey.

(** [ix.parsed]: a string for some programs, an object with a [type]
    otherwise. *)
Inductive Parsed : Type :=
| ParsedStr (text : string)
| ParsedObj (type : option string).

Module Instruction.
Record t : Type := mk {
  programId : option string;
  programIdIndex : option nat;
  parsed : option Parsed
}.
End Instruction.

Module Inner.
(** [instructions] is [None] when the property is not an array. *)
Record t : Type := mk { instructions : option (list Instruction.t) }.
End Inner.

Module Header.
Record t : Type := mk {
  numRequiredSignatures : option nat;
  numReadonlySignedAccounts : option nat
}.
End Header.

Module Message.
Record t : Type := mk {
  header : option Header.t;
  accountKeys : option (list AccountKey.t);
  instructions : option (list Instruction.t)
}.
End Message.

Module TxData.
Record t : Type := mk { message : option Message.t }.
End TxData.

Module UiTokenAmount.
Record t : Type := mk { uiAmount : option Q; decimals : option Z }.
End UiTokenAmount.

Module TokenBalance.
Record t : Type := mk {
  owner : option string;
  mint : option string;
  uiTokenAmount : option UiTokenAmount.t
}.
End TokenBalance.

Module LoadedAddresses.
Record t : Type := mk {
  writable : option (list string);
  readonly : option (list string)
}.
End LoadedAddresses.

Module Meta.
Record t : Type := mk {
  innerInstructions : option (list Inner.t);
  logMessages : option (list string);
  preBalances : option (list Z);
  postBalances : option (list Z);
  preTokenBalances : option (list TokenBalance.t);
  postTokenBalances : option (list TokenBalance.t);
  loadedAddresses : option LoadedAddresses.t
}.
End Meta.

Module Transaction.
Record t : Type := mk {
  transaction : option TxData.t;
  meta : option Meta.t;
  blockTime : option Z;
  slot : option Z
}.
End Transaction.

(** [x || []]. *)
Definition orEmpty {A} (o : option (list A)) : list A :=
  match o with
  | Some l => l
  | None => []
  end.

(** [x || 0] on a rational property. *)
Definition orZeroQ (o : option Q) : Q :=
  match o with
  | Some q => q
  | None => 0%Q
  end.

(** [x || 0] on an integer property. *)
Definition orZeroZ (o : option Z) : Z :=
  match o with
  | Some z => z
  | None => 0
  end.

Definition orZeroNat (o : option nat) : nat :=
  match o with
  | Some n => n
  | None => O
  end.

(** [txData?.message?.accountKeys]. *)
Definition accountKeysOf (tx : Transaction.t) : option (list AccountKey.t) :=
  match Transaction.transaction tx with
  | Some td =>
      match TxData.message td with
      | Some m => Message.accountKeys m
      | None => None
      end
  | None => None
  end.

(** [txData?.message?.instructions]. *)
Definition instructionsOf (tx : Transaction.t) : option (list Instruction.t) :=
  match Transaction.transaction tx with
  | Some td =>
      match TxData.message td with
      | Some m => Message.instructions m
      | None => None
      end
  | None => None
  end.

(** [meta?.logMessages || []], joined with spaces and lower-cased. *)
Definition logTextOf (meta : option Meta.t) : string :=
  let logMessages :=
    match meta with
    | Some m => orEmpty (Meta.logMessages m)
    | None => []
    end in
  JsString.toLowerCase (JsString.join " " logMessages).

(** [meta?.innerInstructions || []]. *)
Definition innerInstructionsOf (meta : option Meta.t) : list Inner.t :=
  match meta with
  | Some m => orEmpty (Meta.innerInstructions m)
  | None => []
  end.

(* ================================================================== *)
(** ** Balance deltas *)
(* ================================================================== *)

Module TokenChange.
Record t : Type := mk {
  mint : string;
  owner : string;
  preAmount : jsnum;
  postAmount : jsnum;
  change : jsnum;
  decimals : Z
}.
End TokenChange.

Module SolChange.
Record t : Type := mk {
  account : string;
  preBalance : jsnum;
  postBalance : jsnum;
  change : jsnum;
  isSigner : bool;
  isWritable : bool
}.
End SolChange.

(** The dust thresholds that the parser writes as literals. *)
Definition tokenDust : jsnum := Fin (1 # 1000000).
Definition solDust : jsnum := Fin (1 # 10000).

(** [1e9]. *)
Definition lamportsPerSol : Q := 1000000000 # 1.

Section Extractors.

Local Open Scope bool_scope.

(** [x.uiTokenAmount?.uiAmount || 0]. *)
Definition uiAmountOf (b : TokenBalance.t) : Q :=
  match TokenBalance.uiTokenAmount b with
  | Some u => orZeroQ (UiTokenAmount.uiAmount u)
  | None => 0%Q
  end.

(** [x.uiTokenAmount?.decimals || 0]. *)
Definition decimalsOf (b : TokenBalance.t) : Z :=
  match TokenBalance.uiTokenAmount b with
  | Some u => orZeroZ (UiTokenAmount.decimals u)
  | None => 0
  end.

(** The key [`${owner}-${mint}`] of a balance entry, when both parts are
    truthy. *)
Definition balanceKey (b : TokenBalance.t) : option (string * string * string) :=
  match TokenBalance.owner b, TokenBalance.mint b with
  | Some o, Some m =>
      if JsString.truthy o && JsString.truthy m
      then Some (o ++ "-" ++ m, o, m)
      else None
  | _, _ => None
  end.

(** The map from key to balance entry built by the first two loops. *)
Definition balanceMap (bs : list TokenBalance.t) : JsMap.t TokenBalance.t :=
  fold_left
    (fun m b =>
       match balanceKey b with
       | Some (key, _, _) => JsMap.set m key b
       | None => m
       end)
    bs JsMap.empty.

(** Body of the loop over [postTokenBalances] that records changed
    balances. *)
Definition changedStep (preMap : JsMap.t TokenBalance.t)
    (changesSet : JsMap.t TokenChange.t) (post : TokenBalance.t)
    : JsMap.t TokenChange.t :=
  match balanceKey post with
  | None => changesSet
  | Some (key, owner, mint) =>
      let pre := JsMap.get preMap key in
      let postAmount := Fin (uiAmountOf post) in
      let preAmount :=
        Fin (match pre with Some p => uiAmountOf p | None => 0%Q end) in
      if JsNum.gtb (JsNum.abs (JsNum.sub postAmount preAmount)) tokenDust
      then JsMap.set changesSet key
             (TokenChange.mk mint owner preAmount postAmount
                (JsNum.sub postAmount preAmount) (decimalsOf post))
      else changesSet
  end.

(** Body of the loop over [preTokenBalances] that records accounts that
    disappeared. *)
Definition vanishedStep (postMap : JsMap.t TokenBalance.t)
    (changesSet : JsMap.t TokenChange.t) (pre : TokenBalance.t)
    : JsMap.t TokenChange.t :=
  match balanceKey pre with
  | None => changesSet
  | Some (key, owner, mint) =>
      let post := JsMap.get postMap key in
      let preAmount := Fin (uiAmountOf pre) in
      let postAmount :=
        Fin (match post with Some p => uiAmountOf p | None => 0%Q end) in
      let noPost := match post with Some _ => false | None => true end in
      if JsNum.gtb preAmount tokenDust
         && (noPost || JsNum.ltb postAmount tokenDust)
      then
        if negb (JsMap.has changesSet key)
        then JsMap.set changesSet key
               (TokenChange.mk mint owner preAmount (Fin 0)
                  (JsNum.neg preAmount) (decimalsOf pre))
        else changesSet
      else changesSet
  end.

(** Body of the loop over [postTokenBalances] that records new accounts. *)
Definition createdStep (preMap : JsMap.t TokenBalance.t)
    (changesSet : JsMap.t TokenChange.t) (post : TokenBalance.t)
    : JsMap.t TokenChange.t :=
  match balanceKey post with
  | None => changesSet
  | Some (key, owner, mint) =>
      let pre := JsMap.get preMap key in
      let postAmount := Fin (uiAmountOf post) in
      let noPre := match pre with Some _ => false | None => true end in
      if JsNum.gtb postAmount tokenDust && noPre
      then
        if negb (JsMap.has changesSet key)
        then JsMap.set changesSet key
               (TokenChange.mk mint owner (Fin 0) postAmount postAmount
                  (decimalsOf post))
        else changesSet
      else changesSet
  end.

(** [parseTokenBalanceChanges(meta)]. *)
Definition parseTokenBalanceChanges (meta : option Meta.t) : list TokenChange.t :=
  match meta with
  | None => []
  | Some m =>
      match Meta.postTokenBalances m, Meta.preTokenBalances m with
      | None, None => []
      | _, _ =>
          let preTokenBalances := orEmpty (Meta.preTokenBalances m) in
          let postTokenBalances := orEmpty (Meta.postTokenBalances m) in
          let preMap := balanceMap preTokenBalances in
          let postMap := balanceMap postTokenBalances in
          let s1 := fold_left (changedStep preMap) postTokenBalances JsMap.empty in
          let s2 := fold_left (vanishedStep postMap) preTokenBalances s1 in
          let s3 := fold_left (createdStep preMap) postTokenBalances s2 in
          JsMap.values s3
      end
  end.

(** Decimal text of an index, for [`account_${index}`]. *)
Definition indexText (n : nat) : string :=
  NilZero.string_of_uint (Nat.to_uint n).

(** The record pushed for position [index] once its balance is known to
    have changed. *)
Definition solEntry (message : Message.t) (allAccountKeys : list AccountKey.t)
    (allLoadedAddresses : list string) (signerEndIndex : nat)
    (index : nat) (preBalance : option Z) (postBalance : Z) : SolChange.t :=
  let accountKey :=
    match nth_error allAccountKeys index with
    | Some k => if AccountKey.truthy k then Some k else None
    | None => None
    end in
  let byIndex := Nat.ltb index signerEndIndex in
  let '(accountAddress, isSigner, isWritable) :=
    match accountKey with
    | Some (AccountKey.Str s) => (s, byIndex, false)
    | Some (AccountKey.Obj pubkey signer writable) =>
        (JsString.orElse pubkey "[object Object]",
         match signer with Some b => b | None => byIndex end,
         match writable with Some b => b | None => false end)
    | None =>
        let keyCount := List.length (orEmpty (Message.accountKeys message)) in
        if Nat.leb keyCount index
           && Nat.ltb (index - keyCount) (List.length allLoadedAddresses)
        then (nth (index - keyCount) allLoadedAddresses "", false, false)
        else ("account_" ++ indexText index, byIndex, false)
    end in
  let pre :=
    match preBalance with
    | Some z => JsNum.ofZ z
    | None => NaN
    end in
  let post := JsNum.ofZ postBalance in
  SolChange.mk accountAddress
    (JsNum.div pre (Fin lamportsPerSol))
    (JsNum.div post (Fin lamportsPerSol))
    (JsNum.div (JsNum.sub post pre) (Fin lamportsPerSol))
    isSigner isWritable.

(** [preBalance !== postBalance], where [preBalance] may be [undefined]. *)
Definition balanceDiffers (preBalance : option Z) (postBalance : Z) : bool :=
  match preBalance with
  | Some z => negb (Z.eqb z postBalance)
  | None => true
  end.

(** The [forEach] over [meta.postBalances], from position [index] on; each
    emitted record is paired with the position it comes from. *)
Fixpoint solLoop (message : Message.t) (allAccountKeys : list AccountKey.t)
    (allLoadedAddresses : list string) (signerEndIndex : nat)
    (preBalances : list Z) (index : nat) (postBalances : list Z)
    : list (nat * SolChange.t) :=
  match postBalances with
  | [] => []
  | postBalance :: rest =>
      let preBalance := nth_error preBalances index in
      let tail :=
        solLoop message allAccountKeys allLoadedAddresses signerEndIndex
          preBalances (S index) rest in
      if balanceDiffers preBalance postBalance
      then (index,
            solEntry message allAccountKeys allLoadedAddresses signerEndIndex
              index preBalance postBalance) :: tail
      else tail
  end.

(** [parseSOLBalanceChanges(transaction)], each record with its position. *)
Definition parseSOLBalanceChangesIndexed (tx : Transaction.t)
    : result (list (nat * SolChange.t)) :=
  (* const { meta, transaction: { message } } = transaction; *)
  td <- mustBeDefined (Transaction.transaction tx) ;;
  match Transaction.meta tx with
  | None => Ok []
  | Some meta =>
      match Meta.postBalances meta with
      | None => Ok []
      | Some postBalances =>
          message <- mustBeDefined (TxData.message td) ;;
          let signerEndIndex :=
            match Message.header message with
            | Some h => orZeroNat (Header.numRequiredSignatures h)
            | None => O
            end in
          let keys := orEmpty (Message.accountKeys message) in
          let allLoadedAddresses :=
            match Meta.loadedAddresses meta with
            | Some l =>
                (orEmpty (LoadedAddresses.writable l)
                 ++ orEmpty (LoadedAddresses.readonly l))%list
            | None => []
            end in
          let allAccountKeys :=
            (keys ++ List.map AccountKey.Str allLoadedAddresses)%list in
          match postBalances with
          | [] => Ok []
          | _ :: _ =>
              (* meta.preBalances[index] *)
              preBalances <- mustBeDefined (Meta.preBalances meta) ;;
              Ok (solLoop message allAccountKeys allLoadedAddresses
                    signerEndIndex preBalances O postBalances)
          end
      end
  end.

(** [parseSOLBalanceChanges(transaction)]. *)
Definition parseSOLBalanceChanges (tx : Transaction.t) : result (list SolChange.t) :=
  r <- parseSOLBalanceChangesIndexed tx ;;
  Ok (List.map snd r).

End Extractors.

(* ================================================================== *)
(** ** Trade outcomes *)
(* ================================================================== *)

Inductive TradeType : Type := Buy | Sell | Swap.

Definition TradeType_eqb (a b : TradeType) : bool :=
  match a, b with
  | Buy, Buy | Sell, Sell | Swap, Swap => true
  | _, _ => false
  end.

(** The tag returned by [identifyDEX]. *)
Inductive DexType : Type :=
| DexJupiter | DexRaydium | DexOrca | DexPumpFun | DexMeteora | DexDFlow
| DexUnknown.

(** [soldToken] and [boughtToken]. *)
Module TokenRef.
Record t : Type := mk {
  mint : string;
  symbol : string;
  amount : jsnum;
  decimals : Z
}.
End TokenRef.

(** The object built by the parsers.  Properties that a parser does not set
    are [None].  The [route] and [_debug] properties (the latter only set in
    development mode) are left out: nothing reads them here. *)
Module Trade.

Record t : Type := mk {
  type : TradeType;
  soldToken : TokenRef.t;
  boughtToken : TokenRef.t;
  price : option jsnum;
  holderAddress : option string;
  dex : option string;
  source : option string;
  note : option string;
  fee : option jsnum;
  platform : option string;
  hasSwapInstruction : option bool;
  orcaInstructions : option nat;
  instructions : option nat;
  routed : option bool;
  signature : option string;
  timestamp : option Z;
  slot : option Z
}.

(** An object literal with the five core properties and optionally a note,
    [dex] and [source]. *)
Definition make (type : TradeType) (sold bought : TokenRef.t)
    (price : option jsnum) (holder : option string)
    (dex source note : option string) : t :=
  mk type sold bought price holder dex source note
     None None None None None None None None None.

Definition setHolderAddress (h : option string) (x : t) : t :=
  mk (type x) (soldToken x) (boughtToken x) (price x) h (dex x) (source x)
     (note x) (fee x) (platform x) (hasSwapInstruction x) (orcaInstructions x)
     (instructions x) (routed x) (signature x) (timestamp x) (slot x).

Definition setDexSource (d s : string) (x : t) : t :=
  mk (type x) (soldToken x) (boughtToken x) (price x) (holderAddress x)
     (Some d) (Some s)
     (note x) (fee x) (platform x) (hasSwapInstruction x) (orcaInstructions x)
     (instructions x) (routed x) (signature x) (timestamp x) (slot x).

Definition setSource (s : string) (x : t) : t :=
  mk (type x) (soldToken x) (boughtToken x) (price x) (holderAddress x)
     (dex x) (Some s)
     (note x) (fee x) (platform x) (hasSwapInstruction x) (orcaInstructions x)
     (instructions x) (routed x) (signature x) (timestamp x) (slot x).

Definition setHasSwapInstruction (b : bool) (x : t) : t :=
  mk (type x) (soldToken x) (boughtToken x) (price x) (holderAddress x)
     (dex x) (source x) (note x) (fee x) (platform x) (Some b)
     (orcaInstructions x) (instructions x) (routed x) (signature x)
     (timestamp x) (slot x).

Definition setOrcaInstructions (n : nat) (x : t) : t :=
  mk (type x) (soldToken x) (boughtToken x) (price x) (holderAddress x)
     (dex x) (source x) (note x) (fee x) (platform x) (hasSwapInstruction x)
     (Some n) (instructions x) (routed x) (signature x)
     (timestamp x) (slot x).

Definition setPumpFun (p : string) (n : nat) (r : bool) (x : t) : t :=
  mk (type x) (soldToken x) (boughtToken x) (price x) (holderAddress x)
     (dex x) (source x) (note x) (fee x) (Some p) (hasSwapInstruction x)
     (orcaInstructions x) (Some n) (Some r) (signature x)
     (timestamp x) (slot x).

(** Exchange the two sides, set the type and the price. *)
Definition flip (ty : TradeType) (p : option jsnum) (x : t) : t :=
  mk ty (boughtToken x) (soldToken x) p (holderAddress x)
     (dex x) (source x) (note x) (fee x) (platform x) (hasSwapInstruction x)
     (orcaInstructions x) (instructions x) (routed x) (signature x)
     (timestamp x) (slot x).

(** [t.signature = ...; t.timestamp = ...; t.slot = ...]. *)
Definition stamp (sig : string) (ts sl : option Z) (x : t) : t :=
  mk (type x) (soldToken x) (boughtToken x) (price x) (holderAddress x)
     (dex x) (source x) (note x) (fee x) (platform x) (hasSwapInstruction x)
     (orcaInstructions x) (instructions x) (routed x) (Some sig) ts sl.

Definition setFee (f : option jsnum) (x : t) : t :=
  mk (type x) (soldToken x) (boughtToken x) (price x) (holderAddress x)
     (dex x) (source x) (note x) f (platform x) (hasSwapInstruction x)
     (orcaInstructions x) (instructions x) (routed x) (signature x)
     (timestamp x) (slot x).

End Trade.

(* ================================================================== *)
(** ** [SolanaDexTradeParser]: the pure part *)
(* ================================================================== *)

Definition SOL_MINT : string := "So11111111111111111111111111111111111111112".

Module DEX_PROGRAMS.
Definition JUPITER : list string :=
  [ "JUP6LkbZbjS1jKKwapdHNy74zcZ3tLUZoi5QNyVTaV4";
    "JUP2jxvXaqu7NQY1GmNF4m1vodw12LVXYxbFL2uJvfo";
    "JUP3c2Uh3WA4Ng34tw6kPd2G4C5BB21Xo36Je1s32Ph";
    "JUP6i4ozu5ydDCnLiMogSckDPpbtr7BJ4FtzYWkb5Rk";
    "JUP4Fb2cqiRUcaTd8t5VhYu6oV5E2hbN8FdY3YbwPEsu";
    "JUP3c2Uh3WA4Ng34tw6kPd2G4C5BB21Xo36Je1s32Ph" ].
Definition RAYDIUM : list string :=
  [ "675kPX9MHTjS2zt1qfr1NYHuzeLXfQM9H24wFSUt1Mp8";
    "27haf8L6oxUeXrHrgEgsexjSY5hbVUWEmvv9Nyxg8vQv";
    "CAMMCzo5YL8w4VFF8KVHrK22GGUsp5VTaW7grrKgrWqK" ].
Definition ORCA : list string :=
  [ "9W959DqEETiGZocYWCQPaJ6sBmUzgfxXfqGeTEdp3aQP";
    "whirLbMiicVdio4qvUfM5KAg6Ct8VwpYzGff3uctyCc";
    "DjVE6JNiYqPL2QXyCUUh8rNjHrbz9hXHNYt99MQ59qw1" ].
Definition PUMP_FUN : list string :=
  [ "pAMMBay6oceH9fJKBRHGP5D4bD4sWpmSwMn52FMfXEA" ].
Definition METEORA : list string :=
  [ "LBUZKhRxPF3XUpBCjp4YzTKgLccjZhTSDM9YuVaPwxo";
    "Eo7WjKq67rjJQSZxS6z3YkapzY3eMj6Xy8X5EQVn5UWAi";
    "24Uqj9JQxErmqU6wvJzKqJqJqJqJqJqJqJqJqJqJqJqJq" ].
Definition DFLOW : list string := [].
End DEX_PROGRAMS.

Definition PUMP_FUN_PROGRAM_ID : string :=
  "pAMMBay6oceH9fJKBRHGP5D4bD4sWpmSwMn52FMfXEA".

(** [xs.includes(x)] on an array of strings, also [set.has(x)]. *)
Definition includesStr (xs : list string) (x : string) : bool :=
  existsb (String.eqb x) xs.

(** [a || b] where both sides hold a string when present. *)
Definition orOpt (a b : option string) : option string :=
  if JsString.truthyOpt a then a else b.

(** An entry of [allChanges] in [parseGenericTransaction]:
    [{ type: 'token' | 'sol', mint, amount, decimals }]. *)
Inductive ItemKind : Type := TokenItem | SolItem.

Module ChangeItem.
Record t : Type := mk {
  kind : ItemKind;
  mint : string;
  amount : jsnum;
  decimals : Z
}.
End ChangeItem.

(** An entry of [tokenChangeMap] in [analyzeSOLTokenTrade]. *)
Module TokenTotal.
Record t : Type := mk {
  mint : string;
  decimals : Z;
  totalChange : jsnum
}.
End TokenTotal.

Section PureParser.

Local Open Scope bool_scope.

(** [inferTradeType(inputMint, outputMint)]. *)
Definition inferTradeType (inputMint outputMint : string) : TradeType :=
  if String.eqb inputMint SOL_MINT then Buy
  else if String.eqb outputMint SOL_MINT then Sell
  else Swap.

(** [calculatePrice(sold, bought)]; the result is a JavaScript value,
    [None] standing for [null]. *)
Definition calculatePrice (sold bought : ChangeItem.t) : option jsnum :=
  let soldAmount := JsNum.abs (ChangeItem.amount sold) in
  let boughtAmount := ChangeItem.amount bought in
  if JsNum.eqb soldAmount (Fin 0) then Some (Fin 0)
  else Some (JsNum.div boughtAmount soldAmount).

(** [getProgramId(ix, accountKeys)]. *)
Definition getProgramId (ix : Instruction.t)
    (accountKeys : option (list AccountKey.t)) : option string :=
  if JsString.truthyOpt (Instruction.programId ix)
  then Instruction.programId ix
  else
    match Instruction.programIdIndex ix, accountKeys with
    | Some i, Some keys =>
        match nth_error keys i with
        | Some account =>
            if AccountKey.truthy account
            then Some (AccountKey.address account)
            else None
        | None => None
        end
    | _, _ => None
    end.

(** All instructions found under [innerInstructions]. *)
Definition flattenInner (inner : list Inner.t) : list Instruction.t :=
  flat_map (fun i => orEmpty (Inner.instructions i)) inner.

(** [xs.reduce((max, item) => key(item) > key(max) ? item : max, first)]. *)
Definition maxBy {A} (key : A -> jsnum) (xs : list A) (first : A) : A :=
  fold_left (fun max item => if JsNum.gtb (key item) (key max) then item else max)
    xs first.

Definition absTokenChange (c : TokenChange.t) : jsnum :=
  JsNum.abs (TokenChange.change c).

(** The filter that both [analyzeSOLTokenTrade] and
    [parseGenericTransaction] apply to token changes. *)
Definition isSignificantToken (c : TokenChange.t) : bool :=
  if String.eqb (TokenChange.mint c) SOL_MINT
     || String.eqb (TokenChange.mint c) "SOL"
  then false
  else JsNum.gtb (absTokenChange c) tokenDust.

Definition isSignificantSol (c : SolChange.t) : bool :=
  JsNum.gtb (JsNum.abs (SolChange.change c)) solDust.

Definition isNegative (x : jsnum) : bool := JsNum.ltb x (Fin 0).
Definition isPositive (x : jsnum) : bool := JsNum.gtb x (Fin 0).

(** [xs.find(change => change.isSigner)?.account]. *)
Definition firstSignerAccount (xs : list SolChange.t) : option string :=
  option_map SolChange.account (find SolChange.isSigner xs).

(** [xs[0]?.account]. *)
Definition firstAccount (xs : list SolChange.t) : option string :=
  option_map SolChange.account (hd_error xs).

(** The first entry of [accountKeys] that is an object flagged as signer,
    as an address. *)
Definition firstSignerKey (keys : list AccountKey.t) : option string :=
  option_map AccountKey.address (find AccountKey.isSignerObject keys).

End PureParser.

Section AnalyzeSOLTokenTrade.

Local Open Scope bool_scope.

(** [tokenChangeMap]: the changes summed per mint, in order of first
    appearance. *)
Definition tokenChangeMapOf (effectiveTokenChanges : list TokenChange.t)
    : JsMap.t TokenTotal.t :=
  fold_left
    (fun m change =>
       let key := TokenChange.mint change in
       let m1 :=
         if negb (JsMap.has m key)
         then JsMap.set m key
                (TokenTotal.mk (TokenChange.mint change)
                   (TokenChange.decimals change) (Fin 0))
         else m in
       match JsMap.get m1 key with
       | Some e =>
           JsMap.set m1 key
             (TokenTotal.mk (TokenTotal.mint e) (TokenTotal.decimals e)
                (JsNum.add (TokenTotal.totalChange e) (TokenChange.change change)))
       | None => m1
       end)
    effectiveTokenChanges JsMap.empty.

(** [tokenChangesByMint], then the largest change of every mint. *)
Definition largestPerMint (significantTokenChanges : list TokenChange.t)
    : list TokenChange.t :=
  let byMint : JsMap.t (list TokenChange.t) :=
    fold_left
      (fun m change =>
         let key := TokenChange.mint change in
         let m1 := if negb (JsMap.has m key) then JsMap.set m key [] else m in
         match JsMap.get m1 key with
         | Some cs => JsMap.set m1 key (cs ++ [change])%list
         | None => m1
         end)
      significantTokenChanges JsMap.empty in
  flat_map
    (fun cs =>
       match cs with
       | [] => []
       | first :: _ => [maxBy absTokenChange cs first]
       end)
    (JsMap.values byMint).

(** The token changes attributed to the user, after the four fallbacks. *)
Definition effectiveTokenChangesOf
    (significantTokenChanges : list TokenChange.t)
    (significantSolChanges solSpentChanges solReceivedChanges : list SolChange.t)
    : list TokenChange.t :=
  let solSpentAccounts := List.map SolChange.account solSpentChanges in
  let solReceivedAccounts := List.map SolChange.account solReceivedChanges in
  let signerSolChanges := filter SolChange.isSigner significantSolChanges in
  let signerAccounts := List.map SolChange.account signerSolChanges in
  let userTokenChanges :=
    filter
      (fun change =>
         if isPositive (TokenChange.change change)
            && (includesStr solSpentAccounts (TokenChange.owner change)
                || includesStr signerAccounts (TokenChange.owner change))
         then true
         else if isNegative (TokenChange.change change)
                 && (includesStr solReceivedAccounts (TokenChange.owner change)
                     || includesStr signerAccounts (TokenChange.owner change))
         then true
         else false)
      significantTokenChanges in
  let e1 :=
    match userTokenChanges, signerSolChanges with
    | [], _ :: _ =>
        filter (fun change => includesStr signerAccounts (TokenChange.owner change))
          significantTokenChanges
    | _, _ => userTokenChanges
    end in
  let e2 :=
    match e1, solSpentChanges with
    | [], _ :: _ =>
        match filter (fun c => isPositive (TokenChange.change c))
                significantTokenChanges with
        | [] => e1
        | first :: rest => [maxBy absTokenChange (first :: rest) first]
        end
    | _, _ => e1
    end in
  match e2, significantTokenChanges with
  | [], _ :: _ => (e2 ++ largestPerMint significantTokenChanges)%list
  | _, _ => e2
  end.

(** The owner of the user's change of [mint] with the wanted sign: a signer
    if there is one, the first owner otherwise. *)
Definition holderOfToken (wanted : jsnum -> bool) (mint : string)
    (effectiveTokenChanges : list TokenChange.t) (solChanges : list SolChange.t)
    : option string :=
  match filter
          (fun change =>
             String.eqb (TokenChange.mint change) mint
             && wanted (TokenChange.change change))
          effectiveTokenChanges with
  | [] => None
  | first :: rest =>
      let signerTokenChange :=
        find
          (fun change =>
             match find
                     (fun sc =>
                        String.eqb (SolChange.account sc) (TokenChange.owner change)
                        && SolChange.isSigner sc)
                     solChanges with
             | Some _ => true
             | None => false
             end)
          (first :: rest) in
      orOpt (option_map TokenChange.owner signerTokenChange)
            (Some (TokenChange.owner first))
  end.

(** The selection of [tokenBought]: the only bought token, or the one with
    the largest total. *)
Definition pickBought (tokensBought : list TokenTotal.t) : option TokenTotal.t :=
  match tokensBought with
  | [] => None
  | [only] => Some only
  | first :: _ => Some (maxBy TokenTotal.totalChange tokensBought first)
  end.

(** The selection of [tokenSold], by magnitude. *)
Definition pickSold (tokensSold : list TokenTotal.t) : option TokenTotal.t :=
  match tokensSold with
  | [] => None
  | [only] => Some only
  | first :: _ =>
      Some (maxBy (fun t => JsNum.abs (TokenTotal.totalChange t)) tokensSold first)
  end.

(** [analyzeSOLTokenTrade(tokenChanges, solChanges)].  The last fallback of
    the sell branch reads a variable [transaction] that is not in scope, so
    reaching it raises a [ReferenceError]. *)
Definition analyzeSOLTokenTrade (tokenChanges : list TokenChange.t)
    (solChanges : list SolChange.t) : result (option Trade.t) :=
  let significantSolChanges := filter isSignificantSol solChanges in
  let significantTokenChanges := filter isSignificantToken tokenChanges in
  let solSpentChanges :=
    filter (fun c => isNegative (SolChange.change c)) significantSolChanges in
  let solReceivedChanges :=
    filter (fun c => isPositive (SolChange.change c)) significantSolChanges in
  let effectiveTokenChanges :=
    effectiveTokenChangesOf significantTokenChanges significantSolChanges
      solSpentChanges solReceivedChanges in
  let tokenChangeMap := tokenChangeMapOf effectiveTokenChanges in
  let totalSolSpent :=
    fold_left (fun sum c => JsNum.add sum (JsNum.abs (SolChange.change c)))
      solSpentChanges (Fin 0) in
  let tokensBought :=
    filter (fun t => isPositive (TokenTotal.totalChange t))
      (JsMap.values tokenChangeMap) in
  match (if isPositive totalSolSpent then pickBought tokensBought else None) with
  | Some tokenBought =>
      let h1 :=
        holderOfToken isPositive (TokenTotal.mint tokenBought)
          effectiveTokenChanges solChanges in
      let h2 :=
        if negb (JsString.truthyOpt h1)
        then match firstSignerAccount solChanges with
             | Some a => Some a
             | None => h1
             end
        else h1 in
      let h3 :=
        if negb (JsString.truthyOpt h2)
        then orOpt (orOpt (firstSignerAccount solSpentChanges)
                          (firstAccount solSpentChanges)) None
        else h2 in
      Ok (Some
            (Trade.make Buy
               (TokenRef.mk SOL_MINT "SOL" totalSolSpent 9)
               (TokenRef.mk (TokenTotal.mint tokenBought) "Token"
                  (TokenTotal.totalChange tokenBought)
                  (TokenTotal.decimals tokenBought))
               (Some (JsNum.div totalSolSpent (TokenTotal.totalChange tokenBought)))
               h3 None None None))
  | None =>
      let totalSolReceived :=
        fold_left (fun sum c => JsNum.add sum (SolChange.change c))
          solReceivedChanges (Fin 0) in
      let tokensSold :=
        filter (fun t => isNegative (TokenTotal.totalChange t))
          (JsMap.values tokenChangeMap) in
      match (if isPositive totalSolReceived then pickSold tokensSold else None) with
      | Some tokenSold =>
          let h1 :=
            holderOfToken isNegative (TokenTotal.mint tokenSold)
              effectiveTokenChanges solChanges in
          let h2 :=
            if negb (JsString.truthyOpt h1)
            then match firstSignerAccount solChanges with
                 | Some a => Some a
                 | None => h1
                 end
            else h1 in
          let h3 :=
            if negb (JsString.truthyOpt h2)
            then orOpt (firstSignerAccount solReceivedChanges)
                       (firstAccount solReceivedChanges)
            else h2 in
          if negb (JsString.truthyOpt h3)
          then Throw "ReferenceError"
          else
            Ok (Some
                  (Trade.make Sell
                     (TokenRef.mk (TokenTotal.mint tokenSold) "Token"
                        (JsNum.abs (TokenTotal.totalChange tokenSold))
                        (TokenTotal.decimals tokenSold))
                     (TokenRef.mk SOL_MINT "SOL" totalSolReceived 9)
                     (Some (JsNum.div totalSolReceived
                              (JsNum.abs (TokenTotal.totalChange tokenSold))))
                     (orOpt h3 None) None None None))
      | None => Ok None
      end
  end.

End AnalyzeSOLTokenTrade.

Section GenericParser.

Local Open Scope bool_scope.

Definition liquidityOperations : list string :=
  [ "rebalance_liquidity"; "rebalance"; "add_liquidity"; "remove_liquidity";
    "deposit"; "withdraw" ].

(** [liquidityOperations.some(op => text.includes(op.toLowerCase()))]. *)
Definition mentionsLiquidity (text : string) : bool :=
  existsb (fun op => JsString.includes text (JsString.toLowerCase op))
    liquidityOperations.

(** The test applied to one instruction, top-level or inner. *)
Definition isLiquidityInstruction (ix : Instruction.t) : bool :=
  match Instruction.parsed ix with
  | Some (ParsedObj type) =>
      let instructionType := JsString.toLowerCase (JsString.orElse type "") in
      mentionsLiquidity instructionType
  | _ => false
  end.

Definition hasLiquidityOperation (tx : Transaction.t) : bool :=
  mentionsLiquidity (logTextOf (Transaction.meta tx)).

Definition hasLiquidityInstruction (tx : Transaction.t) : bool :=
  existsb isLiquidityInstruction (orEmpty (instructionsOf tx)).

Definition hasLiquidityInnerInstruction (tx : Transaction.t) : bool :=
  existsb
    (fun inner =>
       match Inner.instructions inner with
       | Some ixs => existsb isLiquidityInstruction ixs
       | None => false
       end)
    (innerInstructionsOf (Transaction.meta tx)).

(** [getHolderAddress()] inside [parseGenericTransaction]. *)
Definition getHolderAddress (tx : Transaction.t) (solChanges : list SolChange.t)
    : option string :=
  match find SolChange.isSigner solChanges with
  | Some signerChange => Some (SolChange.account signerChange)
  | None =>
      match solChanges with
      | first :: _ => Some (SolChange.account first)
      | [] =>
          match accountKeysOf tx with
          | Some keys => firstSignerKey keys
          | None => None
          end
      end
  end.

(** [tokenChangesByOwner], then the changes of the owner with the largest
    total movement. *)
Definition changesOfLargestOwner (significantTokenChanges : list TokenChange.t)
    : option (list TokenChange.t) :=
  let byOwner : JsMap.t (list TokenChange.t) :=
    fold_left
      (fun m change =>
         let key := TokenChange.owner change in
         let m1 := if negb (JsMap.has m key) then JsMap.set m key [] else m in
         match JsMap.get m1 key with
         | Some cs => JsMap.set m1 key (cs ++ [change])%list
         | None => m1
         end)
      significantTokenChanges JsMap.empty in
  let '(maxOwner, _) :=
    fold_left
      (fun acc entry =>
         let '(maxOwner, maxTotalChange) := acc in
         let '(owner, changes) := entry in
         let totalChange :=
           fold_left (fun sum c => JsNum.add sum (absTokenChange c)) changes (Fin 0) in
         if JsNum.gtb totalChange maxTotalChange
         then (Some owner, totalChange)
         else acc)
      byOwner (None, Fin 0) in
  match maxOwner with
  | Some owner => if JsString.truthy owner then JsMap.get byOwner owner else None
  | None => None
  end.

Definition symbolOf (mint : string) : string :=
  if String.eqb mint SOL_MINT then "SOL" else "Token".

Definition swapNote : string := "代币到代币交换（通过 SOL 中转）".
Definition multiNote : string := "交易包含多个变化，已提取主要交易对".

(** The token-to-token check at the head of [parseGenericTransaction]. *)
Definition tokenSwapOf (dex : string) (holderAddress : option string)
    (tokenChanges : list TokenChange.t) (solChanges : list SolChange.t)
    : option Trade.t :=
  let significantTokenChanges := filter isSignificantToken tokenChanges in
  let signerSolChanges := filter SolChange.isSigner solChanges in
  let signerAccounts := List.map SolChange.account signerSolChanges in
  let userTokenChanges :=
    filter (fun change => includesStr signerAccounts (TokenChange.owner change))
      significantTokenChanges in
  let effectiveTokenChanges :=
    match userTokenChanges with
    | [] =>
        match changesOfLargestOwner significantTokenChanges with
        | Some cs => cs
        | None => userTokenChanges
        end
    | _ :: _ => userTokenChanges
    end in
  let tokenSold :=
    filter (fun c => isNegative (TokenChange.change c)) effectiveTokenChanges in
  let tokenBought :=
    filter (fun c => isPositive (TokenChange.change c)) effectiveTokenChanges in
  match tokenSold, tokenBought with
  | sold0 :: _, bought0 :: _ =>
      let maxSold := maxBy absTokenChange tokenSold sold0 in
      let maxBought := maxBy absTokenChange tokenBought bought0 in
      if negb (String.eqb (TokenChange.mint maxSold) SOL_MINT)
         && negb (String.eqb (TokenChange.mint maxBought) SOL_MINT)
      then
        let userAddress :=
          orOpt (option_map TokenChange.owner (hd_error effectiveTokenChanges))
                holderAddress in
        Some
          (Trade.make Swap
             (TokenRef.mk (TokenChange.mint maxSold) "Token"
                (absTokenChange maxSold) (TokenChange.decimals maxSold))
             (TokenRef.mk (TokenChange.mint maxBought) "Token"
                (TokenChange.change maxBought) (TokenChange.decimals maxBought))
             (Some (JsNum.div (TokenChange.change maxBought)
                      (absTokenChange maxSold)))
             (orOpt userAddress holderAddress)
             (Some dex) (Some "generic_parser") (Some swapNote))
      else None
  | _, _ => None
  end.

(** [allChanges]: the token changes followed by the native changes. *)
Definition allChangesOf (tokenChanges : list TokenChange.t)
    (solChanges : list SolChange.t) : list ChangeItem.t :=
  (List.map
     (fun change =>
        ChangeItem.mk TokenItem (TokenChange.mint change)
          (TokenChange.change change) (TokenChange.decimals change))
     tokenChanges
   ++ List.map
        (fun change => ChangeItem.mk SolItem SOL_MINT (SolChange.change change) 9)
        solChanges)%list.

Definition isSignificantItem (item : ChangeItem.t) : bool :=
  JsNum.gtb (JsNum.abs (ChangeItem.amount item)) solDust.

Definition absItem (item : ChangeItem.t) : jsnum :=
  JsNum.abs (ChangeItem.amount item).

Definition isKind (k : ItemKind) (item : ChangeItem.t) : bool :=
  match k, ChangeItem.kind item with
  | TokenItem, TokenItem | SolItem, SolItem => true
  | _, _ => false
  end.

(** The test named [isSOLTokenTrade] in the last branch. *)
Definition isSOLTokenTrade (maxSold maxBought : ChangeItem.t) : bool :=
  (String.eqb (ChangeItem.mint maxSold) "SOL" && isKind TokenItem maxBought)
  || (isKind TokenItem maxSold && String.eqb (ChangeItem.mint maxBought) "SOL").

(** The object literal shared by the last two branches. *)
Definition pairOutcome (dex : string) (holderAddress : option string)
    (note : option string) (sold bought : ChangeItem.t) : Trade.t :=
  Trade.make (inferTradeType (ChangeItem.mint sold) (ChangeItem.mint bought))
    (TokenRef.mk (ChangeItem.mint sold) (symbolOf (ChangeItem.mint sold))
       (absItem sold) (ChangeItem.decimals sold))
    (TokenRef.mk (ChangeItem.mint bought) (symbolOf (ChangeItem.mint bought))
       (ChangeItem.amount bought) (ChangeItem.decimals bought))
    (calculatePrice sold bought)
    holderAddress (Some dex) (Some "generic_parser") note.

(** [sold]: the significant entries of [allChanges] with a negative
    amount. *)
Definition soldItemsOf (tokenChanges : list TokenChange.t)
    (solChanges : list SolChange.t) : list ChangeItem.t :=
  filter (fun i => isNegative (ChangeItem.amount i))
    (filter isSignificantItem (allChangesOf tokenChanges solChanges)).

(** [bought]: the significant entries of [allChanges] with a positive
    amount. *)
Definition boughtItemsOf (tokenChanges : list TokenChange.t)
    (solChanges : list SolChange.t) : list ChangeItem.t :=
  filter (fun i => isPositive (ChangeItem.amount i))
    (filter isSignificantItem (allChangesOf tokenChanges solChanges)).

(** The part of [parseGenericTransaction] that follows the failed
    [analyzeSOLTokenTrade]: one pair, or the representative pair. *)
Definition pairFromAllChanges (dex : string) (holderAddress : option string)
    (tokenChanges : list TokenChange.t) (solChanges : list SolChange.t)
    : option Trade.t :=
  let sold := soldItemsOf tokenChanges solChanges in
  let bought := boughtItemsOf tokenChanges solChanges in
  match sold, bought with
  | [sold0], [bought0] => Some (pairOutcome dex holderAddress None sold0 bought0)
  | sold0 :: soldRest, bought0 :: boughtRest =>
      let maxSold := maxBy absItem soldRest sold0 in
      let maxBought := maxBy absItem boughtRest bought0 in
      if isSOLTokenTrade maxSold maxBought
      then Some (pairOutcome dex holderAddress (Some multiNote) maxSold maxBought)
      else None
  | _, _ => None
  end.

(** [parseGenericTransaction(transaction, dex)]. *)
Definition parseGenericTransaction (tx : Transaction.t) (dex : string)
    : result (option Trade.t) :=
  if hasLiquidityOperation tx || hasLiquidityInstruction tx
     || hasLiquidityInnerInstruction tx
  then Ok None
  else
    let tokenChanges := parseTokenBalanceChanges (Transaction.meta tx) in
    solChanges <- parseSOLBalanceChanges tx ;;
    let holderAddress := getHolderAddress tx solChanges in
    match tokenSwapOf dex holderAddress tokenChanges solChanges with
    | Some swap => Ok (Some swap)
    | None =>
        solTokenTrade <- analyzeSOLTokenTrade tokenChanges solChanges ;;
        match solTokenTrade with
        | Some t =>
            let t1 :=
              if negb (JsString.truthyOpt (Trade.holderAddress t))
              then Trade.setHolderAddress holderAddress t
              else t in
            Ok (Some (Trade.setDexSource dex "generic_parser" t1))
        | None =>
            Ok (pairFromAllChanges dex holderAddress tokenChanges solChanges)
        end
    end.

End GenericParser.

Section DexParsers.

Local Open Scope bool_scope.

(** The program ids of the inner instructions, then of the top-level ones. *)
Definition collectProgramIds (accountKeys : option (list AccountKey.t))
    (instructions : list Instruction.t) (inner : list Inner.t) : list string :=
  let mainProgramIds :=
    flat_map
      (fun ix => match getProgramId ix accountKeys with
                 | Some id => [id]
                 | None => []
                 end)
      instructions in
  let innerProgramIds :=
    flat_map
      (fun ix => match getProgramId ix accountKeys with
                 | Some id => if JsString.truthy id then [id] else []
                 | None => []
                 end)
      (flattenInner inner) in
  (innerProgramIds ++ mainProgramIds)%list.

(** [programs.some(program => programIds.includes(program))]. *)
Definition anyProgram (programs programIds : list string) : bool :=
  existsb (includesStr programIds) programs.

(** [meta?.postBalances?.some((post, i) => |post - (pre[i] || 0)| > 1000000)]. *)
Fixpoint someLargeSolChange (preBalances : list Z) (index : nat)
    (postBalances : list Z) : bool :=
  match postBalances with
  | [] => false
  | post :: rest =>
      let pre := orZeroZ (nth_error preBalances index) in
      (Z.abs (post - pre) >? 1000000)%Z
      || someLargeSolChange preBalances (S index) rest
  end.

(** [identifyDEX(transaction)]. *)
Definition identifyDEX (tx : Transaction.t) : result DexType :=
  td <- mustBeDefined (Transaction.transaction tx) ;;
  message <- mustBeDefined (TxData.message td) ;;
  let accountKeys := Message.accountKeys message in
  instructions <- mustBeDefined (Message.instructions message) ;;
  let programIds :=
    collectProgramIds accountKeys instructions
      (innerInstructionsOf (Transaction.meta tx)) in
  if anyProgram DEX_PROGRAMS.PUMP_FUN programIds then Ok DexPumpFun
  else if anyProgram DEX_PROGRAMS.RAYDIUM programIds then Ok DexRaydium
  else if anyProgram DEX_PROGRAMS.ORCA programIds then Ok DexOrca
  else if anyProgram DEX_PROGRAMS.JUPITER programIds then Ok DexJupiter
  else if anyProgram DEX_PROGRAMS.METEORA programIds then Ok DexMeteora
  else if anyProgram DEX_PROGRAMS.DFLOW programIds then Ok DexDFlow
  else
    let logText := logTextOf (Transaction.meta tx) in
    if JsString.includes logText (JsString.toLowerCase PUMP_FUN_PROGRAM_ID)
       || (JsString.includes logText "instruction: sell"
           && JsString.includes logText "pamm")
    then Ok DexPumpFun
    else if JsString.includes logText "meteora" || JsString.includes logText "dlmm"
    then Ok DexMeteora
    else if JsString.includes logText "dflow"
            || JsString.includes logText "aggregator"
    then Ok DexDFlow
    else
      let instructionCount := List.length instructions in
      keys <- mustBeDefined accountKeys ;;
      let accountCount := List.length keys in
      if Nat.ltb 3 instructionCount && Nat.ltb 10 accountCount
      then
        let hasTokenChanges :=
          match Transaction.meta tx with
          | Some m =>
              match Meta.postTokenBalances m with
              | Some l => Nat.ltb 0 (List.length l)
              | None => false
              end
          | None => false
          end in
        let hasSolChanges :=
          match Transaction.meta tx with
          | Some m =>
              match Meta.postBalances m with
              | Some post => someLargeSolChange (orEmpty (Meta.preBalances m)) O post
              | None => false
              end
          | None => false
          end in
        if hasTokenChanges && hasSolChanges then Ok DexJupiter else Ok DexUnknown
      else Ok DexUnknown.

(** [parseJupiterTransaction(transaction)], outside development mode. *)
Definition parseJupiterTransaction (tx : Transaction.t) : result (option Trade.t) :=
  tradeInfo <- parseGenericTransaction tx "jupiter" ;;
  Ok (option_map (Trade.setSource "jupiter_transaction") tradeInfo).

(** [ix.programId?.toString() === id]. *)
Definition programIdIs (id : string) (ix : Instruction.t) : bool :=
  match Instruction.programId ix with
  | Some p => String.eqb p id
  | None => false
  end.

(** [ix.parsed?.type === 'swap']. *)
Definition parsedTypeIs (ty : string) (ix : Instruction.t) : bool :=
  match Instruction.parsed ix with
  | Some (ParsedObj (Some t)) => String.eqb t ty
  | _ => false
  end.

(** [txData.message.instructions], raising when a link is missing. *)
Definition instructionsOrThrow (tx : Transaction.t) : result (list Instruction.t) :=
  td <- mustBeDefined (Transaction.transaction tx) ;;
  message <- mustBeDefined (TxData.message td) ;;
  mustBeDefined (Message.instructions message).

(** [parseRaydiumTransaction(transaction)]. *)
Definition parseRaydiumTransaction (tx : Transaction.t) : result (option Trade.t) :=
  instructions <- instructionsOrThrow tx ;;
  let swapInstruction :=
    find (fun ix => programIdIs (hd "" DEX_PROGRAMS.RAYDIUM) ix && parsedTypeIs "swap" ix)
      instructions in
  let tokenChanges := parseTokenBalanceChanges (Transaction.meta tx) in
  solChanges <- parseSOLBalanceChanges tx ;;
  tradeInfo <- analyzeSOLTokenTrade tokenChanges solChanges ;;
  Ok (option_map
        (fun t =>
           Trade.setHasSwapInstruction
             (match swapInstruction with Some _ => true | None => false end)
             (Trade.setDexSource "raydium" "raydium_parser" t))
        tradeInfo).

(** [parseOrcaTransaction(transaction)]. *)
Definition parseOrcaTransaction (tx : Transaction.t) : result (option Trade.t) :=
  instructions <- instructionsOrThrow tx ;;
  let orcaInstructions :=
    filter
      (fun ix =>
         match Instruction.programId ix with
         | Some p => includesStr DEX_PROGRAMS.ORCA p
         | None => false
         end)
      instructions in
  let tokenChanges := parseTokenBalanceChanges (Transaction.meta tx) in
  solChanges <- parseSOLBalanceChanges tx ;;
  tradeInfo <- analyzeSOLTokenTrade tokenChanges solChanges ;;
  Ok (option_map
        (fun t =>
           Trade.setOrcaInstructions (List.length orcaInstructions)
             (Trade.setDexSource "orca" "orca_parser" t))
        tradeInfo).

(** The instructions, top-level or inner, whose program is Pump.fun. *)
Definition pumpFunInstructions (accountKeys : option (list AccountKey.t))
    (ixs : list Instruction.t) : list Instruction.t :=
  filter
    (fun ix =>
       match getProgramId ix accountKeys with
       | Some id => String.eqb id PUMP_FUN_PROGRAM_ID
       | None => false
       end)
    ixs.

Definition isSellFromLog (logText : string) : bool :=
  JsString.includes logText "instruction: sell"
  || JsString.includes logText "instruction sell".

Definition isBuyFromLog (logText : string) : bool :=
  JsString.includes logText "instruction: buy"
  || JsString.includes logText "instruction buy".

(** The direction override of [parsePumpFunTransaction]. *)
Definition applyLogDirection (logText : string) (tradeInfo : Trade.t) : Trade.t :=
  let swapped ty :=
    Trade.flip ty
      (Some (JsNum.div (TokenRef.amount (Trade.soldToken tradeInfo))
               (TokenRef.amount (Trade.boughtToken tradeInfo))))
      tradeInfo in
  if isSellFromLog logText && TradeType_eqb (Trade.type tradeInfo) Buy
  then swapped Sell
  else if isBuyFromLog logText && TradeType_eqb (Trade.type tradeInfo) Sell
  then swapped Buy
  else tradeInfo.

(** The negation of the test that makes [parsePumpFunTransaction] give up:
    a Pump.fun instruction at the top level or among the inner ones, or the
    program id in the logs. *)
Definition pumpFunEvidence (tx : Transaction.t) (accountKeys : option (list AccountKey.t))
    (instructions : list Instruction.t) : bool :=
  let mainPumpFunInstructions := pumpFunInstructions accountKeys instructions in
  let innerPumpFunInstructions :=
    pumpFunInstructions accountKeys
      (flattenInner (innerInstructionsOf (Transaction.meta tx))) in
  let hasPumpFunInLogs :=
    JsString.includes (logTextOf (Transaction.meta tx))
      (JsString.toLowerCase PUMP_FUN_PROGRAM_ID) in
  negb (Nat.eqb (List.length mainPumpFunInstructions) 0
        && Nat.eqb (List.length innerPumpFunInstructions) 0
        && negb hasPumpFunInLogs).

(** [parsePumpFunTransaction(transaction)]. *)
Definition parsePumpFunTransaction (tx : Transaction.t) : result (option Trade.t) :=
  td <- mustBeDefined (Transaction.transaction tx) ;;
  message <- mustBeDefined (TxData.message td) ;;
  let accountKeys := Message.accountKeys message in
  instructions <- mustBeDefined (Message.instructions message) ;;
  let mainPumpFunInstructions := pumpFunInstructions accountKeys instructions in
  let innerPumpFunInstructions :=
    pumpFunInstructions accountKeys
      (flattenInner (innerInstructionsOf (Transaction.meta tx))) in
  let logText := logTextOf (Transaction.meta tx) in
  if negb (pumpFunEvidence tx accountKeys instructions)
  then Ok None
  else
    let tokenChanges := parseTokenBalanceChanges (Transaction.meta tx) in
    solChanges <- parseSOLBalanceChanges tx ;;
    tradeInfo <- analyzeSOLTokenTrade tokenChanges solChanges ;;
    Ok (option_map
          (fun t =>
             Trade.setPumpFun "pump.fun"
               (List.length mainPumpFunInstructions
                + List.length innerPumpFunInstructions)
               (Nat.ltb 0 (List.length innerPumpFunInstructions))
               (Trade.setDexSource "pump_fun_amm" "pump_fun_parser"
                  (applyLogDirection logText t)))
          tradeInfo).

End DexParsers.

(* ================================================================== *)
(** ** [SolanaDexTradeParser]: the part that talks to the outside *)
(* ================================================================== *)

(** The body of a successful reply of the quote service. *)
Module JupiterData.
Record t : Type := mk {
  inputMint : option string;
  outputMint : option string;
  inputAmount : option Q;
  outputAmount : option Q;
  inputDecimals : option Z;
  outputDecimals : option Z;
  inputSymbol : option string;
  outputSymbol : option string;
  price : option jsnum;
  fee : option jsnum
}.
End JupiterData.

(** The collaborators of the parser.  A fetch that fails, rejects or finds
    nothing is [None]; so is a reply of the quote service that is not OK,
    times out or cannot be read.  [dateNow n] is the value of the [n]-th call
    of [Date.now()]. *)
Record Env : Type := mkEnv {
  getParsedTransaction : string -> option Transaction.t;
  getParsedTransactions : list string -> option (list (option Transaction.t));
  jupiterResponse : string -> option JupiterData.t;
  dateNow : nat -> Z
}.

(** The calls made to the collaborators, oldest first. *)
Inductive Event : Type :=
| FetchOne (signature : string)
| FetchBatch (signatures : list string)
| JupiterLookup (signature : string).

(** Location of a trade object in the heap. *)
Definition loc : Type := nat.

(** The parser instance together with the objects it has handed out: the
    cache stores and returns references into [heap]. *)
Record World : Type := mkWorld {
  heap : list Trade.t;
  cache : SimpleCache.t loc;
  trace : list Event;
  ticks : nat
}.

(** [new SolanaDexTradeParser(connection)]: a cache of 500 entries that expire
    after one hour. *)
Definition newWorld : World :=
  mkWorld [] (SimpleCache.create 500 3600000) [] O.

Record Options : Type := mkOptions {
  useJupiterAPI : bool;
  useCache : bool
}.

(** The defaults of [parseTrade]. *)
Definition defaultOptions : Options := mkOptions true true.

Section ParseTrade.

Local Open Scope bool_scope.

Variable env : Env.

(** [x || 6]. *)
Definition orSix (o : option Z) : Z :=
  match o with
  | Some z => if Z.eqb z 0 then 6 else z
  | None => 6
  end.

(** A numeric property that may be missing. *)
Definition numberOf (o : option Q) : jsnum :=
  match o with
  | Some q => Fin q
  | None => NaN
  end.

(** [Math.pow(10, d)]. *)
Definition pow10 (d : Z) : jsnum := Fin (Qpower (10 # 1) d).

(** What [parseJupiterViaAPI] makes of the reply. *)
Definition jupiterTradeOf (reply : option JupiterData.t) : option Trade.t :=
  match reply with
  | None => None
  | Some data =>
      match JupiterData.inputMint data, JupiterData.outputMint data with
      | Some inputMint, Some outputMint =>
          if negb (JsString.truthy inputMint) || negb (JsString.truthy outputMint)
          then None
          else
            let inputDecimals := orSix (JupiterData.inputDecimals data) in
            let outputDecimals := orSix (JupiterData.outputDecimals data) in
            let inputAmount :=
              JsNum.div (numberOf (JupiterData.inputAmount data)) (pow10 inputDecimals) in
            let outputAmount :=
              JsNum.div (numberOf (JupiterData.outputAmount data)) (pow10 outputDecimals) in
            if JsNum.leb inputAmount (Fin 0) || JsNum.leb outputAmount (Fin 0)
            then None
            else if String.eqb inputMint SOL_MINT
                    && JsNum.ltb inputAmount (Fin (1 # 100))
            then None
            else
              Some
                (Trade.setFee (JupiterData.fee data)
                   (Trade.make (inferTradeType inputMint outputMint)
                      (TokenRef.mk inputMint
                         (JsString.orElse (JupiterData.inputSymbol data) "Unknown")
                         inputAmount inputDecimals)
                      (TokenRef.mk outputMint
                         (JsString.orElse (JupiterData.outputSymbol data) "Unknown")
                         outputAmount outputDecimals)
                      (JupiterData.price data) None
                      (Some "jupiter") (Some "jupiter_api") None))
      | _, _ => None
      end
  end.

(** [parseJupiterViaAPI(signature)]. *)
Definition parseJupiterViaAPI (signature : string) : option Trade.t :=
  jupiterTradeOf (jupiterResponse env signature).

(** The holder that [parseTrade] adds to a result of the quote service. *)
Definition backfillHolder (tx : Transaction.t) (jupiterTrade : Trade.t)
    : result Trade.t :=
  if negb (JsString.truthyOpt (Trade.holderAddress jupiterTrade))
  then
    match firstSignerKey (orEmpty (accountKeysOf tx)) with
    | Some address => Ok (Trade.setHolderAddress (Some address) jupiterTrade)
    | None =>
        solChanges <- parseSOLBalanceChanges tx ;;
        match find SolChange.isSigner solChanges with
        | Some signerChange =>
            Ok (Trade.setHolderAddress (Some (SolChange.account signerChange))
                  jupiterTrade)
        | None =>
            match solChanges with
            | first :: _ =>
                Ok (Trade.setHolderAddress (Some (SolChange.account first))
                      jupiterTrade)
            | [] => Ok jupiterTrade
            end
        end
    end
  else Ok jupiterTrade.

(** The [switch] of [parseTrade]. *)
Definition dispatch (dexType : DexType) (tx : Transaction.t)
    : result (option Trade.t) :=
  match dexType with
  | DexJupiter => parseJupiterTransaction tx
  | DexRaydium => parseRaydiumTransaction tx
  | DexOrca => parseOrcaTransaction tx
  | DexPumpFun => parsePumpFunTransaction tx
  | _ => parseGenericTransaction tx "unknown"
  end.

(** [transaction.blockTime ? new Date(transaction.blockTime * 1000) : null],
    as milliseconds. *)
Definition timestampOf (tx : Transaction.t) : option Z :=
  match Transaction.blockTime tx with
  | Some bt => if Z.eqb bt 0 then None else Some (bt * 1000)
  | None => None
  end.

(** The [try] block of [parseTrade] once both replies are in. *)
Definition resolveTrade (signature : string) (jupiterTrade : option Trade.t)
    (transaction : option Transaction.t) : result (option Trade.t) :=
  match jupiterTrade, transaction with
  | Some jt, Some tx =>
      dexType <- identifyDEX tx ;;
      pumpFunTrade <-
        match dexType with
        | DexPumpFun => parsePumpFunTransaction tx
        | _ => Ok None
        end ;;
      match pumpFunTrade with
      | Some t => Ok (Some t)
      | None =>
          jt1 <- backfillHolder tx jt ;;
          Ok (Some jt1)
      end
  | _, None => Throw "Transaction not found on chain"
  | None, Some tx =>
      dexType <- identifyDEX tx ;;
      tradeInfo <- dispatch dexType tx ;;
      Ok (option_map
            (Trade.stamp signature (timestampOf tx) (Transaction.slot tx))
            tradeInfo)
  end.

(** Put a new object in the heap. *)
Definition alloc (t : Trade.t) (w : World) : loc * World :=
  (List.length (heap w),
   mkWorld (heap w ++ [t])%list (cache w) (trace w) (ticks w)).

Definition logEvents (es : list Event) (w : World) : World :=
  mkWorld (heap w) (cache w) (trace w ++ es)%list (ticks w).

(** [this.cache.get(signature)]; the clock is read only when the key is
    present. *)
Definition cacheGet (signature : string) (w : World) : option loc * World :=
  let '(hit, c) := SimpleCache.get (dateNow env (ticks w)) signature (cache w) in
  (hit,
   mkWorld (heap w) c (trace w)
     (if JsMap.has (SimpleCache.cache (cache w)) signature
      then S (ticks w) else ticks w)).

(** [this.cache.set(signature, value)]. *)
Definition cacheSet (signature : string) (l : loc) (w : World) : World :=
  mkWorld (heap w)
    (SimpleCache.set (dateNow env (ticks w)) signature l (cache w))
    (trace w) (S (ticks w)).

(** [parseTrade(signature, options)]. *)
Definition parseTrade (signature : string) (options : Options) (w : World)
    : option loc * World :=
  let '(cached, w1) :=
    if useCache options then cacheGet signature w else (None, w) in
  match cached with
  | Some l => (Some l, w1)
  | None =>
      let w2 :=
        logEvents
          ((if useJupiterAPI options then [JupiterLookup signature] else [])
           ++ [FetchOne signature])%list w1 in
      let jupiterTrade :=
        if useJupiterAPI options then parseJupiterViaAPI signature else None in
      let transaction := getParsedTransaction env signature in
      match catchNull (resolveTrade signature jupiterTrade transaction) with
      | None => (None, w2)
      | Some tradeInfo =>
          let '(l, w3) := alloc tradeInfo w2 in
          if useCache options
          then (Some l, cacheSet signature l w3)
          else (Some l, w3)
      end
  end.

(** Assignment through a reference. *)
Fixpoint updateAt (l : loc) (f : Trade.t -> Trade.t) (h : list Trade.t)
    : list Trade.t :=
  match h, l with
  | [], _ => []
  | t :: rest, O => f t :: rest
  | t :: rest, S l' => t :: updateAt l' f rest
  end.

(** A caller assigns to the object it was handed. *)
Definition mutate (l : loc) (f : Trade.t -> Trade.t) (w : World) : World :=
  mkWorld (updateAt l f (heap w)) (cache w) (trace w) (ticks w).

(** Read the object at a location. *)
Definition deref (l : loc) (w : World) : option Trade.t := nth_error (heap w) l.

End ParseTrade.

(* ================================================================== *)
(** ** The batch helpers *)
(* ================================================================== *)

(** The simplified object that the batch helpers return. *)
Module TradeInfo.
Record t : Type := mk {
  type : TradeType;
  dex : option string;
  source : option string;
  soldToken : TokenRef.t;
  boughtToken : TokenRef.t;
  price : option jsnum;
  fee : option jsnum;
  holderAddress : option string
}.
End TradeInfo.

Definition TOKEN_SYMBOL_MAP : JsMap.t string :=
  [ ("EPjFWdd5AufqSSqeM2qN1xzybapC8G4wEGGkZwyTDt1v", "USDC");
    ("FkimKUQhh72rJKxSD6awD7KUdf6yYwhz2weBrRgvSYbX", "USDC");
    ("Es9vMFrzaCERmJfrF4H2FYD4KCoNkY11McCe8BenwNYB", "USDT");
    ("So11111111111111111111111111111111111111112", "SOL") ].

Section Batch.

Local Open Scope bool_scope.

Variable env : Env.

(** [isSOL(mint)]. *)
Definition isSOL (mint : string) : bool :=
  String.eqb mint SOL_MINT || String.eqb mint "SOL".

(** [getTokenSymbol(mint, defaultSymbol)]. *)
Definition getTokenSymbol (mint defaultSymbol : string) : string :=
  if negb (JsString.truthy mint)
  then (if JsString.truthy defaultSymbol then defaultSymbol else "Unknown")
  else if isSOL mint then "SOL"
  else
    match JsMap.get TOKEN_SYMBOL_MAP mint with
    | Some symbol => symbol
    | None =>
        if JsString.truthy defaultSymbol
           && negb (String.eqb defaultSymbol "Token")
           && negb (String.eqb defaultSymbol "Unknown")
        then defaultSymbol
        else "Unknown"
    end.

Definition resymbol (t : TokenRef.t) : TokenRef.t :=
  TokenRef.mk (TokenRef.mint t)
    (getTokenSymbol (TokenRef.mint t) (TokenRef.symbol t))
    (TokenRef.amount t) (TokenRef.decimals t).

(** [x || null] on a numeric property. *)
Definition orNullNum (o : option jsnum) : option jsnum :=
  match o with
  | Some n => if JsNum.truthy n then Some n else None
  | None => None
  end.

(** The object literal of [parseTradeInfoInternal]; it has no
    [holderAddress]. *)
Definition simplify (tradeInfo : Trade.t) : TradeInfo.t :=
  TradeInfo.mk (Trade.type tradeInfo) (Trade.dex tradeInfo)
    (Trade.source tradeInfo)
    (resymbol (Trade.soldToken tradeInfo))
    (resymbol (Trade.boughtToken tradeInfo))
    (Trade.price tradeInfo) (orNullNum (Trade.fee tradeInfo)) None.

(** The object literal of [parseTradeFromTransactionSync]. *)
Definition simplifyWithHolder (tradeInfo : Trade.t) : TradeInfo.t :=
  TradeInfo.mk (Trade.type tradeInfo) (Trade.dex tradeInfo)
    (Trade.source tradeInfo)
    (resymbol (Trade.soldToken tradeInfo))
    (resymbol (Trade.boughtToken tradeInfo))
    (Trade.price tradeInfo) (orNullNum (Trade.fee tradeInfo))
    (orOpt (Trade.holderAddress tradeInfo) None).

(** The options that [parseTradeInfoInternal] passes to [parseTrade]. *)
Definition internalOptions : Options := mkOptions false true.

(** [parseTradeInfoInternal(signature)]. *)
Definition parseTradeInfoInternal (signature : string) (w : World)
    : option TradeInfo.t * World :=
  let '(r, w1) := parseTrade env signature internalOptions w in
  match r with
  | None => (None, w1)
  | Some l =>
      match deref l w1 with
      | Some tradeInfo => (Some (simplify tradeInfo), w1)
      | None => (None, w1)
      end
  end.

(** [parseTradeFromTransactionSync(parser, signature, transaction)].  The
    handler of its [try] reads [isDebugSignature], which is declared
    nowhere, so an error inside the block leaves as a [ReferenceError]. *)
Definition parseTradeFromTransactionSync (signature : string)
    (transaction : option Transaction.t) : result (option TradeInfo.t) :=
  match transaction with
  | None => Ok None
  | Some tx =>
      match Transaction.transaction tx, Transaction.meta tx with
      | Some _, Some _ =>
          let body :=
            dexType <- identifyDEX tx ;;
            tradeInfo <-
              match dexType with
              | DexJupiter => parseJupiterTransaction tx
              | DexRaydium => parseRaydiumTransaction tx
              | DexOrca => parseOrcaTransaction tx
              | DexPumpFun => parsePumpFunTransaction tx
              | DexMeteora => parseGenericTransaction tx "Meteora DLMM"
              | DexDFlow => parseGenericTransaction tx "DFlow Aggregator"
              | DexUnknown => parseGenericTransaction tx "unknown"
              end ;;
            Ok (option_map
                  (fun t =>
                     simplifyWithHolder
                       (Trade.stamp signature (timestampOf tx)
                          (Transaction.slot tx) t))
                  tradeInfo) in
          match body with
          | Ok r => Ok r
          | Throw _ => Throw "ReferenceError"
          end
      | _, _ => Ok None
      end
  end.

(** [results.set(signature, tradeInfo)] when there is a trade. *)
Definition record (results : JsMap.t TradeInfo.t) (signature : string)
    (tradeInfo : option TradeInfo.t) : JsMap.t TradeInfo.t :=
  match tradeInfo with
  | Some t => JsMap.set results signature t
  | None => results
  end.

(** The synchronous pass over a fetched batch. *)
Fixpoint parseFetched (batch : list string)
    (transactions : list (option Transaction.t)) (index : nat)
    (results : JsMap.t TradeInfo.t) : JsMap.t TradeInfo.t :=
  match batch with
  | [] => results
  | signature :: rest =>
      let tradeInfo :=
        match nth_error transactions index with
        | Some (Some tx) =>
            catchNull (parseTradeFromTransactionSync signature (Some tx))
        | _ => None
        end in
      parseFetched rest transactions (S index) (record results signature tradeInfo)
  end.

(** The part of [parseTrade] that runs before its first [await]: the cache
    is read and, on a miss, the requests are sent. *)
Definition parseTradeBegin (signature : string) (options : Options) (w : World)
    : option loc * World :=
  let '(cached, w1) :=
    if useCache options then cacheGet env signature w else (None, w) in
  match cached with
  | Some l => (Some l, w1)
  | None =>
      (None,
       logEvents
         ((if useJupiterAPI options then [JupiterLookup signature] else [])
          ++ [FetchOne signature])%list w1)
  end.

(** The part of [parseTrade] that runs once the replies are in; [cached] is
    what the first part found in the cache. *)
Definition parseTradeEnd (signature : string) (options : Options)
    (cached : option loc) (w : World) : option loc * World :=
  match cached with
  | Some l => (Some l, w)
  | None =>
      let jupiterTrade :=
        if useJupiterAPI options then parseJupiterViaAPI env signature else None in
      let transaction := getParsedTransaction env signature in
      match catchNull (resolveTrade signature jupiterTrade transaction) with
      | None => (None, w)
      | Some tradeInfo =>
          let '(l, w3) := alloc tradeInfo w in
          if useCache options
          then (Some l, cacheSet env signature l w3)
          else (Some l, w3)
      end
  end.

(** What [parseTradeInfoInternal] makes of the outcome of [parseTrade]. *)
Definition simplifyAt (r : option loc) (w : World) : option TradeInfo.t :=
  match r with
  | None => None
  | Some l =>
      match deref l w with
      | Some tradeInfo => Some (simplify tradeInfo)
      | None => None
      end
  end.

(** The handler of a failed bulk fetch, first phase: [batch.map] starts one
    [parseTradeInfoInternal] per signature, and each of them runs, before
    the next one starts, up to the first [await] of [parseTrade].  Every
    signature comes with what its cache lookup gave. *)
Fixpoint startAll (batch : list string) (w : World)
    : list (string * option loc) * World :=
  match batch with
  | [] => ([], w)
  | signature :: rest =>
      let '(cached, w1) := parseTradeBegin signature internalOptions w in
      let '(started, w2) := startAll rest w1 in
      ((signature, cached) :: started, w2)
  end.

(** Second phase: the calls complete and their outcomes are recorded in the
    order of the batch.  The replies are taken to arrive in the order of the
    requests; another order changes the order of insertion into the cache
    and the numbering of the new objects, and nothing else. *)
Fixpoint settleAll (started : list (string * option loc))
    (results : JsMap.t TradeInfo.t) (w : World) : JsMap.t TradeInfo.t * World :=
  match started with
  | [] => (results, w)
  | (signature, cached) :: rest =>
      let '(r, w1) := parseTradeEnd signature internalOptions cached w in
      settleAll rest (record results signature (simplifyAt r w1)) w1
  end.

(** The handler of a failed bulk fetch: [Promise.allSettled] over one
    [parseTradeInfoInternal] per signature, all started together. *)
Definition fallback (batch : list string) (results : JsMap.t TradeInfo.t)
    (w : World) : JsMap.t TradeInfo.t * World :=
  let '(started, w1) := startAll batch w in
  settleAll started results w1.

(** One turn of the loop of [parseMultipleTradeInfo]. *)
Definition processBatch (batch : list string) (results : JsMap.t TradeInfo.t)
    (w : World) : JsMap.t TradeInfo.t * World :=
  let w1 := logEvents [FetchBatch batch] w in
  match getParsedTransactions env batch with
  | Some [] => (results, w1)
  | Some transactions => (parseFetched batch transactions O results, w1)
  | None => fallback batch results w1
  end.

(** The loop over the batches; [None] when the fuel runs out. *)
Fixpoint batchLoop (fuel : nat) (batchSize i : nat) (signatures : list string)
    (results : JsMap.t TradeInfo.t) (w : World)
    : option (JsMap.t TradeInfo.t * World) :=
  match fuel with
  | O => None
  | S fuel' =>
      if Nat.ltb i (List.length signatures)
      then
        let batch := firstn batchSize (skipn i signatures) in
        let '(results1, w1) := processBatch batch results w in
        batchLoop fuel' batchSize (i + batchSize) signatures results1 w1
      else Some (results, w)
  end.

(** [parseMultipleTradeInfo(signatures, concurrency)]. *)
Definition parseMultipleTradeInfo (signatures : list string) (concurrency : nat)
    (w : World) : option (JsMap.t TradeInfo.t * World) :=
  match signatures with
  | [] => Some (JsMap.empty, w)
  | _ :: _ =>
      let batchSize :=
        if Nat.leb (List.length signatures) 50
        then List.length signatures
        else Nat.min concurrency 50 in
      batchLoop (S (List.length signatures)) batchSize O signatures JsMap.empty w
  end.

End Batch.

(* ================================================================== *)
(** ** Sample transactions *)
(* ================================================================== *)

Module Sample.

(** A decoded transaction with plain-string account keys. *)
Definition tx (keys : list string) (numRequiredSignatures : nat)
    (instructions : list Instruction.t) (logMessages : list string)
    (preBalances postBalances : option (list Z))
    (preTokenBalances postTokenBalances : option (list TokenBalance.t))
    : Transaction.t :=
  Transaction.mk
    (Some (TxData.mk
             (Some (Message.mk
                      (Some (Header.mk (Some numRequiredSignatures) (Some O)))
                      (Some (List.map AccountKey.Str keys))
                      (Some instructions)))))
    (Some (Meta.mk (Some []) (Some logMessages) preBalances postBalances
             preTokenBalances postTokenBalances None))
    (Some 1700000000) (Some 250000000).

Definition balance (owner mint : string) (uiAmount : Q) : TokenBalance.t :=
  TokenBalance.mk (Some owner) (Some mint)
    (Some (UiTokenAmount.mk (Some uiAmount) (Some 6))).

Definition mintM : string := "MintM111111111111111111111111111111111111111".

(** The wallet pays 50,000 lamports and receives one token. *)
Definition dustBuy : Transaction.t :=
  tx ["Wallet"] 1 [] []
     (Some [1000000000]) (Some [999950000])
     (Some []) (Some [balance "Wallet" mintM 1]).

(** The balance of the only account moves by one lamport. *)
Definition oneLamport : Transaction.t :=
  tx ["Wallet"] 1 [] []
     (Some [1000000000]) (Some [1000000001]) None None.

(** A record with [postBalances] and without [preBalances]. *)
Definition noPreBalances : Transaction.t :=
  tx ["Wallet"] 1 [] [] None (Some [5000000000]) None None.

(** The wallet pays 1.5 SOL and receives a million tokens. *)
Definition plainBuy : Transaction.t :=
  tx ["Wallet"; "Pool"] 1 [] []
     (Some [10000000000; 0]) (Some [8500000000; 0])
     (Some []) (Some [balance "Wallet" mintM 1000000]).

(** The same deltas as [plainBuy], in a Pump.fun transaction whose log
    names a sell instruction. *)
Definition pumpSellLoggedBuy : Transaction.t :=
  tx ["Wallet"; "Pool"] 1 []
     ["Program pAMMBay6oceH9fJKBRHGP5D4bD4sWpmSwMn52FMfXEA invoke [1]";
      "Program log: Instruction: Sell"]
     (Some [10000000000; 0]) (Some [8500000000; 0])
     (Some []) (Some [balance "Wallet" mintM 1000000]).

(** The same deltas as [plainBuy], with a log that names a deposit. *)
Definition liquidityBuy : Transaction.t :=
  tx ["Wallet"; "Pool"] 1 []
     ["Program log: Instruction: Deposit"]
     (Some [10000000000; 0]) (Some [8500000000; 0])
     (Some []) (Some [balance "Wallet" mintM 1000000]).

(** The wallet pays two SOL to the pool, and the three tokens of the pool
    move to the wallet: four significant deltas. *)
Definition sameMintShuffle : Transaction.t :=
  tx ["Wallet"; "Pool"] 1 [] []
     (Some [10000000000; 10000000000]) (Some [8000000000; 12000000000])
     (Some [balance "Pool" mintM 3])
     (Some [balance "Wallet" mintM 3; balance "Pool" mintM 0]).

(** A reply of the quote service: two SOL for three tokens. *)
Definition quote : JupiterData.t :=
  JupiterData.mk (Some SOL_MINT) (Some mintM)
    (Some (2000000000 # 1)) (Some (3000000 # 1)) (Some 9) (Some 6)
    (Some "SOL") None (Some (Fin (3 # 2))) None.

(** Every signature resolves to [plainBuy]; no bulk fetch, no quotes. *)
Definition buyEnv : Env :=
  mkEnv (fun _ => Some plainBuy) (fun _ => None) (fun _ => None) (fun _ => 0).


(** The deltas of [plainBuy], written out. *)
Definition plainBuySol : list SolChange.t :=
  Eval vm_compute in
    match parseSOLBalanceChanges plainBuy with
    | Ok changes => changes
    | Throw _ => []
    end.

Definition plainBuyTokens : list TokenChange.t :=
  Eval vm_compute in parseTokenBalanceChanges (Transaction.meta plainBuy).

End Sample.

(* ================================================================== *)
(** ** Notions used to state further properties, and more of the code *)
(* ================================================================== *)

Definition changeKey (c : TokenChange.t) : string :=
  TokenChange.owner c ++ "-" ++ TokenChange.mint c.

Definition balanceKeys (bs : list TokenBalance.t) : list string :=
  flat_map
    (fun b => match balanceKey b with
              | Some (key, _, _) => [key]
              | None => []
              end)
    bs.

(** What every record of the change map satisfies. *)
Definition goodTokenChange (c : TokenChange.t) : Prop :=
  JsString.truthy (TokenChange.owner c) = true
  /\ JsString.truthy (TokenChange.mint c) = true
  /\ JsNum.gtb (JsNum.abs (TokenChange.change c)) tokenDust = true.

Definition wellKeyed (m : JsMap.t TokenChange.t) : Prop :=
  NoDup (JsMap.keys m)
  /\ forall k v, In (k, v) m -> k = changeKey v /\ goodTokenChange v.


(** The body of the loop that builds [preMap] and [postMap]. *)
Definition balanceStep (m : JsMap.t TokenBalance.t) (b : TokenBalance.t)
    : JsMap.t TokenBalance.t :=
  match balanceKey b with
  | Some (key, _, _) => JsMap.set m key b
  | None => m
  end.

(** [allLoadedAddresses] of [parseSOLBalanceChanges]. *)
Definition loadedAddressesOf (meta : Meta.t) : list string :=
  match Meta.loadedAddresses meta with
  | Some l =>
      (orEmpty (LoadedAddresses.writable l) ++ orEmpty (LoadedAddresses.readonly l))%list
  | None => []
  end.

(** [signerEndIndex] of [parseSOLBalanceChanges]. *)
Definition signerEndIndexOf (message : Message.t) : nat :=
  match Message.header message with
  | Some h => orZeroNat (Header.numRequiredSignatures h)
  | None => O
  end.

(** A mint that the parser does not treat as the native asset. *)
Definition nonNativeMint (mint : string) : Prop :=
  mint <> SOL_MINT /\ mint <> "SOL".

(** A trade whose type agrees with the side that holds the native mint and
    whose two amounts are strictly positive. *)
Definition consistentTrade (t : Trade.t) : Prop :=
  Trade.type t
  = inferTradeType (TokenRef.mint (Trade.soldToken t))
      (TokenRef.mint (Trade.boughtToken t))
  /\ isPositive (TokenRef.amount (Trade.soldToken t)) = true
  /\ isPositive (TokenRef.amount (Trade.boughtToken t)) = true.

(** A trade of the native asset against one other token. *)
Definition nativeAgainstToken (t : Trade.t) : Prop :=
  (Trade.type t = Buy
   /\ TokenRef.mint (Trade.soldToken t) = SOL_MINT
   /\ nonNativeMint (TokenRef.mint (Trade.boughtToken t)))
  \/ (Trade.type t = Sell
      /\ TokenRef.mint (Trade.boughtToken t) = SOL_MINT
      /\ nonNativeMint (TokenRef.mint (Trade.soldToken t))).

(** An element of the array handed to
    [parseMultipleTradeInfoFromTransactions]: [signature] and
    [firstSignature] stand for [txData.signature] and
    [txData.transaction?.signatures?.[0]], [data] for the remaining
    properties. *)
Module PrefetchedTx.
Record t : Type := mk {
  signature : option string;
  firstSignature : option string;
  data : Transaction.t
}.
End PrefetchedTx.

(** The body of the [forEach] of [parseMultipleTradeInfoFromTransactions]. *)
Definition prefetchedStep (results : JsMap.t TradeInfo.t) (txData : PrefetchedTx.t)
    : JsMap.t TradeInfo.t :=
  let signature :=
    orOpt (PrefetchedTx.signature txData) (PrefetchedTx.firstSignature txData) in
  match signature with
  | None => results
  | Some sig =>
      if negb (JsString.truthy sig) then results
      else
        match Transaction.transaction (PrefetchedTx.data txData),
              Transaction.meta (PrefetchedTx.data txData) with
        | Some _, Some _ =>
            record results sig
              (catchNull
                 (parseTradeFromTransactionSync sig (Some (PrefetchedTx.data txData))))
        | _, _ => results
        end
  end.

(** [parseMultipleTradeInfoFromTransactions(transactions)]. *)
Definition parseMultipleTradeInfoFromTransactions
    (transactions : option (list PrefetchedTx.t)) : JsMap.t TradeInfo.t :=
  match transactions with
  | None => JsMap.empty
  | Some txs => fold_left prefetchedStep txs JsMap.empty
  end.

(** The elements built from signatures paired with their transactions. *)
Definition prefetched (pairs : list (string * Transaction.t)) : list PrefetchedTx.t :=
  List.map (fun p => PrefetchedTx.mk (Some (fst p)) None (snd p)) pairs.

(** The significant token changes whose owner signed the transaction, as
    [parseGenericTransaction] computes them for its token-to-token check. *)
Definition signerTokenChangesOf (tokenChanges : list TokenChange.t)
    (solChanges : list SolChange.t) : list TokenChange.t :=
  filter
    (fun change =>
       includesStr (List.map SolChange.account (filter SolChange.isSigner solChanges))
         (TokenChange.owner change))
    (filter isSignificantToken tokenChanges).

(** The loop of [parseMultipleTrades]; the pause between two signatures
    leaves the state alone. *)
Fixpoint parseEach (env : Env) (signatures : list string) (options : Options)
    (results : list loc) (w : World) : list loc * World :=
  match signatures with
  | [] => (results, w)
  | signature :: rest =>
      let '(tradeInfo, w1) := parseTrade env signature options w in
      parseEach env rest options
        (match tradeInfo with
         | Some l => (results ++ [l])%list
         | None => results
         end)
        w1
  end.

(** [parseMultipleTrades(signatures, options)]: references to the outcomes,
    in the order of the signatures. *)
Definition parseMultipleTrades (env : Env) (signatures : list string)
    (options : Options) (w : World) : list loc * World :=
  parseEach env signatures options [] w.

(** The outside calls of one [parseTrade] that misses the cache. *)
Definition callsFor (options : Options) (signature : string) : list Event :=
  ((if useJupiterAPI options then [JupiterLookup signature] else [])
   ++ [FetchOne signature])%list.

(* ================================================================== *)
(** ** The address filter *)
(* ================================================================== *)

Module AddressFilter.

Definition dexProgramIds : list string :=
  [ "675kPX9MHTjS2zt1qfr1NYHuzeLXfQM9H24wFSUt1Mp8";
    "27haf8L6oxUeXrHrgEgsexjSY5hbVUWEmvv9Nyxg8vQv";
    "CAMMCzo5YL8w4VFF8KVHrK22GGUsp5VTaW7grrKgrWqK";
    "5quBtoiQqxF9Jv6KYKctB59NT3gtJD2Y65kdnB1Uev3h";
    "5Q544fKrFoe6tsEbD7S8EmxGTJYAKtTVhAW5Q5pge4j1";
    "whirLbMiicVdio4qvUfM5KAg6Ct8VwpYzGff3uctyCc";
    "9W959DqEETiGZocYWCQPaJ6sBmUzgfxXfqGeTEdp3aQP";
    "DjVE6JNiYqPL2QXyCUUh8rNjHrbz9hXHNYt99MQ59qw1";
    "JUP6LkbZbjS1jKKwapdHNy74zcZ3tLUZoi5QNyVTaV4";
    "JUP4Fb2cqiRUcaTd8t5VhYu6oV5E2hbN8FdY3YbwPEsu";
    "9xQeWvG816bUx9EPjHmaT23yvVM2ZWbrrpZb9PusVFin";
    "EUqojwWA2rd19FZrzeB2J6YvWEbN5JqF7VKqJqJqJqJq";
    "GpMZbSM2GgvTKHJirzeGfMFoaZ8UR2X7F4v8vHTvxFbL";
    "HLnpSz9h2S4hiLQ43rnSD9XkcUThA7B8hQMKmDaiTLcC" ].

Definition knownLiquidityPoolAddresses : list string :=
  [ "GpMZbSM2GgvTKHJirzeGfMFoaZ8UR2X7F4v8vHTvxFbL";
    "HLnpSz9h2S4hiLQ43rnSD9XkcUThA7B8hQMKmDaiTLcC" ].

Definition cexAddresses : list string := [].

(** [isKnownCEXAddress(address)]. *)
Definition isKnownCEXAddress (address : string) : bool :=
  includesStr cexAddresses address.

(** [isDEXProgramAddress(address)]. *)
Definition isDEXProgramAddress (address : string) : bool :=
  includesStr dexProgramIds address.

(** [isKnownLiquidityPoolAddress(address)]. *)
Definition isKnownLiquidityPoolAddress (address : string) : bool :=
  includesStr knownLiquidityPoolAddresses address.

(** The answer to one [getAccountInfo]: the call rejects or runs into the
    ten-second limit, there is no such account, or the account and its
    owner. *)
Inductive Lookup : Type :=
| Failed
| Missing
| OwnedBy (owner : string).

(** The chain as the filter sees it: whether [new PublicKey(address)]
    accepts the address, and the answer to the [attempt]-th lookup of an
    address. *)
Record Chain : Type := mkChain {
  validKey : string -> bool;
  getAccountInfo : string -> nat -> Lookup
}.

(** The retry loop, from [attempt] on with [remaining] attempts left; the
    number of lookups made comes with the answer. *)
Fixpoint fetchAccountInfo (chain : Chain) (address : string)
    (attempt remaining : nat) : Lookup * nat :=
  match remaining with
  | O => (Failed, attempt)
  | S remaining' =>
      match getAccountInfo chain address attempt with
      | Failed => fetchAccountInfo chain address (S attempt) remaining'
      | reply => (reply, S attempt)
      end
  end.

(** [isLiquidityPoolAddress(address, connection)], with the number of
    lookups it has made. *)
Definition isLiquidityPoolAddress (chain : Chain) (address : string)
    : bool * nat :=
  if isKnownCEXAddress address then (true, O)
  else if isKnownLiquidityPoolAddress address then (true, O)
  else if isDEXProgramAddress address then (true, O)
  else if negb (validKey chain address) then (false, O)
  else
    let '(accountInfo, lookups) := fetchAccountInfo chain address 0 3 in
    match accountInfo with
    | OwnedBy owner =>
        (isDEXProgramAddress owner || isKnownLiquidityPoolAddress owner, lookups)
    | _ => (false, lookups)
    end.

(** The address is on one of the three lists. *)
Definition listed (address : string) : bool :=
  isKnownCEXAddress address || isKnownLiquidityPoolAddress address
  || isDEXProgramAddress address.

End AddressFilter.

(** Every entry of the cache refers to an object of the heap, and that
    object carries the signature it is filed under, or none. *)
Definition cacheConsistent (w : World) : Prop :=
  forall (k : string) (it : SimpleCache.item loc),
    In (k, it) (SimpleCache.cache (cache w)) ->
    exists t,
      nth_error (heap w) (SimpleCache.value it) = Some t
      /\ (Trade.signature t = None \/ Trade.signature t = Some k).




(** The test of [analyzeSOLTokenTrade] for [userTokenChanges]: an increase
    whose owner spent native asset or signed, or a decrease whose owner
    received native asset or signed; spending, receiving and signing are
    read off the significant native changes. *)
Definition attributedToUser (significantSolChanges : list SolChange.t)
    (change : TokenChange.t) : bool :=
  let solSpentAccounts :=
    List.map SolChange.account
      (filter (fun c => isNegative (SolChange.change c)) significantSolChanges) in
  let solReceivedAccounts :=
    List.map SolChange.account
      (filter (fun c => isPositive (SolChange.change c)) significantSolChanges) in
  let signerAccounts :=
    List.map SolChange.account
      (filter SolChange.isSigner significantSolChanges) in
  if (isPositive (TokenChange.change change)
      && (includesStr solSpentAccounts (TokenChange.owner change)
          || includesStr signerAccounts (TokenChange.owner change)))%bool
  then true
  else if (isNegative (TokenChange.change change)
           && (includesStr solReceivedAccounts (TokenChange.owner change)
               || includesStr signerAccounts (TokenChange.owner change)))%bool
  then true
  else false.

(** One round of the loop that fills [tokenChangeMap]. *)
Definition tokenTotalStep (m : JsMap.t TokenTotal.t) (change : TokenChange.t)
    : JsMap.t TokenTotal.t :=
  let key := TokenChange.mint change in
  let m1 :=
    if negb (JsMap.has m key)
    then JsMap.set m key
           (TokenTotal.mk (TokenChange.mint change)
              (TokenChange.decimals change) (Fin 0))
    else m in
  match JsMap.get m1 key with
  | Some e =>
      JsMap.set m1 key
        (TokenTotal.mk (TokenTotal.mint e) (TokenTotal.decimals e)
           (JsNum.add (TokenTotal.totalChange e) (TokenChange.change change)))
  | None => m1
  end.

(** A number that is not above zero: a finite one, or minus infinity. *)
Definition notAboveZero (x : jsnum) : Prop :=
  match x with
  | Fin q => (q <= 0)%Q
  | NInf => True
  | PInf | NaN => False
  end.

(** Entries of [tokenChangeMap] for mints other than [mint], none with a
    total above zero. *)
Definition onlyOtherMints (mint : string) (m : JsMap.t TokenTotal.t) : Prop :=
  forall k e, In (k, e) m ->
              k <> mint /\ notAboveZero (TokenTotal.totalChange e).

(* ================================================================== *)
(** ** More sample inputs *)
(* ================================================================== *)

(** Inputs at which the properties below are exercised. *)
Module Cases.

(** A sale whose proceeds go to an account without an address. *)
Definition unnamedReceiverTokens : list TokenChange.t :=
  [ TokenChange.mk Sample.mintM "" (Fin 5) (Fin 0) (Fin (-5)) 6 ].

Definition unnamedReceiverSol : list SolChange.t :=
  [ SolChange.mk "" (Fin 1) (Fin 2) (Fin 1) false false ].

(** Nothing can be fetched and the quote service has no answer. *)
Definition deadEnv : Env :=
  mkEnv (fun _ => None) (fun _ => None) (fun _ => None) (fun _ => 0).

(** A parser whose cache holds one entry, written at time 0, for an object
    that sits at location 0. *)
Definition warmWorld : World :=
  mkWorld [Trade.make Buy (TokenRef.mk SOL_MINT "SOL" (Fin 1) 9)
             (TokenRef.mk Sample.mintM "Token" (Fin 2) 6)
             (Some (Fin (1 # 2))) (Some "Wallet") None None None]
    (SimpleCache.set 0 "sig" O (SimpleCache.create 500 3600000)) [] 1.

(** The bulk fetch answers every signature with [Sample.plainBuy]. *)
Definition bulkEnv : Env :=
  mkEnv (fun _ => None)
    (fun batch => Some (List.map (fun _ => Some Sample.plainBuy) batch))
    (fun _ => None) (fun _ => 0).

(** Fifty-one signatures. *)
Definition manySignatures : list string := List.repeat "sig" 51.

(** A reply of the quote service that lacks [inputAmount]. *)
Definition quoteWithoutInputAmount : JupiterData.t :=
  JupiterData.mk (Some SOL_MINT) (Some Sample.mintM)
    None (Some (3000000 # 1)) (Some 9) (Some 6)
    (Some "SOL") None (Some (Fin (3 # 2))) None.

(** The deltas of [Sample.plainBuy], with a log that names Meteora. *)
Definition meteoraBuy : Transaction.t :=
  Sample.tx ["Wallet"; "Pool"] 1 []
    ["Program log: Meteora swap"]
    (Some [10000000000; 0]) (Some [8500000000; 0])
    (Some []) (Some [Sample.balance "Wallet" Sample.mintM 1000000]).

(** The deltas of [Sample.plainBuy], with a log that names a sell
    instruction and a pAMM pool, and nothing of the Pump.fun program. *)
Definition keywordOnlyPumpFun : Transaction.t :=
  Sample.tx ["Wallet"; "Pool"] 1 []
    ["Program log: Instruction: Sell"; "Program log: pAMM pool"]
    (Some [10000000000; 0]) (Some [8500000000; 0])
    (Some []) (Some [Sample.balance "Wallet" Sample.mintM 1000000]).

(** The wallet hands in a million tokens and receives 1.5 SOL. *)
Definition plainSell : Transaction.t :=
  Sample.tx ["Wallet"; "Pool"] 1 [] []
    (Some [8500000000; 0]) (Some [10000000000; 0])
    (Some [Sample.balance "Wallet" Sample.mintM 1000000]) (Some []).

Definition plainSellSol : list SolChange.t :=
  Eval vm_compute in
    match parseSOLBalanceChanges plainSell with
    | Ok changes => changes
    | Throw _ => []
    end.

Definition plainSellTokens : list TokenChange.t :=
  Eval vm_compute in parseTokenBalanceChanges (Transaction.meta plainSell).

Definition mintN : string := "MintN111111111111111111111111111111111111111".

(** The wallet hands in three tokens of one mint and receives five of
    another, and pays a fee in SOL. *)
Definition tokenSwap : Transaction.t :=
  Sample.tx ["Wallet"; "Pool"] 1 [] []
    (Some [10000000000; 0]) (Some [9990000000; 0])
    (Some [Sample.balance "Wallet" Sample.mintM 3])
    (Some [Sample.balance "Wallet" Sample.mintM 0;
           Sample.balance "Wallet" mintN 5]).

Definition tokenSwapSol : list SolChange.t :=
  Eval vm_compute in
    match parseSOLBalanceChanges tokenSwap with
    | Ok changes => changes
    | Throw _ => []
    end.

(** The deltas of [plainSell], in a Pump.fun transaction whose log names a
    buy instruction. *)
Definition pumpBuyLoggedSell : Transaction.t :=
  Sample.tx ["Wallet"; "Pool"] 1 []
    ["Program pAMMBay6oceH9fJKBRHGP5D4bD4sWpmSwMn52FMfXEA invoke [1]";
     "Program log: Instruction: Buy"]
    (Some [8500000000; 0]) (Some [10000000000; 0])
    (Some [Sample.balance "Wallet" Sample.mintM 1000000]) (Some []).

(** A transaction routed through Jupiter whose inner instructions reach the
    Pump.fun program. *)
Definition routedPumpFun : Transaction.t :=
  Transaction.mk
    (Some (TxData.mk
             (Some (Message.mk
                      (Some (Header.mk (Some 1%nat) (Some O)))
                      (Some [AccountKey.Str "Wallet"; AccountKey.Str "Pool"])
                      (Some [Instruction.mk
                               (Some "JUP6LkbZbjS1jKKwapdHNy74zcZ3tLUZoi5QNyVTaV4")
                               None None])))))
    (Some (Meta.mk
             (Some [Inner.mk
                      (Some [Instruction.mk (Some PUMP_FUN_PROGRAM_ID) None None])])
             (Some []) (Some [10000000000; 0]) (Some [8500000000; 0])
             (Some []) (Some [Sample.balance "Wallet" Sample.mintM 1000000]) None))
    (Some 1700000000) (Some 250000000).

(** A cache of two entries that is full: [a] was written first. *)
Definition fullCache : SimpleCache.t nat :=
  SimpleCache.set 2 "b" 20%nat
    (SimpleCache.set 1 "a" 10%nat (SimpleCache.create 2 100)).

(** A wallet whose token balance is the same before and after. *)
Definition idleMeta : Meta.t :=
  Meta.mk (Some []) (Some []) (Some [5000]) (Some [5000])
    (Some [Sample.balance "Wallet" Sample.mintM 5])
    (Some [Sample.balance "Wallet" Sample.mintM 5]) None.


(** The wallet pays two SOL to a vault and receives three tokens from a
    token account of the pool authority, which neither signs nor receives
    native asset. *)
Definition counterpartyBuy : Transaction.t :=
  Sample.tx ["Wallet"; "Vault"] 1 [] []
    (Some [10000000000; 0]) (Some [8000000000; 2000000000])
    (Some [Sample.balance "PoolAuth" Sample.mintM 3])
    (Some [Sample.balance "Wallet" Sample.mintM 3;
           Sample.balance "PoolAuth" Sample.mintM 0]).

Definition counterpartyBuySol : list SolChange.t :=
  Eval vm_compute in
    match parseSOLBalanceChanges counterpartyBuy with
    | Ok changes => changes
    | Throw _ => []
    end.

Definition counterpartyBuyTokens : list TokenChange.t :=
  Eval vm_compute in parseTokenBalanceChanges (Transaction.meta counterpartyBuy).

(** The wallet pays two SOL and receives three tokens, while a second
    signer pays half a SOL. *)
Definition sponsoredBuy : Transaction.t :=
  Sample.tx ["Wallet"; "Payer"; "Vault"] 2 [] []
    (Some [10000000000; 1000000000; 0])
    (Some [8000000000; 500000000; 2500000000])
    (Some []) (Some [Sample.balance "Wallet" Sample.mintM 3]).

End Cases.

(* ================================================================== *)
(** * Properties *)
(* ================================================================== *)

(** ** The cache *)

Section MapFacts.

Context {V : Type}.

Lemma keys_set_fresh (m : JsMap.t V) (k : string) (v : V) :
  ~ In k (JsMap.keys m) ->
  JsMap.keys (JsMap.set m k v) = (JsMap.keys m ++ [k])%list.
Proof.
  induction m as [|[k' v'] m IH]; simpl; intro Hk.
  - reflexivity.
  - destruct (String.eqb_spec k k') as [->|Hne].
    + exfalso. apply Hk. now left.
    + simpl. f_equal. apply IH. intro Hin. apply Hk. now right.
Qed.

Lemma delete_head (m : JsMap.t V) (k : string) (v : V) :
  JsMap.delete ((k, v) :: m) k = m.
Proof. simpl. now rewrite String.eqb_refl. Qed.

End MapFacts.

Lemma In_set {V} (m : JsMap.t V) (k : string) (v : V) (k' : string) (v' : V) :
  In (k', v') (JsMap.set m k v) -> (k', v') = (k, v) \/ In (k', v') m.
Proof.
  induction m as [|[k0 v0] m IH]; simpl.
  - intros [E|[]]. left. now symmetry.
  - destruct (String.eqb_spec k k0) as [->|Hne]; simpl.
    + intros [E|H]; [left; now symmetry | right; now right].
    + intros [E|H]; [right; now left|].
      destruct (IH H) as [E|H']; [now left | right; now right].
Qed.

Lemma get_In_same {V} (m : JsMap.t V) (k : string) (v : V) :
  JsMap.get m k = Some v -> In (k, v) m.
Proof.
  induction m as [|[k0 v0] m IH]; simpl; [discriminate|].
  destruct (String.eqb_spec k k0) as [->|Hne].
  - intro E. injection E as <-. now left.
  - intro H. right. now apply IH.
Qed.

Lemma includesStr_In (xs : list string) (x : string) :
  In x xs -> includesStr xs x = true.
Proof.
  intro H. unfold includesStr. apply existsb_exists. exists x.
  split; [exact H | apply String.eqb_refl].
Qed.

Section CacheFacts.

Context {V : Type}.

(** What [set] does to a cache that has reached its capacity: the head of
    the map goes, whatever the key that is being written. *)
Lemma set_full (c : SimpleCache.t V) (now : Z) (k : string) (v : V)
    (k0 : string) (it0 : SimpleCache.item V) (rest : JsMap.t (SimpleCache.item V)) :
  SimpleCache.cache c = (k0, it0) :: rest ->
  (SimpleCache.maxSize c <= JsMap.size (SimpleCache.cache c))%nat ->
  SimpleCache.cache (SimpleCache.set now k v c)
  = JsMap.set rest k (SimpleCache.mkItem v now).
Proof.
  intros Hc Hfull. unfold SimpleCache.set.
  apply Nat.leb_le in Hfull. rewrite Hfull, Hc. simpl.
  now rewrite String.eqb_refl.
Qed.

Lemma set_room (c : SimpleCache.t V) (now : Z) (k : string) (v : V) :
  (JsMap.size (SimpleCache.cache c) < SimpleCache.maxSize c)%nat ->
  SimpleCache.cache (SimpleCache.set now k v c)
  = JsMap.set (SimpleCache.cache c) k (SimpleCache.mkItem v now).
Proof.
  intros Hroom. unfold SimpleCache.set.
  apply Nat.leb_gt in Hroom. now rewrite Hroom.
Qed.

Lemma maxSize_set (c : SimpleCache.t V) now k v :
  SimpleCache.maxSize (SimpleCache.set now k v c) = SimpleCache.maxSize c.
Proof. reflexivity. Qed.

(** After any run of insertions of fresh, pairwise distinct keys the cache
    holds the most recent keys, as many as its capacity allows. *)
Lemma keys_setAll (ops : list (Z * string * V)) :
  forall c : SimpleCache.t V,
    (1 <= SimpleCache.maxSize c)%nat ->
    (JsMap.size (SimpleCache.cache c) <= SimpleCache.maxSize c)%nat ->
    NoDup (JsMap.keys (SimpleCache.cache c) ++ List.map SimpleCache.opKey ops) ->
    JsMap.keys (SimpleCache.cache (SimpleCache.setAll ops c))
    = skipn (JsMap.size (SimpleCache.cache c) + List.length ops
             - SimpleCache.maxSize c)
        (JsMap.keys (SimpleCache.cache c) ++ List.map SimpleCache.opKey ops).
Proof.
  induction ops as [|[[now k] v] ops IH]; intros c Hcap Hsize Hnd.
  - simpl. rewrite Nat.add_0_r, app_nil_r.
    replace (JsMap.size (SimpleCache.cache c) - SimpleCache.maxSize c)%nat
      with O by lia.
    reflexivity.
  - simpl List.map in *. unfold SimpleCache.opKey at 1 in Hnd. simpl in Hnd.
    unfold SimpleCache.opKey at 2. simpl snd. simpl SimpleCache.setAll.
    assert (Hfresh : ~ In k (JsMap.keys (SimpleCache.cache c))).
    { intro Hin. apply NoDup_remove_2 in Hnd. apply Hnd.
      apply in_or_app. now left. }
    destruct (Nat.le_gt_cases (SimpleCache.maxSize c)
                (JsMap.size (SimpleCache.cache c))) as [Hfull|Hroom].
    + (* full: the head is dropped *)
      assert (Heq : JsMap.size (SimpleCache.cache c) = SimpleCache.maxSize c)
        by lia.
      destruct (SimpleCache.cache c) as [|[k0 it0] rest] eqn:Hc.
      { simpl in Heq. lia. }
      pose proof (set_full c now k v k0 it0 rest Hc) as Hset.
      rewrite Hc in Hset. specialize (Hset Hfull).
      assert (Hfresh' : ~ In k (JsMap.keys rest)).
      { intro Hin. apply Hfresh. simpl. now right. }
      assert (Hkeys : JsMap.keys (SimpleCache.cache (SimpleCache.set now k v c))
                      = (JsMap.keys rest ++ [k])%list).
      { rewrite Hset. now apply keys_set_fresh. }
      assert (Hlen : JsMap.size (SimpleCache.cache (SimpleCache.set now k v c))
                     = SimpleCache.maxSize c).
      { unfold JsMap.size in *. rewrite <- (length_map fst).
        fold (JsMap.keys (SimpleCache.cache (SimpleCache.set now k v c))).
        rewrite Hkeys, length_app. unfold JsMap.keys. rewrite length_map.
        simpl in *. lia. }
      rewrite IH.
      * rewrite Hlen, Hkeys, maxSize_set, <- app_assoc.
        replace (SimpleCache.maxSize c + List.length ops - SimpleCache.maxSize c)%nat
          with (List.length ops) by lia.
        replace (JsMap.size ((k0, it0) :: rest) + List.length ((now, k, v) :: ops)
                 - SimpleCache.maxSize c)%nat
          with (S (List.length ops)) by (simpl List.length; lia).
        reflexivity.
      * now rewrite maxSize_set.
      * rewrite Hlen, maxSize_set. lia.
      * rewrite Hkeys, <- app_assoc. simpl.
        simpl in Hnd. now inversion Hnd.
    + (* room left: the key is appended *)
      pose proof (set_room c now k v Hroom) as Hset.
      assert (Hkeys : JsMap.keys (SimpleCache.cache (SimpleCache.set now k v c))
                      = (JsMap.keys (SimpleCache.cache c) ++ [k])%list).
      { rewrite Hset. now apply keys_set_fresh. }
      assert (Hlen : JsMap.size (SimpleCache.cache (SimpleCache.set now k v c))
                     = S (JsMap.size (SimpleCache.cache c))).
      { unfold JsMap.size. rewrite <- (length_map fst).
        fold (JsMap.keys (SimpleCache.cache (SimpleCache.set now k v c))).
        rewrite Hkeys, length_app. unfold JsMap.keys. rewrite length_map.
        simpl. lia. }
      rewrite IH.
      * rewrite Hlen, Hkeys, maxSize_set, <- app_assoc.
        replace (S (JsMap.size (SimpleCache.cache c)) + List.length ops
                 - SimpleCache.maxSize c)%nat
          with (JsMap.size (SimpleCache.cache c) + List.length ((now, k, v) :: ops)
                - SimpleCache.maxSize c)%nat
          by (simpl List.length; lia).
        reflexivity.
      * now rewrite maxSize_set.
      * rewrite Hlen, maxSize_set. lia.
      * rewrite Hkeys, <- app_assoc. exact Hnd.
Qed.

End CacheFacts.

(** C8.  A cache of capacity [N >= 1] that receives [N + 1] distinct
    signatures, starting empty, ends with exactly [N] entries: all the
    signatures but the first one, in insertion order.  More generally a [set]
    on a cache that has reached its capacity removes the entry at the head of
    the map, which is the oldest one, and nothing else. *)
Theorem cache_evicts_oldest_inserted :
  forall (V : Type) (N : nat) (ttl : Z) (ops : list (Z * string * V)),
    (1 <= N)%nat ->
    List.length ops = S N ->
    NoDup (List.map SimpleCache.opKey ops) ->
    let final := SimpleCache.setAll ops (SimpleCache.create N ttl) in
    (JsMap.size (SimpleCache.cache final) = N
     /\ JsMap.keys (SimpleCache.cache final) = tl (List.map SimpleCache.opKey ops)
     /\ ~ In (hd "" (List.map SimpleCache.opKey ops)) (JsMap.keys (SimpleCache.cache final)))
    /\ (forall (c : SimpleCache.t V) now k v k0 it0 rest,
          SimpleCache.cache c = (k0, it0) :: rest ->
          (SimpleCache.maxSize c <= JsMap.size (SimpleCache.cache c))%nat ->
          SimpleCache.cache (SimpleCache.set now k v c)
          = JsMap.set rest k (SimpleCache.mkItem v now)).
Proof.
  intros V N ttl ops HN Hlen Hnd final.
  assert (Hkeys : JsMap.keys (SimpleCache.cache final) = tl (List.map SimpleCache.opKey ops)).
  { unfold final. rewrite keys_setAll; simpl; try lia; try assumption.
    rewrite Hlen. replace (S N - N)%nat with 1%nat by lia.
    destruct (List.map SimpleCache.opKey ops); reflexivity. }
  split; [split; [|split]|].
  - unfold JsMap.size. rewrite <- (length_map fst).
    fold (JsMap.keys (SimpleCache.cache final)). rewrite Hkeys.
    destruct ops as [|op ops]; simpl in *; [lia|].
    rewrite length_map. lia.
  - exact Hkeys.
  - rewrite Hkeys. destruct (List.map SimpleCache.opKey ops) as [|k ks]; simpl.
    + intros [].
    + now inversion Hnd.
  - intros c now k v k0 it0 rest Hc Hfull.
    exact (set_full c now k v k0 it0 rest Hc Hfull).
Qed.

Lemma cache_evicts_oldest_inserted_witness :
  let ops := [(10, "sigA", 1%nat); (20, "sigB", 2%nat); (30, "sigC", 3%nat)] in
  let final := SimpleCache.setAll ops (SimpleCache.create 2 3600000) in
  JsMap.size (SimpleCache.cache final) = 2%nat
  /\ JsMap.keys (SimpleCache.cache final) = ["sigB"; "sigC"].
Proof.
  intros ops final.
  assert (Hnd : NoDup (List.map SimpleCache.opKey ops)).
  { unfold ops, SimpleCache.opKey. simpl.
    repeat constructor; simpl; intuition discriminate. }
  destruct (cache_evicts_oldest_inserted nat 2 3600000 ops
              (le_S 1 1 (le_n 1)) eq_refl Hnd) as [[H1 [H2 _]] _].
  split; [exact H1 | exact H2].
Defined.

(** ** Numbers *)

Section NumFacts.

Local Open Scope Q_scope.

Lemma Qltb_lt (a b : Q) : JsNum.Qltb a b = true <-> a < b.
Proof.
  unfold JsNum.Qltb. rewrite negb_true_iff.
  split; intro H.
  - apply Qnot_le_lt. intro Hle. apply Qle_bool_iff in Hle. congruence.
  - destruct (Qle_bool b a) eqn:E; [|reflexivity].
    apply Qle_bool_iff in E. exfalso. exact (Qlt_not_le _ _ H E).
Qed.

Lemma Qltb_ge (a b : Q) : JsNum.Qltb a b = false <-> b <= a.
Proof.
  unfold JsNum.Qltb. rewrite negb_false_iff. apply Qle_bool_iff.
Qed.

Lemma Qeq_bool_false (a b : Q) : Qeq_bool a b = false <-> ~ a == b.
Proof.
  split; intro H.
  - intro E. apply Qeq_bool_iff in E. congruence.
  - destruct (Qeq_bool a b) eqn:E; [|reflexivity].
    apply Qeq_bool_iff in E. contradiction.
Qed.

Lemma isPositive_Fin (q : Q) : isPositive (Fin q) = true <-> 0 < q.
Proof. unfold isPositive, JsNum.gtb. simpl. apply Qltb_lt. Qed.

Lemma isNegative_Fin (q : Q) : isNegative (Fin q) = true <-> q < 0.
Proof. unfold isNegative. simpl. apply Qltb_lt. Qed.

Lemma same_refl (a : jsnum) : JsNum.same a a.
Proof. destruct a; simpl; auto. reflexivity. Qed.

End NumFacts.

(** ** The balance-change extractors *)

Section ExtractorFacts.

Variables (message : Message.t) (allAccountKeys : list AccountKey.t)
          (allLoadedAddresses : list string) (signerEndIndex : nat)
          (preBalances : list Z).

Let loop := solLoop message allAccountKeys allLoadedAddresses signerEndIndex preBalances.
Let entry := solEntry message allAccountKeys allLoadedAddresses signerEndIndex.

(** The loop emits a record for a position exactly when the balance at that
    position is not the same before and after. *)
Lemma solLoop_spec (postBalances : list Z) :
  forall (start i : nat) (e : SolChange.t),
    In (i, e) (loop start postBalances)
    <-> (start <= i)%nat
        /\ exists p,
             nth_error postBalances (i - start) = Some p
             /\ balanceDiffers (nth_error preBalances i) p = true
             /\ e = entry i (nth_error preBalances i) p.
Proof.
  subst loop entry.
  induction postBalances as [|q rest IH]; intros start i e; simpl.
  - split; [intros []|]. intros [_ [p [H _]]].
    destruct (i - start)%nat; discriminate.
  - destruct (balanceDiffers (nth_error preBalances start) q) eqn:D.
    + simpl. rewrite IH. split.
      * intros [Heq | [Hle [p [Hn [Hd He]]]]].
        -- inversion Heq; subst. split; [lia|]. exists q.
           rewrite Nat.sub_diag. simpl. auto.
        -- split; [lia|]. exists p.
           replace (i - start)%nat with (S (i - S start)) by lia. simpl. auto.
      * intros [Hle [p [Hn [Hd He]]]].
        destruct (Nat.eq_dec i start) as [->|Hne].
        -- left. rewrite Nat.sub_diag in Hn. simpl in Hn.
           inversion Hn; subst. reflexivity.
        -- right. split; [lia|]. exists p.
           replace (i - start)%nat with (S (i - S start)) in Hn by lia.
           simpl in Hn. auto.
    + rewrite IH. split.
      * intros [Hle [p [Hn [Hd He]]]]. split; [lia|]. exists p.
        replace (i - start)%nat with (S (i - S start)) by lia. simpl. auto.
      * intros [Hle [p [Hn [Hd He]]]].
        destruct (Nat.eq_dec i start) as [->|Hne].
        -- rewrite Nat.sub_diag in Hn. simpl in Hn.
           inversion Hn; subst. congruence.
        -- split; [lia|]. exists p.
           replace (i - start)%nat with (S (i - S start)) in Hn by lia.
           simpl in Hn. auto.
Qed.

End ExtractorFacts.

Lemma balanceDiffers_spec (pre : option Z) (post : Z) :
  balanceDiffers pre post = true <-> pre <> Some post.
Proof.
  destruct pre as [z|]; simpl.
  - rewrite negb_true_iff, Z.eqb_neq. split; congruence.
  - split; [discriminate | reflexivity].
Qed.

(** The extractor on a record that has all the parts it reads. *)
Lemma parseSOLBalanceChangesIndexed_loop
    (tx : Transaction.t) (td : TxData.t) (message : Message.t) (meta : Meta.t)
    (pre post : list Z) :
  Transaction.transaction tx = Some td ->
  TxData.message td = Some message ->
  Transaction.meta tx = Some meta ->
  Meta.preBalances meta = Some pre ->
  Meta.postBalances meta = Some post ->
  exists allAccountKeys allLoadedAddresses signerEndIndex,
    parseSOLBalanceChangesIndexed tx
    = Ok (solLoop message allAccountKeys allLoadedAddresses signerEndIndex
            pre O post).
Proof.
  intros Htd Hmsg Hmeta Hpre Hpost.
  unfold parseSOLBalanceChangesIndexed.
  rewrite Htd. cbn [rbind mustBeDefined].
  rewrite Hmeta, Hpost, Hmsg. cbn [rbind mustBeDefined].
  rewrite Hpre.
  do 3 eexists. destruct post; reflexivity.
Qed.

(** C5, as amended.  The native extractor applies no dust threshold: it emits
    a record for a position exactly when the post-balance at that position is
    not identical to the pre-balance, whatever the size of the difference. *)
Theorem sol_extractor_emits_every_changed_position :
  forall (tx : Transaction.t) (meta : Meta.t) (pre post : list Z)
         (changes : list (nat * SolChange.t)),
    Transaction.meta tx = Some meta ->
    Meta.preBalances meta = Some pre ->
    Meta.postBalances meta = Some post ->
    parseSOLBalanceChangesIndexed tx = Ok changes ->
    forall i : nat,
      (exists e, In (i, e) changes)
      <-> (exists q, nth_error post i = Some q /\ nth_error pre i <> Some q).
Proof.
  intros tx meta pre post changes Hmeta Hpre Hpost Hrun i.
  destruct (Transaction.transaction tx) as [td|] eqn:Htd.
  2:{ unfold parseSOLBalanceChangesIndexed in Hrun. rewrite Htd in Hrun.
      discriminate. }
  destruct (TxData.message td) as [message|] eqn:Hmsg.
  2:{ unfold parseSOLBalanceChangesIndexed in Hrun.
      rewrite Htd in Hrun. cbn [rbind mustBeDefined] in Hrun.
      rewrite Hmeta, Hpost, Hmsg in Hrun.
      cbn [rbind mustBeDefined] in Hrun. discriminate. }
  destruct (parseSOLBalanceChangesIndexed_loop tx td message meta pre post
              Htd Hmsg Hmeta Hpre Hpost) as [ks [ls [n Hloop]]].
  rewrite Hloop in Hrun. injection Hrun as <-.
  split.
  - intros [e Hin]. apply solLoop_spec in Hin.
    destruct Hin as [_ [p [Hn [Hd _]]]]. rewrite Nat.sub_0_r in Hn.
    exists p. split; [exact Hn|]. now apply balanceDiffers_spec.
  - intros [q [Hn Hd]]. eexists. apply solLoop_spec.
    split; [lia|]. exists q. rewrite Nat.sub_0_r.
    split; [exact Hn|]. split; [now apply balanceDiffers_spec | reflexivity].
Qed.

Lemma sol_extractor_emits_every_changed_position_witness :
  (exists e, In (0%nat, e)
               [(0%nat,
                 SolChange.mk "Wallet"
                   (JsNum.div (JsNum.ofZ 1000000000) (Fin lamportsPerSol))
                   (JsNum.div (JsNum.ofZ 1000000001) (Fin lamportsPerSol))
                   (JsNum.div (JsNum.sub (JsNum.ofZ 1000000001) (JsNum.ofZ 1000000000))
                      (Fin lamportsPerSol))
                   true false)])
  <-> (exists q, nth_error [1000000001] 0 = Some q
                 /\ nth_error [1000000000] 0 <> Some q).
Proof.
  exact (sol_extractor_emits_every_changed_position Sample.oneLamport
           (Meta.mk (Some []) (Some []) (Some [1000000000]) (Some [1000000001])
              None None None)
           [1000000000] [1000000001] _ eq_refl eq_refl eq_refl eq_refl 0%nat).
Defined.

(** C5, as stated, fails: a difference of one lamport is below 100,000, and
    the extractor still emits a record for the position. *)
Lemma sol_extractor_threshold_counterexample :
  ~ (forall (tx : Transaction.t) (meta : Meta.t) (pre post : list Z)
            (changes : list (nat * SolChange.t)) (i : nat) (e : SolChange.t)
            (p q : Z),
       Transaction.meta tx = Some meta ->
       Meta.preBalances meta = Some pre ->
       Meta.postBalances meta = Some post ->
       parseSOLBalanceChangesIndexed tx = Ok changes ->
       In (i, e) changes ->
       nth_error pre i = Some p ->
       nth_error post i = Some q ->
       100000 < Z.abs (q - p)).
Proof.
  intro H.
  specialize (H Sample.oneLamport _ [1000000000] [1000000001] _ 0%nat _
                1000000000 1000000001 eq_refl eq_refl eq_refl eq_refl
                (or_introl eq_refl) eq_refl eq_refl).
  simpl in H. lia.
Qed.

(** C6.  A record that carries [postBalances] and no [preBalances] makes the
    native extractor raise instead of returning an empty list. *)
Theorem sol_extractor_raises_without_preBalances :
  parseSOLBalanceChanges Sample.noPreBalances = Throw "TypeError".
Proof. reflexivity. Qed.

(** The token extractor, on the other hand, returns the empty list when the
    metadata or both of its token arrays are missing. *)
Lemma token_extractor_absent_arrays (meta : Meta.t) :
  parseTokenBalanceChanges None = []
  /\ (Meta.preTokenBalances meta = None ->
      Meta.postTokenBalances meta = None ->
      parseTokenBalanceChanges (Some meta) = []).
Proof.
  split; [reflexivity|]. intros Hpre Hpost.
  unfold parseTokenBalanceChanges. now rewrite Hpre, Hpost.
Qed.

(** The native extractor returns the empty list when [postBalances] is
    missing, provided the record has its [transaction] part. *)
Lemma sol_extractor_absent_postBalances (tx : Transaction.t) (td : TxData.t) :
  Transaction.transaction tx = Some td ->
  (Transaction.meta tx = None
   \/ exists meta, Transaction.meta tx = Some meta /\ Meta.postBalances meta = None) ->
  parseSOLBalanceChanges tx = Ok [].
Proof.
  intros Htd H. unfold parseSOLBalanceChanges, parseSOLBalanceChangesIndexed.
  rewrite Htd. simpl.
  destruct H as [-> | [meta [-> ->]]]; reflexivity.
Qed.

(** ** Prices *)

(** C2, as amended.  [calculatePrice] always returns a number, never
    [null].  On finite amounts the number is [0] when the sold amount is
    zero and the bought amount divided by the magnitude of the sold amount
    otherwise; it is never [NaN], it is zero when the bought amount is, and
    it is not negative when the bought amount is not. *)
Theorem calculatePrice_is_a_number_never_null :
  forall sold bought : ChangeItem.t,
    exists p : jsnum,
      calculatePrice sold bought = Some p
      /\ forall s b : Q,
           ChangeItem.amount sold = Fin s ->
           ChangeItem.amount bought = Fin b ->
           p <> NaN
           /\ (s == 0 -> p = Fin 0)%Q
           /\ (~ s == 0 -> p = JsNum.div (Fin b) (Fin (Qabs s)))%Q
           /\ (b == 0 -> JsNum.same p (Fin 0))%Q
           /\ (0 <= b -> isNegative p = false)%Q.
Proof.
  intros sold bought. unfold calculatePrice. cbv zeta.
  destruct (JsNum.eqb (JsNum.abs (ChangeItem.amount sold)) (Fin 0)) eqn:E0;
    eexists; (split; [reflexivity|]); intros s b Hs Hb;
    rewrite Hs in E0; cbn [JsNum.abs JsNum.eqb] in E0.
  - apply Qeq_bool_iff in E0.
    assert (Hs0 : (s == 0)%Q).
    { revert E0. apply Qabs_case; intros _ H0; [exact H0|].
      rewrite <- (Qopp_involutive s), H0. reflexivity. }
    split; [discriminate|]. split; [reflexivity|].
    split; [intro Hn; now elim Hn|].
    split; [intros _; cbn; reflexivity | intros _; reflexivity].
  - rewrite Hs, Hb. cbn [JsNum.abs JsNum.div]. rewrite E0.
    apply Qeq_bool_false in E0.
    assert (Hpos : (0 < Qabs s)%Q).
    { destruct (Qle_lt_or_eq 0%Q (Qabs s) (Qabs_nonneg s)) as [H|H]; auto.
      exfalso. apply E0. symmetry. exact H. }
    split; [discriminate|].
    split; [intro H0; exfalso; apply E0; rewrite H0; reflexivity|].
    split; [reflexivity|].
    split.
    + intro Hb0. cbn [JsNum.same]. rewrite Hb0. unfold Qdiv. ring.
    + intro Hb0. apply not_true_is_false. intro Hneg.
      apply isNegative_Fin in Hneg.
      apply (Qlt_not_le _ _ Hneg). apply Qle_shift_div_l; [exact Hpos|].
      rewrite Qmult_0_l. exact Hb0.
Qed.

Lemma calculatePrice_is_a_number_never_null_witness :
  exists p : jsnum,
    calculatePrice (ChangeItem.mk SolItem SOL_MINT (Fin (-(3 # 2))) 9)
                   (ChangeItem.mk TokenItem Sample.mintM (Fin 1000000) 6)
    = Some p
    /\ p <> NaN
    /\ p = JsNum.div (Fin 1000000) (Fin (Qabs (-(3 # 2))))
    /\ isNegative p = false.
Proof.
  destruct (calculatePrice_is_a_number_never_null
              (ChangeItem.mk SolItem SOL_MINT (Fin (-(3 # 2))) 9)
              (ChangeItem.mk TokenItem Sample.mintM (Fin 1000000) 6))
    as [p [Hrun Hfin]].
  destruct (Hfin (-(3 # 2))%Q 1000000%Q eq_refl eq_refl)
    as [Hnan [_ [Hdiv [_ Hsign]]]].
  exists p. split; [exact Hrun|]. split; [exact Hnan|].
  split; [apply Hdiv; discriminate | apply Hsign; discriminate].
Defined.

(** C2, as stated, fails: with a sold amount of zero the price is the number
    [0], not [null]. *)
Lemma calculatePrice_zero_sold_counterexample :
  calculatePrice (ChangeItem.mk SolItem SOL_MINT (Fin 0) 9)
                 (ChangeItem.mk TokenItem Sample.mintM (Fin 5) 6)
  = Some (Fin 0)
  /\ calculatePrice (ChangeItem.mk SolItem SOL_MINT (Fin 0) 9)
                    (ChangeItem.mk TokenItem Sample.mintM (Fin 5) 6)
     <> None.
Proof. split; [reflexivity | discriminate]. Qed.

(** ** The SOL-for-token analysis *)

Section BuyFacts.

Local Open Scope Q_scope.

Lemma tokenChangeMapOf_single (tc : TokenChange.t) :
  tokenChangeMapOf [tc]
  = [(TokenChange.mint tc,
      TokenTotal.mk (TokenChange.mint tc) (TokenChange.decimals tc)
        (JsNum.add (Fin 0) (TokenChange.change tc)))].
Proof.
  unfold tokenChangeMapOf. cbn [fold_left JsMap.empty JsMap.has JsMap.get negb JsMap.set].
  rewrite (String.eqb_refl (TokenChange.mint tc)). reflexivity.
Qed.

Lemma Qabs_opp_pos (x : Q) : 0 < x -> Qabs (- x) == x.
Proof.
  intro H. rewrite Qabs_opp. apply Qabs_pos. now apply Qlt_le_weak.
Qed.


Lemma in_singleton_filter {A} (f : A -> bool) (l : list A) (x : A) :
  filter f l = [x] -> f x = true /\ In x l.
Proof.
  intro H. assert (Hin : In x (filter f l)) by (rewrite H; now left).
  apply filter_In in Hin. tauto.
Qed.

Lemma tokenChangeMapOf_fold (changes : list TokenChange.t) :
  tokenChangeMapOf changes = fold_left tokenTotalStep changes JsMap.empty.
Proof. reflexivity. Qed.

(** The attributed changes are what [analyzeSOLTokenTrade] works with, as
    soon as there is one. *)
Lemma effectiveTokenChangesOf_attributed
    (significantTokenChanges : list TokenChange.t)
    (significantSolChanges : list SolChange.t) :
  filter (attributedToUser significantSolChanges) significantTokenChanges <> [] ->
  effectiveTokenChangesOf significantTokenChanges significantSolChanges
    (filter (fun c => isNegative (SolChange.change c)) significantSolChanges)
    (filter (fun c => isPositive (SolChange.change c)) significantSolChanges)
  = filter (attributedToUser significantSolChanges) significantTokenChanges.
Proof.
  unfold effectiveTokenChangesOf, attributedToUser. cbv zeta.
  match goal with
  | |- ?u <> [] -> _ = ?u => destruct u as [|c cs]
  end; [intro Hne; now elim Hne | reflexivity].
Qed.

Lemma notAboveZero_not_positive (x : jsnum) :
  notAboveZero x -> isPositive x = false.
Proof.
  destruct x as [q| | |]; cbn; try contradiction; try reflexivity.
  intro H. apply not_true_is_false. intro Hp.
  change (isPositive (Fin q) = true) in Hp.
  apply isPositive_Fin in Hp. exact (Qlt_not_le _ _ Hp H).
Qed.

Lemma notAboveZero_add (x y : jsnum) :
  notAboveZero x -> isNegative y = true -> notAboveZero (JsNum.add x y).
Proof.
  destruct x as [p| | |]; cbn; try contradiction;
    destruct y as [q| | |]; cbn; try discriminate; auto.
  intros Hp Hq. change (isNegative (Fin q) = true) in Hq.
  apply isNegative_Fin in Hq.
  apply Qlt_le_weak in Hq.
  setoid_replace 0 with (0 + 0) by ring.
  now apply Qplus_le_compat.
Qed.

Lemma onlyOtherMints_get (mint : string) (m : JsMap.t TokenTotal.t) :
  onlyOtherMints mint m -> JsMap.get m mint = None.
Proof.
  intro H. destruct (JsMap.get m mint) as [e|] eqn:E; [|reflexivity].
  apply get_In_same in E. destruct (H _ _ E) as [Hne _]. now elim Hne.
Qed.

Lemma onlyOtherMints_set (mint : string) (m : JsMap.t TokenTotal.t)
    (k : string) (e : TokenTotal.t) :
  onlyOtherMints mint m -> k <> mint ->
  notAboveZero (TokenTotal.totalChange e) ->
  onlyOtherMints mint (JsMap.set m k e).
Proof.
  intros Hm Hk He k' e' Hin.
  destruct (In_set _ _ _ _ _ Hin) as [E|H]; [|now apply Hm].
  injection E as -> ->. auto.
Qed.

Lemma onlyOtherMints_app (mint : string) (m1 m2 : JsMap.t TokenTotal.t) :
  onlyOtherMints mint m1 -> onlyOtherMints mint m2 ->
  onlyOtherMints mint (m1 ++ m2)%list.
Proof.
  intros H1 H2 k e Hin. apply in_app_or in Hin.
  destruct Hin; [now apply H1 | now apply H2].
Qed.

Lemma set_absent {V} (m : JsMap.t V) (k : string) (v : V) :
  JsMap.get m k = None -> JsMap.set m k v = (m ++ [(k, v)])%list.
Proof.
  induction m as [|[k0 v0] m IH]; cbn; [reflexivity|].
  destruct (String.eqb k k0); [discriminate|].
  intro H. now rewrite IH.
Qed.

Lemma get_app_absent {V} (m1 m2 : JsMap.t V) (k : string) :
  JsMap.get m1 k = None -> JsMap.get (m1 ++ m2)%list k = JsMap.get m2 k.
Proof.
  induction m1 as [|[k0 v0] m1 IH]; cbn; [reflexivity|].
  destruct (String.eqb k k0); [discriminate | exact IH].
Qed.

Lemma set_app_absent {V} (m1 m2 : JsMap.t V) (k : string) (v : V) :
  JsMap.get m1 k = None ->
  JsMap.set (m1 ++ m2)%list k v = (m1 ++ JsMap.set m2 k v)%list.
Proof.
  induction m1 as [|[k0 v0] m1 IH]; cbn; [reflexivity|].
  destruct (String.eqb k k0); [discriminate|].
  intro H. now rewrite IH.
Qed.

(** A round for a decrease of another mint keeps a map of other mints. *)
Lemma tokenTotalStep_other (mint : string) (m : JsMap.t TokenTotal.t)
    (c : TokenChange.t) :
  onlyOtherMints mint m ->
  isNegative (TokenChange.change c) = true ->
  TokenChange.mint c <> mint ->
  onlyOtherMints mint (tokenTotalStep m c).
Proof.
  intros Hm Hneg Hmint. unfold tokenTotalStep. cbv zeta.
  set (m1 := if negb (JsMap.has m (TokenChange.mint c))
             then JsMap.set m (TokenChange.mint c)
                    (TokenTotal.mk (TokenChange.mint c) (TokenChange.decimals c)
                       (Fin 0))
             else m).
  assert (Hm1 : onlyOtherMints mint m1).
  { unfold m1. destruct (negb (JsMap.has m (TokenChange.mint c))); [|exact Hm].
    apply onlyOtherMints_set; [exact Hm | exact Hmint |].
    cbn. apply Qle_refl. }
  destruct (JsMap.get m1 (TokenChange.mint c)) as [e|] eqn:Hget; [|exact Hm1].
  apply onlyOtherMints_set; [exact Hm1 | exact Hmint |].
  cbn [TokenTotal.totalChange]. apply notAboveZero_add; [|exact Hneg].
  apply get_In_same in Hget. now destruct (Hm1 _ _ Hget).
Qed.

(** Setting another key in a map that holds the entry of [mint] leaves the
    entry where it is and as it is. *)
Lemma set_around (mint : string) (entry : TokenTotal.t)
    (m1 m2 : JsMap.t TokenTotal.t) (k : string) (e : TokenTotal.t) :
  onlyOtherMints mint m1 -> onlyOtherMints mint m2 ->
  k <> mint -> notAboveZero (TokenTotal.totalChange e) ->
  exists m1' m2',
    JsMap.set (m1 ++ (mint, entry) :: m2)%list k e
    = (m1' ++ (mint, entry) :: m2')%list
    /\ onlyOtherMints mint m1' /\ onlyOtherMints mint m2'.
Proof.
  intros H1 H2 Hk He. induction m1 as [|[k0 e0] m1 IH].
  - exists [], (JsMap.set m2 k e). cbn [app JsMap.set].
    destruct (String.eqb_spec k mint) as [E|_]; [contradiction|].
    split; [reflexivity|]. split; [intros ? ? []|].
    now apply onlyOtherMints_set.
  - assert (H1' : onlyOtherMints mint m1).
    { intros k' e' Hin. apply (H1 k' e'). now right. }
    cbn [app JsMap.set]. destruct (String.eqb_spec k k0) as [<-|Hne].
    + exists ((k, e) :: m1), m2. split; [reflexivity|]. split; [|exact H2].
      intros k' e' [E|Hin]; [injection E as <- <-; auto | now apply H1'].
    + destruct (IH H1') as [m1' [m2' [-> [Ha Hb]]]].
      exists ((k0, e0) :: m1'), m2'. split; [reflexivity|]. split; [|exact Hb].
      intros k' e' [E|Hin]; [|now apply Ha].
      apply (H1 k' e'). now left.
Qed.

(** So does a round for a decrease of another mint. *)
Lemma tokenTotalStep_around (mint : string) (entry : TokenTotal.t)
    (m1 m2 : JsMap.t TokenTotal.t) (c : TokenChange.t) :
  onlyOtherMints mint m1 -> onlyOtherMints mint m2 ->
  isNegative (TokenChange.change c) = true ->
  TokenChange.mint c <> mint ->
  exists m1' m2',
    tokenTotalStep (m1 ++ (mint, entry) :: m2)%list c
    = (m1' ++ (mint, entry) :: m2')%list
    /\ onlyOtherMints mint m1' /\ onlyOtherMints mint m2'.
Proof.
  intros H1 H2 Hneg Hmint. unfold tokenTotalStep. cbv zeta.
  assert (Hfirst : exists a b,
             (if negb (JsMap.has (m1 ++ (mint, entry) :: m2)%list
                         (TokenChange.mint c))
              then JsMap.set (m1 ++ (mint, entry) :: m2)%list (TokenChange.mint c)
                     (TokenTotal.mk (TokenChange.mint c) (TokenChange.decimals c)
                        (Fin 0))
              else (m1 ++ (mint, entry) :: m2)%list)
             = (a ++ (mint, entry) :: b)%list
             /\ onlyOtherMints mint a /\ onlyOtherMints mint b).
  { destruct (negb (JsMap.has (m1 ++ (mint, entry) :: m2)%list
                      (TokenChange.mint c))).
    - apply set_around; auto. cbn. apply Qle_refl.
    - exists m1, m2. auto. }
  destruct Hfirst as [a [b [-> [Ha Hb]]]].
  destruct (JsMap.get (a ++ (mint, entry) :: b)%list (TokenChange.mint c))
    as [e|] eqn:Hget.
  - apply set_around; auto.
    cbn [TokenTotal.totalChange]. apply notAboveZero_add; [|exact Hneg].
    apply get_In_same in Hget. apply in_app_or in Hget.
    destruct Hget as [Hin|[E|Hin]].
    + now destruct (Ha _ _ Hin).
    + injection E as E _. now elim Hmint.
    + now destruct (Hb _ _ Hin).
  - exists a, b. auto.
Qed.

(** The round for the wallet's own change, on a map of other mints. *)
Lemma tokenTotalStep_own (m : JsMap.t TokenTotal.t) (tc : TokenChange.t) :
  onlyOtherMints (TokenChange.mint tc) m ->
  tokenTotalStep m tc
  = (m ++ [(TokenChange.mint tc,
            TokenTotal.mk (TokenChange.mint tc) (TokenChange.decimals tc)
              (JsNum.add (Fin 0) (TokenChange.change tc)))])%list.
Proof.
  intro Hm. pose proof (onlyOtherMints_get _ _ Hm) as Habs.
  unfold tokenTotalStep, JsMap.has. cbv zeta. rewrite Habs. cbn [negb].
  rewrite (set_absent m _ _ Habs).
  rewrite (get_app_absent m _ _ Habs). cbn [JsMap.get].
  rewrite String.eqb_refl.
  rewrite (set_app_absent m _ _ _ Habs). cbn [JsMap.set].
  now rewrite String.eqb_refl.
Qed.

Lemma fold_tokenTotalStep_other (mint : string) (changes : list TokenChange.t) :
  (forall c, In c changes ->
             isNegative (TokenChange.change c) = true
             /\ TokenChange.mint c <> mint) ->
  forall m, onlyOtherMints mint m ->
            onlyOtherMints mint (fold_left tokenTotalStep changes m).
Proof.
  induction changes as [|c changes IH]; intros Hall m Hm; [exact Hm|].
  cbn [fold_left]. apply IH; [intros c' Hc'; apply Hall; now right|].
  destruct (Hall c (or_introl eq_refl)) as [Hneg Hmint].
  now apply tokenTotalStep_other.
Qed.

Lemma fold_tokenTotalStep_around (mint : string) (entry : TokenTotal.t)
    (changes : list TokenChange.t) :
  (forall c, In c changes ->
             isNegative (TokenChange.change c) = true
             /\ TokenChange.mint c <> mint) ->
  forall m1 m2,
    onlyOtherMints mint m1 -> onlyOtherMints mint m2 ->
    exists m1' m2',
      fold_left tokenTotalStep changes (m1 ++ (mint, entry) :: m2)%list
      = (m1' ++ (mint, entry) :: m2')%list
      /\ onlyOtherMints mint m1' /\ onlyOtherMints mint m2'.
Proof.
  induction changes as [|c changes IH]; intros Hall m1 m2 H1 H2.
  - exists m1, m2. auto.
  - cbn [fold_left].
    destruct (Hall c (or_introl eq_refl)) as [Hneg Hmint].
    destruct (tokenTotalStep_around mint entry m1 m2 c H1 H2 Hneg Hmint)
      as [a [b [-> [Ha Hb]]]].
    apply IH; [intros c' Hc'; apply Hall; now right | exact Ha | exact Hb].
Qed.

Lemma onlyOtherMints_bought (mint : string) (m : JsMap.t TokenTotal.t) :
  onlyOtherMints mint m ->
  filter (fun t => isPositive (TokenTotal.totalChange t)) (JsMap.values m) = [].
Proof.
  intro Hm. unfold JsMap.values.
  induction m as [|[k e] m IH]; [reflexivity|].
  cbn [List.map snd filter].
  destruct (Hm k e (or_introl eq_refl)) as [_ He].
  rewrite (notAboveZero_not_positive _ He).
  apply IH. intros k' e' Hin. apply (Hm k' e'). now right.
Qed.

(** The tokens bought, when the attributed changes are one increase among
    decreases of other mints: the mint of the increase, with the increase as
    its total. *)
Lemma tokensBought_single (before after : list TokenChange.t)
    (tc : TokenChange.t) (Y : Q) :
  TokenChange.change tc = Fin Y -> 0 < Y ->
  (forall c, In c (before ++ after)%list ->
             isNegative (TokenChange.change c) = true
             /\ TokenChange.mint c <> TokenChange.mint tc) ->
  filter (fun t => isPositive (TokenTotal.totalChange t))
    (JsMap.values (tokenChangeMapOf (before ++ tc :: after)%list))
  = [TokenTotal.mk (TokenChange.mint tc) (TokenChange.decimals tc) (Fin (0 + Y))].
Proof.
  intros HY HYpos Hall.
  rewrite tokenChangeMapOf_fold, fold_left_app. cbn [fold_left].
  assert (Hbefore : onlyOtherMints (TokenChange.mint tc)
                      (fold_left tokenTotalStep before JsMap.empty)).
  { apply fold_tokenTotalStep_other; [|intros ? ? []].
    intros c Hc. apply Hall. apply in_or_app. now left. }
  rewrite (tokenTotalStep_own _ tc Hbefore), HY. cbn [JsNum.add].
  destruct (fold_tokenTotalStep_around (TokenChange.mint tc)
              (TokenTotal.mk (TokenChange.mint tc) (TokenChange.decimals tc)
                 (Fin (0 + Y)))
              after
              (fun c Hc => Hall c (in_or_app _ _ _ (or_intror Hc)))
              (fold_left tokenTotalStep before JsMap.empty) []
              Hbefore (fun _ _ H => match H with end))
    as [a [b [-> [Ha Hb]]]].
  unfold JsMap.values. rewrite map_app, filter_app. cbn [List.map snd filter].
  fold (JsMap.values a). fold (JsMap.values b).
  rewrite (onlyOtherMints_bought _ a Ha), (onlyOtherMints_bought _ b Hb).
  cbn [TokenTotal.totalChange app].
  assert (Hpos : isPositive (Fin (0 + Y)) = true).
  { apply isPositive_Fin. now rewrite Qplus_0_l. }
  now rewrite Hpos.
Qed.

Lemma filter_split {A} (f : A -> bool) (before after : list A) (x : A) :
  f x = true ->
  filter f (before ++ x :: after)%list
  = (filter f before ++ x :: filter f after)%list.
Proof. intro H. rewrite filter_app. cbn [filter]. now rewrite H. Qed.


(** The analysis of one significant native decrease and a token increase of
    the same wallet, among token changes of other accounts. *)
Lemma analyzeSOLTokenTrade_buy_among_others :
  forall (tokenChanges : list TokenChange.t) (solChanges : list SolChange.t)
         (sc : SolChange.t) (tc : TokenChange.t)
         (before after : list TokenChange.t) (X Y : Q),
    filter (fun c => isNegative (SolChange.change c))
      (filter isSignificantSol solChanges) = [sc] ->
    SolChange.change sc = Fin (- X) ->
    filter isSignificantToken tokenChanges = (before ++ tc :: after)%list ->
    TokenChange.change tc = Fin Y ->
    0 < Y ->
    TokenChange.owner tc = SolChange.account sc ->
    (forall c, In c (before ++ after)%list ->
               attributedToUser (filter isSignificantSol solChanges) c = true ->
               isNegative (TokenChange.change c) = true
               /\ TokenChange.mint c <> TokenChange.mint tc) ->
    (1 # 10000) < X
    /\ (1 # 1000000) < Y
    /\ TokenChange.mint tc <> SOL_MINT
    /\ exists (t : Trade.t) (p : jsnum),
         analyzeSOLTokenTrade tokenChanges solChanges = Ok (Some t)
         /\ Trade.type t = Buy
         /\ TokenRef.mint (Trade.soldToken t) = SOL_MINT
         /\ JsNum.same (TokenRef.amount (Trade.soldToken t)) (Fin X)
         /\ TokenRef.mint (Trade.boughtToken t) = TokenChange.mint tc
         /\ JsNum.same (TokenRef.amount (Trade.boughtToken t)) (Fin Y)
         /\ Trade.price t = Some p
         /\ JsNum.same p (Fin (X / Y)).
Proof.
  intros tokenChanges solChanges sc tc before after X Y
         Hsol HX Htok HY HYpos Hown Hothers.
  destruct (in_singleton_filter _ _ _ Hsol) as [Hneg Hin].
  apply filter_In in Hin. destruct Hin as [_ Hsig].
  assert (Hsigt : isSignificantToken tc = true).
  { assert (Hin : In tc (filter isSignificantToken tokenChanges)).
    { rewrite Htok. apply in_or_app. right. now left. }
    apply filter_In in Hin. tauto. }
  rewrite HX in Hneg. apply isNegative_Fin in Hneg.
  assert (HXpos : 0 < X).
  { apply Qopp_lt_compat in Hneg. rewrite Qopp_involutive in Hneg.
    exact Hneg. }
  unfold isSignificantSol in Hsig. rewrite HX in Hsig.
  unfold JsNum.gtb, solDust in Hsig. simpl in Hsig. apply Qltb_lt in Hsig.
  rewrite (Qabs_opp_pos X HXpos) in Hsig.
  unfold isSignificantToken in Hsigt.
  destruct (String.eqb_spec (TokenChange.mint tc) SOL_MINT) as [|Hmint];
    [discriminate|].
  destruct (String.eqb (TokenChange.mint tc) "SOL"); [discriminate|].
  cbn [orb] in Hsigt. unfold absTokenChange in Hsigt. rewrite HY in Hsigt.
  unfold JsNum.gtb, tokenDust in Hsigt. simpl in Hsigt. apply Qltb_lt in Hsigt.
  rewrite (Qabs_pos Y (Qlt_le_weak _ _ HYpos)) in Hsigt.
  split; [exact Hsig|]. split; [exact Hsigt|]. split; [exact Hmint|].
  assert (Hattr : attributedToUser (filter isSignificantSol solChanges) tc = true).
  { unfold attributedToUser. cbv zeta. rewrite Hsol, HY, Hown.
    cbn [List.map].
    assert (Hp : isPositive (Fin Y) = true) by now apply isPositive_Fin.
    rewrite Hp, (includesStr_In [SolChange.account sc] (SolChange.account sc))
      by now left.
    reflexivity. }
  assert (Heff : filter (attributedToUser (filter isSignificantSol solChanges))
                   (before ++ tc :: after)%list
                 = (filter (attributedToUser (filter isSignificantSol solChanges))
                      before
                    ++ tc :: filter (attributedToUser
                                       (filter isSignificantSol solChanges)) after)%list).
  { now apply filter_split. }
  unfold analyzeSOLTokenTrade. cbv zeta. rewrite Htok.
  rewrite effectiveTokenChangesOf_attributed
    by (rewrite Heff; intro E; now destruct (app_cons_not_nil _ _ _ (eq_sym E))).
  rewrite Heff.
  rewrite (tokensBought_single _ _ tc Y HY HYpos).
  2:{ intros c Hc. apply in_app_or in Hc.
      destruct Hc as [Hc|Hc]; apply filter_In in Hc; destruct Hc as [Hc Ha];
        apply Hothers; auto; apply in_or_app; auto. }
  rewrite Hsol.
  cbn [fold_left]. rewrite HX. cbn [JsNum.abs JsNum.add].
  assert (Hspent : isPositive (Fin (0 + Qabs (- X))) = true).
  { apply isPositive_Fin. rewrite Qplus_0_l, Qabs_opp_pos; assumption. }
  rewrite Hspent. cbn [pickBought].
  eexists. eexists. split; [reflexivity|].
  cbn [Trade.type Trade.soldToken Trade.boughtToken Trade.price Trade.make
       TokenRef.mint TokenRef.amount TokenTotal.mint TokenTotal.totalChange].
  assert (HY0 : Qeq_bool (0 + Y) 0 = false).
  { apply Qeq_bool_false. rewrite Qplus_0_l. intro E. rewrite E in HYpos.
    exact (Qlt_irrefl 0 HYpos). }
  split; [reflexivity|]. split; [reflexivity|].
  split; [cbn [JsNum.same]; rewrite Qplus_0_l; now apply Qabs_opp_pos|].
  split; [reflexivity|].
  split; [cbn [JsNum.same]; apply Qplus_0_l|].
  unfold JsNum.div. rewrite HY0.
  split; [reflexivity|].
  cbn [JsNum.same]. rewrite !Qplus_0_l, Qabs_opp_pos by assumption.
  reflexivity.
Qed.

(** When the wallet signed and no token account of a signer has a
    significant decrease, the token-to-token check finds nothing. *)
Lemma tokenSwapOf_no_signer_decrease (dex : string) (holder : option string)
    (tokenChanges : list TokenChange.t) (solChanges : list SolChange.t)
    (tc : TokenChange.t) :
  In tc (signerTokenChangesOf tokenChanges solChanges) ->
  filter (fun c => isNegative (TokenChange.change c))
    (signerTokenChangesOf tokenChanges solChanges) = [] ->
  tokenSwapOf dex holder tokenChanges solChanges = None.
Proof.
  intros Hin Hnone. unfold tokenSwapOf. cbv zeta.
  fold (signerTokenChangesOf tokenChanges solChanges).
  destruct (signerTokenChangesOf tokenChanges solChanges) as [|c cs];
    [destruct Hin|].
  now rewrite Hnone.
Qed.

(** C1, as amended.  The wallet's native decrease [X] is the only native
    decrease above the dust threshold of 0.0001, and the wallet has a token
    increase [Y] above the threshold of 0.000001, of a mint that is not the
    native one.  Of the other token changes above the threshold, those that
    the analysis attributes to the user (an increase whose owner spent
    native asset, a decrease whose owner received native asset, either of
    them when the owner is a signer with a native change above the
    threshold) are decreases of other mints; the changes of accounts that
    did none of this are free.  Then [analyzeSOLTokenTrade] returns a buy:
    the native mint sold for the amount [X], the token bought for the amount
    [Y], at the price [X / Y].  So does [parseGenericTransaction] on a
    transaction that has these deltas and no liquidity keyword, when the
    wallet signed and no token account of a signer has a decrease above the
    threshold. *)
Theorem sol_for_token_is_a_buy :
  forall (tokenChanges : list TokenChange.t) (solChanges : list SolChange.t)
         (sc : SolChange.t) (tc : TokenChange.t)
         (before after : list TokenChange.t) (X Y : Q),
    filter (fun c => isNegative (SolChange.change c))
      (filter isSignificantSol solChanges) = [sc] ->
    SolChange.change sc = Fin (- X) ->
    filter isSignificantToken tokenChanges = (before ++ tc :: after)%list ->
    TokenChange.change tc = Fin Y ->
    0 < Y ->
    TokenChange.owner tc = SolChange.account sc ->
    (forall c, In c (before ++ after)%list ->
               attributedToUser (filter isSignificantSol solChanges) c = true ->
               isNegative (TokenChange.change c) = true
               /\ TokenChange.mint c <> TokenChange.mint tc) ->
    (1 # 10000) < X
    /\ (1 # 1000000) < Y
    /\ TokenChange.mint tc <> SOL_MINT
    /\ (exists (t : Trade.t) (p : jsnum),
          analyzeSOLTokenTrade tokenChanges solChanges = Ok (Some t)
          /\ Trade.type t = Buy
          /\ TokenRef.mint (Trade.soldToken t) = SOL_MINT
          /\ JsNum.same (TokenRef.amount (Trade.soldToken t)) (Fin X)
          /\ TokenRef.mint (Trade.boughtToken t) = TokenChange.mint tc
          /\ JsNum.same (TokenRef.amount (Trade.boughtToken t)) (Fin Y)
          /\ Trade.price t = Some p
          /\ JsNum.same p (Fin (X / Y)))
    /\ (forall (tx : Transaction.t) (dex : string),
          (hasLiquidityOperation tx || hasLiquidityInstruction tx
           || hasLiquidityInnerInstruction tx)%bool = false ->
          parseSOLBalanceChanges tx = Ok solChanges ->
          parseTokenBalanceChanges (Transaction.meta tx) = tokenChanges ->
          SolChange.isSigner sc = true ->
          filter (fun c => isNegative (TokenChange.change c))
            (signerTokenChangesOf tokenChanges solChanges) = [] ->
          exists (t : Trade.t) (p : jsnum),
            parseGenericTransaction tx dex = Ok (Some t)
            /\ Trade.type t = Buy
            /\ TokenRef.mint (Trade.soldToken t) = SOL_MINT
            /\ JsNum.same (TokenRef.amount (Trade.soldToken t)) (Fin X)
            /\ TokenRef.mint (Trade.boughtToken t) = TokenChange.mint tc
            /\ JsNum.same (TokenRef.amount (Trade.boughtToken t)) (Fin Y)
            /\ Trade.price t = Some p
            /\ JsNum.same p (Fin (X / Y))).
Proof.
  intros tokenChanges solChanges sc tc before after X Y
         Hsol HX Htok HY HYpos Hown Hothers.
  destruct (analyzeSOLTokenTrade_buy_among_others tokenChanges solChanges sc tc
              before after X Y Hsol HX Htok HY HYpos Hown Hothers)
    as [HXd [HYd [Hmint [t [p [Han Hprops]]]]]].
  split; [exact HXd|]. split; [exact HYd|]. split; [exact Hmint|].
  split; [exists t, p; split; [exact Han | exact Hprops]|].
  intros tx dex Hgate Hparse Htokens Hsigner Hnone.
  assert (Hmine : In tc (signerTokenChangesOf tokenChanges solChanges)).
  { unfold signerTokenChangesOf. apply filter_In. split.
    - rewrite Htok. apply in_or_app. right. now left.
    - apply includesStr_In. rewrite Hown. apply in_map. apply filter_In.
      split; [|exact Hsigner].
      destruct (in_singleton_filter _ _ _ Hsol) as [_ Hin].
      apply filter_In in Hin. tauto. }
  assert (Hnoswap : tokenSwapOf dex (getHolderAddress tx solChanges)
                      tokenChanges solChanges = None).
  { now apply (tokenSwapOf_no_signer_decrease _ _ _ _ tc). }
  unfold parseGenericTransaction. rewrite Hgate, Hparse. cbn [rbind].
  rewrite Htokens, Hnoswap, Han. cbn [rbind].
  exists (Trade.setDexSource dex "generic_parser"
            (if negb (JsString.truthyOpt (Trade.holderAddress t))
             then Trade.setHolderAddress (getHolderAddress tx solChanges) t
             else t)), p.
  split; [reflexivity|].
  destruct (negb (JsString.truthyOpt (Trade.holderAddress t))); exact Hprops.
Qed.

End BuyFacts.

Lemma sol_for_token_is_a_buy_witness :
  (exists (t : Trade.t) (p : jsnum),
     analyzeSOLTokenTrade Cases.counterpartyBuyTokens Cases.counterpartyBuySol
     = Ok (Some t)
     /\ Trade.type t = Buy
     /\ TokenRef.mint (Trade.soldToken t) = SOL_MINT
     /\ JsNum.same (TokenRef.amount (Trade.soldToken t)) (Fin 2.000000000)
     /\ TokenRef.mint (Trade.boughtToken t) = Sample.mintM
     /\ JsNum.same (TokenRef.amount (Trade.boughtToken t)) (Fin 3)
     /\ Trade.price t = Some p
     /\ JsNum.same p (Fin (2.000000000 / 3)))
  /\ (exists (t : Trade.t) (p : jsnum),
        parseGenericTransaction Cases.counterpartyBuy "unknown" = Ok (Some t)
        /\ Trade.type t = Buy
        /\ TokenRef.mint (Trade.soldToken t) = SOL_MINT
        /\ JsNum.same (TokenRef.amount (Trade.soldToken t)) (Fin 2.000000000)
        /\ TokenRef.mint (Trade.boughtToken t) = Sample.mintM
        /\ JsNum.same (TokenRef.amount (Trade.boughtToken t)) (Fin 3)
        /\ Trade.price t = Some p
        /\ JsNum.same p (Fin (2.000000000 / 3))).
Proof.
  assert (Hothers :
    forall c,
      In c ([] ++ [TokenChange.mk Sample.mintM "PoolAuth" (Fin 3) (Fin 0)
                     (Fin (-3)) 6])%list ->
      attributedToUser (filter isSignificantSol Cases.counterpartyBuySol) c = true ->
      isNegative (TokenChange.change c) = true
      /\ TokenChange.mint c <> Sample.mintM).
  { intros c [<-|[]]. vm_compute. discriminate. }
  destruct (sol_for_token_is_a_buy
              Cases.counterpartyBuyTokens Cases.counterpartyBuySol
              (SolChange.mk "Wallet" (Fin 10.000000000) (Fin 8.000000000)
                 (Fin (- 2.000000000)) true false)
              (TokenChange.mk Sample.mintM "Wallet" (Fin 0) (Fin 3) (Fin 3) 6)
              []
              [TokenChange.mk Sample.mintM "PoolAuth" (Fin 3) (Fin 0) (Fin (-3)) 6]
              2.000000000 3 eq_refl eq_refl eq_refl eq_refl eq_refl eq_refl
              Hothers)
    as [_ [_ [_ [Han Hgen]]]].
  split; [exact Han|].
  exact (Hgen Cases.counterpartyBuy "unknown" eq_refl eq_refl eq_refl eq_refl
           eq_refl).
Defined.

(** C1, as stated, fails: a wallet that pays 0.00005 SOL and receives one
    token has a negative native change and a positive token change, and the
    analysis and the generic parser both return [null]. *)
Lemma dust_buy_counterexample :
  (exists sc tc,
     parseSOLBalanceChanges Sample.dustBuy = Ok [sc]
     /\ JsNum.same (SolChange.change sc) (Fin (- (1 # 20000)))
     /\ parseTokenBalanceChanges (Transaction.meta Sample.dustBuy) = [tc]
     /\ JsNum.same (TokenChange.change tc) (Fin 1)
     /\ TokenChange.owner tc = SolChange.account sc
     /\ analyzeSOLTokenTrade [tc] [sc] = Ok None)
  /\ parseGenericTransaction Sample.dustBuy "unknown" = Ok None.
Proof.
  split; [|reflexivity].
  do 2 eexists. split; [reflexivity|]. split; [reflexivity|].
  split; [reflexivity|]. split; [reflexivity|]. split; reflexivity.
Qed.

(** The thresholds are not all that [analyzeSOLTokenTrade] asks for: when
    the tokens come out of an account whose owner is the one that receives
    the native asset, the decrease is attributed to the user as well, the
    total of the mint is zero, and neither the analysis nor the generic
    parser classifies the transaction. *)
Lemma source_owned_by_native_receiver_is_not_classified :
  (exists solChanges,
     parseSOLBalanceChanges Sample.sameMintShuffle = Ok solChanges
     /\ List.map (fun c => (SolChange.account c, SolChange.change c)) solChanges
        = [("Wallet", Fin (- 2.000000000)); ("Pool", Fin 2.000000000)]
     /\ List.map (fun c => (TokenChange.owner c, TokenChange.change c))
          (parseTokenBalanceChanges (Transaction.meta Sample.sameMintShuffle))
        = [("Wallet", Fin 3); ("Pool", Fin (- 3))]
     /\ analyzeSOLTokenTrade
          (parseTokenBalanceChanges (Transaction.meta Sample.sameMintShuffle))
          solChanges = Ok None)
  /\ parseGenericTransaction Sample.sameMintShuffle "unknown" = Ok None.
Proof.
  split; [|vm_compute; reflexivity].
  eexists. split; [vm_compute; reflexivity|].
  split; [reflexivity|]. split; vm_compute; reflexivity.
Qed.

(** Nor is the wallet's own decrease all that is sold: the native decreases
    of all accounts are added up. *)
Lemma second_native_decrease_is_added_to_the_sold_amount :
  exists (solChanges : list SolChange.t) (t : Trade.t),
    parseSOLBalanceChanges Cases.sponsoredBuy = Ok solChanges
    /\ List.map (fun c => (SolChange.account c, SolChange.change c)) solChanges
       = [("Wallet", Fin (- 2.000000000)); ("Payer", Fin (- 0.500000000));
          ("Vault", Fin 2.500000000)]
    /\ List.map (fun c => (TokenChange.owner c, TokenChange.change c))
         (parseTokenBalanceChanges (Transaction.meta Cases.sponsoredBuy))
       = [("Wallet", Fin 3)]
    /\ analyzeSOLTokenTrade
         (parseTokenBalanceChanges (Transaction.meta Cases.sponsoredBuy))
         solChanges = Ok (Some t)
    /\ Trade.type t = Buy
    /\ JsNum.same (TokenRef.amount (Trade.soldToken t)) (Fin (5 # 2)).
Proof.
  do 2 eexists. split; [vm_compute; reflexivity|].
  split; [reflexivity|]. split; [vm_compute; reflexivity|].
  split; [vm_compute; reflexivity|]. split; reflexivity.
Qed.

(** ** The Pump.fun parser *)

(** C3, as amended.  In a Pump.fun transaction, one with a Pump.fun
    instruction or the program id in its logs, whose log names a sell
    instruction while the balance deltas are read as a buy, the parser
    returns a sell with the two sides exchanged and the price recomputed as
    bought amount over sold amount; and the other way round for a logged buy
    read as a sell. *)
Theorem pump_fun_log_direction_wins :
  forall (tx : Transaction.t) (td : TxData.t) (message : Message.t)
         (instructions : list Instruction.t) (solChanges : list SolChange.t)
         (t : Trade.t),
    Transaction.transaction tx = Some td ->
    TxData.message td = Some message ->
    Message.instructions message = Some instructions ->
    pumpFunEvidence tx (Message.accountKeys message) instructions = true ->
    parseSOLBalanceChanges tx = Ok solChanges ->
    analyzeSOLTokenTrade (parseTokenBalanceChanges (Transaction.meta tx)) solChanges
    = Ok (Some t) ->
    (isSellFromLog (logTextOf (Transaction.meta tx)) = true ->
     Trade.type t = Buy ->
     exists r : Trade.t,
       parsePumpFunTransaction tx = Ok (Some r)
       /\ Trade.type r = Sell
       /\ Trade.soldToken r = Trade.boughtToken t
       /\ Trade.boughtToken r = Trade.soldToken t
       /\ Trade.price r
          = Some (JsNum.div (TokenRef.amount (Trade.boughtToken r))
                    (TokenRef.amount (Trade.soldToken r))))
    /\ (isBuyFromLog (logTextOf (Transaction.meta tx)) = true ->
        Trade.type t = Sell ->
        exists r : Trade.t,
          parsePumpFunTransaction tx = Ok (Some r)
          /\ Trade.type r = Buy
          /\ Trade.soldToken r = Trade.boughtToken t
          /\ Trade.boughtToken r = Trade.soldToken t
          /\ Trade.price r
             = Some (JsNum.div (TokenRef.amount (Trade.boughtToken r))
                       (TokenRef.amount (Trade.soldToken r)))).
Proof.
  intros tx td message instructions solChanges t Htd Hmsg Hixs Hev Hsol Han.
  assert (Hrun : parsePumpFunTransaction tx
                 = Ok (Some
                         (Trade.setPumpFun "pump.fun"
                            (List.length (pumpFunInstructions (Message.accountKeys message) instructions)
                             + List.length
                                 (pumpFunInstructions (Message.accountKeys message)
                                    (flattenInner (innerInstructionsOf (Transaction.meta tx)))))
                            (Nat.ltb 0
                               (List.length
                                  (pumpFunInstructions (Message.accountKeys message)
                                     (flattenInner (innerInstructionsOf (Transaction.meta tx))))))
                            (Trade.setDexSource "pump_fun_amm" "pump_fun_parser"
                               (applyLogDirection (logTextOf (Transaction.meta tx)) t))))).
  { unfold parsePumpFunTransaction. rewrite Htd. cbn [rbind mustBeDefined].
    rewrite Hmsg. cbn [rbind mustBeDefined]. rewrite Hixs.
    cbn [rbind mustBeDefined]. rewrite Hev. cbn [negb].
    rewrite Hsol. cbn [rbind]. rewrite Han. reflexivity. }
  rewrite Hrun. split; intros Hlog Hty; eexists; (split; [reflexivity|]);
    unfold applyLogDirection; rewrite Hty.
  - rewrite Hlog. cbn. auto.
  - rewrite Hlog. cbn.
    replace (isSellFromLog (logTextOf (Transaction.meta tx)) && false)%bool
      with false by (now rewrite andb_false_r).
    cbn. auto.
Qed.

Lemma pump_fun_log_direction_wins_witness :
  exists r : Trade.t,
    parsePumpFunTransaction Sample.pumpSellLoggedBuy = Ok (Some r)
    /\ Trade.type r = Sell
    /\ TokenRef.mint (Trade.soldToken r) = Sample.mintM
    /\ TokenRef.mint (Trade.boughtToken r) = SOL_MINT
    /\ Trade.price r
       = Some (JsNum.div (TokenRef.amount (Trade.boughtToken r))
                 (TokenRef.amount (Trade.soldToken r))).
Proof.
  destruct (pump_fun_log_direction_wins Sample.pumpSellLoggedBuy _ _ _ _ _
              eq_refl eq_refl eq_refl eq_refl eq_refl eq_refl) as [Hsell _].
  destruct (Hsell eq_refl eq_refl) as [r [Hr [Htype [Hs [Hb Hp]]]]].
  exists r. split; [exact Hr|]. split; [exact Htype|].
  split; [rewrite Hs; reflexivity|]. split; [rewrite Hb; reflexivity|].
  exact Hp.
Defined.

(** C3, as stated, fails: the log text alone can send a transaction to the
    Pump.fun parser.  Here the log names a sell instruction and a pAMM pool,
    the balance deltas are read as a buy, and the parser, finding neither a
    Pump.fun instruction nor the program id in the logs, returns [null]. *)
Lemma pump_fun_log_without_program_counterexample :
  identifyDEX Cases.keywordOnlyPumpFun = Ok DexPumpFun
  /\ isSellFromLog (logTextOf (Transaction.meta Cases.keywordOnlyPumpFun)) = true
  /\ (exists (solChanges : list SolChange.t) (t : Trade.t),
        parseSOLBalanceChanges Cases.keywordOnlyPumpFun = Ok solChanges
        /\ analyzeSOLTokenTrade
             (parseTokenBalanceChanges (Transaction.meta Cases.keywordOnlyPumpFun))
             solChanges = Ok (Some t)
        /\ Trade.type t = Buy)
  /\ parsePumpFunTransaction Cases.keywordOnlyPumpFun = Ok None
  /\ resolveTrade "sig" None (Some Cases.keywordOnlyPumpFun) = Ok None.
Proof.
  split; [vm_compute; reflexivity|].
  split; [vm_compute; reflexivity|].
  split.
  { do 2 eexists. split; [vm_compute; reflexivity|].
    split; [vm_compute; reflexivity | reflexivity]. }
  split; vm_compute; reflexivity.
Qed.

(** ** The generic parser *)

Section StringFacts.

Lemma prefix_toLowerCase (a : string) :
  forall b, String.prefix a b = true ->
            String.prefix (JsString.toLowerCase a) (JsString.toLowerCase b) = true.
Proof.
  induction a as [|c a IH]; intros b H; simpl.
  - destruct b; reflexivity.
  - destruct b as [|d b]; simpl in *; [discriminate|].
    destruct (ascii_dec c d) as [->|Hne]; [|discriminate].
    destruct (ascii_dec (JsString.lowerAscii d) (JsString.lowerAscii d));
      [|congruence].
    now apply IH.
Qed.

Lemma includes_toLowerCase (needle : string) :
  forall hay, JsString.includes hay needle = true ->
              JsString.includes (JsString.toLowerCase hay)
                (JsString.toLowerCase needle) = true.
Proof.
  induction hay as [|c hay IH]; intro H.
  - cbn [JsString.includes] in H. rewrite orb_false_r in H.
    apply prefix_toLowerCase in H.
    cbn [JsString.includes JsString.toLowerCase] in *. now rewrite H.
  - cbn [JsString.includes] in H. apply orb_true_iff in H.
    cbn [JsString.toLowerCase JsString.includes]. apply orb_true_iff.
    destruct H as [H|H].
    + left. exact (prefix_toLowerCase _ _ H).
    + right. now apply IH.
Qed.

Lemma orElse_empty (s : string) : JsString.orElse (Some s) "" = s.
Proof.
  unfold JsString.orElse, JsString.truthy.
  destruct (String.eqb_spec s ""); simpl; congruence.
Qed.

Lemma liquidityOperations_lower (kw : string) :
  In kw liquidityOperations -> JsString.toLowerCase kw = kw.
Proof.
  unfold liquidityOperations. simpl.
  intros [<-|[<-|[<-|[<-|[<-|[<-|[]]]]]]]; reflexivity.
Qed.

Lemma mentionsLiquidity_intro (text kw : string) :
  In kw liquidityOperations ->
  JsString.includes text kw = true ->
  mentionsLiquidity text = true.
Proof.
  intros Hin Hinc. unfold mentionsLiquidity. apply existsb_exists.
  exists kw. split; [exact Hin|].
  now rewrite (liquidityOperations_lower kw Hin).
Qed.

Lemma isLiquidityInstruction_intro (ix : Instruction.t) (ty kw : string) :
  In kw liquidityOperations ->
  Instruction.parsed ix = Some (ParsedObj (Some ty)) ->
  JsString.includes ty kw = true ->
  isLiquidityInstruction ix = true.
Proof.
  intros Hin Hp Hinc. unfold isLiquidityInstruction. rewrite Hp, orElse_empty.
  apply (mentionsLiquidity_intro _ kw Hin).
  rewrite <- (liquidityOperations_lower kw Hin).
  now apply includes_toLowerCase.
Qed.

End StringFacts.

(** C10.  A liquidity keyword in the lower-cased log text, or in the type of
    a parsed instruction at the top level or among the inner ones, makes the
    generic parser return [null], whatever the balance deltas are. *)
Theorem liquidity_keyword_blocks_generic_parser :
  forall (tx : Transaction.t) (dex kw : string),
    In kw liquidityOperations ->
    (JsString.includes (logTextOf (Transaction.meta tx)) kw = true
     \/ (exists ix ty,
           In ix (orEmpty (instructionsOf tx))
           /\ Instruction.parsed ix = Some (ParsedObj (Some ty))
           /\ JsString.includes ty kw = true)
     \/ (exists inner ixs ix ty,
           In inner (innerInstructionsOf (Transaction.meta tx))
           /\ Inner.instructions inner = Some ixs
           /\ In ix ixs
           /\ Instruction.parsed ix = Some (ParsedObj (Some ty))
           /\ JsString.includes ty kw = true)) ->
    parseGenericTransaction tx dex = Ok None.
Proof.
  intros tx dex kw Hkw H. unfold parseGenericTransaction.
  assert (Hgate : (hasLiquidityOperation tx || hasLiquidityInstruction tx
                   || hasLiquidityInnerInstruction tx)%bool = true).
  { destruct H as [Hlog | [[ix [ty [Hin [Hp Hinc]]]]
                          | [inner [ixs [ix [ty [Hin [Hixs [Hix [Hp Hinc]]]]]]]]]].
    - unfold hasLiquidityOperation.
      now rewrite (mentionsLiquidity_intro _ kw Hkw Hlog).
    - assert (E : hasLiquidityInstruction tx = true).
      { unfold hasLiquidityInstruction. apply existsb_exists. exists ix.
        split; [exact Hin|]. exact (isLiquidityInstruction_intro ix ty kw Hkw Hp Hinc). }
      rewrite E. now rewrite orb_true_r.
    - assert (E : hasLiquidityInnerInstruction tx = true).
      { unfold hasLiquidityInnerInstruction. apply existsb_exists. exists inner.
        split; [exact Hin|]. rewrite Hixs. apply existsb_exists. exists ix.
        split; [exact Hix|]. exact (isLiquidityInstruction_intro ix ty kw Hkw Hp Hinc). }
      rewrite E. now rewrite orb_true_r. }
  now rewrite Hgate.
Qed.


Lemma liquidity_keyword_blocks_generic_parser_witness :
  parseGenericTransaction Sample.liquidityBuy "unknown" = Ok None
  /\ exists t, parseGenericTransaction Sample.plainBuy "unknown" = Ok (Some t)
                /\ Trade.type t = Buy.
Proof.
  split.
  - apply (liquidity_keyword_blocks_generic_parser Sample.liquidityBuy "unknown"
             "deposit").
    + unfold liquidityOperations. simpl. tauto.
    + left. reflexivity.
  - eexists. split; reflexivity.
Defined.

Section OrderFacts.

Local Open Scope Q_scope.

Lemma ltb_irrefl (a : jsnum) : JsNum.ltb a a = false.
Proof.
  destruct a; simpl; try reflexivity.
  apply Qltb_ge. apply Qle_refl.
Qed.

Lemma ltb_trans (a b c : jsnum) :
  JsNum.ltb a b = true -> JsNum.ltb b c = true -> JsNum.ltb a c = true.
Proof.
  destruct a, b, c; simpl; try discriminate; try reflexivity.
  rewrite !Qltb_lt. apply Qlt_trans.
Qed.

Lemma ltb_false_trans (a b c : jsnum) :
  JsNum.notNaN b ->
  JsNum.ltb a b = false -> JsNum.ltb b c = false -> JsNum.ltb a c = false.
Proof.
  unfold JsNum.notNaN.
  destruct a, b, c; simpl; try discriminate; try reflexivity; try congruence.
  rewrite !Qltb_ge. intros _ H1 H2. exact (Qle_trans _ _ _ H2 H1).
Qed.

Lemma gtb_abs_notNaN (x d : jsnum) :
  JsNum.gtb (JsNum.abs x) d = true -> JsNum.notNaN (JsNum.abs x).
Proof.
  unfold JsNum.notNaN. destruct x; simpl; try discriminate.
  unfold JsNum.gtb. destruct d; discriminate.
Qed.

Context {A : Type} (key : A -> jsnum).

(** [maxBy] returns an element of its input that no other element
    exceeds. *)
Lemma maxBy_largest (xs : list A) :
  forall first : A,
    (forall x, In x (first :: xs) -> JsNum.notNaN (key x)) ->
    In (maxBy key xs first) (first :: xs)
    /\ forall x, In x (first :: xs) ->
                 JsNum.gtb (key x) (key (maxBy key xs first)) = false.
Proof.
  unfold maxBy.
  induction xs as [|y xs IH]; intros first Hnn.
  - simpl. split; [now left|].
    intros x [<-|[]]. unfold JsNum.gtb. apply ltb_irrefl.
  - cbn [fold_left].
    set (acc := if JsNum.gtb (key y) (key first) then y else first).
    assert (Hacc : forall x, In x (acc :: xs) -> JsNum.notNaN (key x)).
    { intros x [<-|Hin].
      - unfold acc. destruct (JsNum.gtb (key y) (key first));
          apply Hnn; simpl; auto.
      - apply Hnn. simpl. auto. }
    destruct (IH acc Hacc) as [Hin Hmax].
    set (m := fold_left
                (fun max item => if JsNum.gtb (key item) (key max) then item else max)
                xs acc) in *.
    split.
    + destruct Hin as [Heq|Hin].
      * rewrite <- Heq. unfold acc.
        destruct (JsNum.gtb (key y) (key first)); simpl; auto.
      * simpl. auto.
    + assert (Hm_acc : JsNum.gtb (key acc) (key m) = false)
        by (apply Hmax; now left).
      intros x [<-|[<-|Hx]].
      * (* first *)
        unfold acc in Hm_acc. unfold JsNum.gtb in *.
        destruct (JsNum.ltb (key first) (key y)) eqn:E.
        -- destruct (JsNum.ltb (key m) (key first)) eqn:E2; [|reflexivity].
           rewrite (ltb_trans _ _ _ E2 E) in Hm_acc. discriminate.
        -- exact Hm_acc.
      * (* y *)
        unfold acc in Hm_acc. unfold JsNum.gtb in *.
        destruct (JsNum.ltb (key first) (key y)) eqn:E.
        -- exact Hm_acc.
        -- apply (ltb_false_trans _ (key first)); auto.
           apply Hnn. now left.
      * apply Hmax. now right.
Qed.

End OrderFacts.

Section RepresentativePair.

Local Open Scope bool_scope.

Lemma soldItems_notNaN tokenChanges solChanges x :
  In x (soldItemsOf tokenChanges solChanges) -> JsNum.notNaN (absItem x).
Proof.
  unfold soldItemsOf. intro H. apply filter_In in H. destruct H as [H _].
  apply filter_In in H. destruct H as [_ H].
  exact (gtb_abs_notNaN _ _ H).
Qed.

Lemma boughtItems_notNaN tokenChanges solChanges x :
  In x (boughtItemsOf tokenChanges solChanges) -> JsNum.notNaN (absItem x).
Proof.
  unfold boughtItemsOf. intro H. apply filter_In in H. destruct H as [H _].
  apply filter_In in H. destruct H as [_ H].
  exact (gtb_abs_notNaN _ _ H).
Qed.

(** C7, as amended.  When several significant deltas remain after the
    token-swap and the SOL-for-token rules, the generic parser takes the
    negative and the positive delta of largest magnitude as the
    representative pair.  An outcome, when there is one, is that pair
    classified by [inferTradeType] and tagged with the note; there is one
    whenever the pair passes the parser's SOL-and-token test; and there is
    none when both deltas are token deltas of mints other than the native
    one. *)
Theorem representative_pair_of_many_changes :
  forall (tx : Transaction.t) (dex : string) (solChanges : list SolChange.t)
         (sold0 bought0 : ChangeItem.t) (soldRest boughtRest : list ChangeItem.t),
    hasLiquidityOperation tx || hasLiquidityInstruction tx
      || hasLiquidityInnerInstruction tx = false ->
    parseSOLBalanceChanges tx = Ok solChanges ->
    tokenSwapOf dex (getHolderAddress tx solChanges)
      (parseTokenBalanceChanges (Transaction.meta tx)) solChanges = None ->
    analyzeSOLTokenTrade (parseTokenBalanceChanges (Transaction.meta tx)) solChanges
    = Ok None ->
    soldItemsOf (parseTokenBalanceChanges (Transaction.meta tx)) solChanges
    = sold0 :: soldRest ->
    boughtItemsOf (parseTokenBalanceChanges (Transaction.meta tx)) solChanges
    = bought0 :: boughtRest ->
    (soldRest <> [] \/ boughtRest <> []) ->
    let maxSold := maxBy absItem soldRest sold0 in
    let maxBought := maxBy absItem boughtRest bought0 in
    (In maxSold (sold0 :: soldRest)
     /\ forall x, In x (sold0 :: soldRest) ->
                  JsNum.gtb (absItem x) (absItem maxSold) = false)
    /\ (In maxBought (bought0 :: boughtRest)
        /\ forall x, In x (bought0 :: boughtRest) ->
                     JsNum.gtb (absItem x) (absItem maxBought) = false)
    /\ (isSOLTokenTrade maxSold maxBought = true ->
        parseGenericTransaction tx dex
        = Ok (Some (pairOutcome dex (getHolderAddress tx solChanges)
                      (Some multiNote) maxSold maxBought)))
    /\ (ChangeItem.kind maxSold = TokenItem ->
        ChangeItem.kind maxBought = TokenItem ->
        ChangeItem.mint maxSold <> SOL_MINT /\ ChangeItem.mint maxSold <> "SOL" ->
        ChangeItem.mint maxBought <> SOL_MINT /\ ChangeItem.mint maxBought <> "SOL" ->
        parseGenericTransaction tx dex = Ok None)
    /\ (forall r : Trade.t,
          parseGenericTransaction tx dex = Ok (Some r) ->
          Trade.type r
          = inferTradeType (ChangeItem.mint maxSold) (ChangeItem.mint maxBought)
          /\ TokenRef.mint (Trade.soldToken r) = ChangeItem.mint maxSold
          /\ TokenRef.amount (Trade.soldToken r) = absItem maxSold
          /\ TokenRef.mint (Trade.boughtToken r) = ChangeItem.mint maxBought
          /\ TokenRef.amount (Trade.boughtToken r) = ChangeItem.amount maxBought
          /\ Trade.price r = calculatePrice maxSold maxBought
          /\ Trade.note r = Some multiNote).
Proof.
  intros tx dex solChanges sold0 bought0 soldRest boughtRest
         Hgate Hsol Hswap Han Hsold Hbought Hmany maxSold maxBought.
  assert (Hrun : parseGenericTransaction tx dex
                 = Ok (if isSOLTokenTrade maxSold maxBought
                       then Some (pairOutcome dex (getHolderAddress tx solChanges)
                                    (Some multiNote) maxSold maxBought)
                       else None)).
  { unfold parseGenericTransaction. rewrite Hgate, Hsol. cbn [rbind].
    rewrite Hswap, Han. cbn [rbind]. unfold pairFromAllChanges.
    rewrite Hsold, Hbought. fold maxSold maxBought.
    destruct soldRest as [|s1 soldRest'], boughtRest as [|b1 boughtRest'];
      try reflexivity.
    destruct Hmany as [H|H]; congruence. }
  split.
  { apply maxBy_largest. intros x Hx. rewrite <- Hsold in Hx.
    exact (soldItems_notNaN _ _ _ Hx). }
  split.
  { apply maxBy_largest. intros x Hx. rewrite <- Hbought in Hx.
    exact (boughtItems_notNaN _ _ _ Hx). }
  split; [|split].
  - intro Hok. now rewrite Hrun, Hok.
  - intros Hks Hkb [_ Hs] [_ Hb].
    assert (Hno : isSOLTokenTrade maxSold maxBought = false).
    { unfold isSOLTokenTrade.
      destruct (String.eqb_spec (ChangeItem.mint maxSold) "SOL"); [contradiction|].
      destruct (String.eqb_spec (ChangeItem.mint maxBought) "SOL"); [contradiction|].
      now rewrite andb_false_r. }
    now rewrite Hrun, Hno.
  - intros r Hr. rewrite Hrun in Hr.
    destruct (isSOLTokenTrade maxSold maxBought); [|discriminate].
    injection Hr as <-. repeat split.
Qed.

End RepresentativePair.

Lemma representative_pair_of_many_changes_witness :
  parseGenericTransaction Sample.sameMintShuffle "unknown" = Ok None.
Proof.
  destruct (representative_pair_of_many_changes Sample.sameMintShuffle "unknown"
              _ _ _ _ _ eq_refl eq_refl eq_refl eq_refl eq_refl eq_refl
              (or_introl (fun E => @nil_cons _ _ _ (eq_sym E))))
    as [_ [_ [_ [H _]]]].
  apply H; try reflexivity; split; discriminate.
Defined.

(** C7, as stated, fails: with two negative and two positive significant
    deltas, none of the earlier rules applying, the parser returns [null]
    because the representative pair is a pair of token deltas. *)
Lemma same_mint_shuffle_counterexample :
  exists solChanges s1 s2 b1 b2,
    parseSOLBalanceChanges Sample.sameMintShuffle = Ok solChanges
    /\ soldItemsOf (parseTokenBalanceChanges (Transaction.meta Sample.sameMintShuffle))
         solChanges = [s1; s2]
    /\ boughtItemsOf (parseTokenBalanceChanges (Transaction.meta Sample.sameMintShuffle))
         solChanges = [b1; b2]
    /\ analyzeSOLTokenTrade
         (parseTokenBalanceChanges (Transaction.meta Sample.sameMintShuffle)) solChanges
       = Ok None
    /\ parseGenericTransaction Sample.sameMintShuffle "unknown" = Ok None.
Proof.
  do 5 eexists. split; [reflexivity|]. split; [reflexivity|].
  split; [reflexivity|]. split; reflexivity.
Qed.

(** ** The cache and its callers *)

Section SharingFacts.

Context {V : Type}.

Lemma get_set_same (m : JsMap.t V) (k : string) (v : V) :
  JsMap.get (JsMap.set m k v) k = Some v.
Proof.
  induction m as [|[k' v'] m IH]; simpl.
  - now rewrite String.eqb_refl.
  - destruct (String.eqb_spec k k') as [->|Hne]; simpl.
    + now rewrite String.eqb_refl.
    + destruct (String.eqb_spec k k'); [contradiction | exact IH].
Qed.

Lemma get_set_other (m : JsMap.t V) (k k' : string) (v : V) :
  k <> k' -> JsMap.get (JsMap.set m k' v) k = JsMap.get m k.
Proof.
  intro Hne. induction m as [|[k0 v0] m IH]; simpl.
  - destruct (String.eqb_spec k k'); [contradiction | reflexivity].
  - destruct (String.eqb_spec k' k0) as [->|Hne0]; simpl.
    + destruct (String.eqb_spec k k0); [contradiction | reflexivity].
    + destruct (String.eqb_spec k k0); [reflexivity | exact IH].
Qed.

Lemma get_delete_none (m : JsMap.t V) (k k' : string) :
  JsMap.get m k = None -> JsMap.get (JsMap.delete m k') k = None.
Proof.
  induction m as [|[k0 v0] m IH]; simpl; intro H; [reflexivity|].
  destruct (String.eqb_spec k k0) as [->|Hne]; [discriminate|].
  destruct (String.eqb_spec k' k0) as [->|Hne0]; [exact H|].
  simpl. destruct (String.eqb_spec k k0); [contradiction | now apply IH].
Qed.

End SharingFacts.

Lemma cache_get_after_set {V} (c : SimpleCache.t V) (now : Z) (k : string) (v : V) :
  JsMap.get (SimpleCache.cache (SimpleCache.set now k v c)) k
  = Some (SimpleCache.mkItem v now).
Proof. unfold SimpleCache.set. cbn [SimpleCache.cache]. apply get_set_same. Qed.

Lemma nth_error_updateAt (f : Trade.t -> Trade.t) (h : list Trade.t) :
  forall l, nth_error (updateAt l f h) l = option_map f (nth_error h l).
Proof.
  induction h as [|t h IH]; intros [|l]; simpl; try reflexivity. apply IH.
Qed.

(** What a successful [parseTrade] with caching leaves in the cache. *)
Lemma parseTrade_leaves_entry (env : Env) (signature : string) (options : Options)
    (w w1 : World) (l : loc) :
  useCache options = true ->
  parseTrade env signature options w = (Some l, w1) ->
  exists it,
    JsMap.get (SimpleCache.cache (cache w1)) signature = Some it
    /\ SimpleCache.value it = l.
Proof.
  intros Hc Hrun. unfold parseTrade in Hrun. rewrite Hc in Hrun.
  unfold cacheGet, SimpleCache.get in Hrun.
  destruct (JsMap.get (SimpleCache.cache (cache w)) signature) as [it|] eqn:Hget.
  - destruct (dateNow env (ticks w) - SimpleCache.timestamp it
              >? SimpleCache.ttl (cache w)) eqn:Hexp.
    + (* expired: treated as a miss *)
      cbn [fst snd] in Hrun.
      destruct (catchNull _) as [tradeInfo|] in Hrun; [|discriminate].
      cbn in Hrun. injection Hrun as <- <-.
      eexists. split; [apply cache_get_after_set | reflexivity].
    + injection Hrun as <- <-. exists it. cbn. auto.
  - destruct (catchNull _) as [tradeInfo|] in Hrun; [|discriminate].
    cbn in Hrun. injection Hrun as <- <-.
    eexists. split; [apply cache_get_after_set | reflexivity].
Qed.

(** C9, as amended.  What [parseTrade] returns with caching on is the very
    object that the cache holds for the signature: as long as the entry has
    not expired, a later call returns the same reference, and sees any
    assignment the caller has made through it in the meantime. *)
Theorem cache_hit_returns_the_stored_object :
  forall (env : Env) (signature : string) (options : Options) (w w1 : World)
         (l : loc),
    useCache options = true ->
    parseTrade env signature options w = (Some l, w1) ->
    exists it,
      JsMap.get (SimpleCache.cache (cache w1)) signature = Some it
      /\ SimpleCache.value it = l
      /\ forall f : Trade.t -> Trade.t,
           dateNow env (ticks w1) - SimpleCache.timestamp it
           <= SimpleCache.ttl (cache w1) ->
           exists w2,
             parseTrade env signature options (mutate l f w1) = (Some l, w2)
             /\ deref l w2 = option_map f (deref l w1).
Proof.
  intros env signature options w w1 l Hc Hrun.
  destruct (parseTrade_leaves_entry env signature options w w1 l Hc Hrun)
    as [it [Hget Hval]].
  exists it. split; [exact Hget|]. split; [exact Hval|].
  intros f Hfresh.
  unfold parseTrade. rewrite Hc. unfold cacheGet, SimpleCache.get.
  cbn [mutate cache ticks heap trace]. rewrite Hget.
  assert (E : (dateNow env (ticks w1) - SimpleCache.timestamp it
               >? SimpleCache.ttl (cache w1)) = false).
  { rewrite Z.gtb_ltb. apply Z.ltb_ge. exact Hfresh. }
  rewrite E, Hval. eexists. split; [reflexivity|].
  unfold deref. cbn [heap]. apply nth_error_updateAt.
Qed.

Lemma cache_hit_returns_the_stored_object_witness :
  exists it,
    JsMap.get
      (SimpleCache.cache
         (cache (snd (parseTrade Sample.buyEnv "sig" defaultOptions newWorld))))
      "sig" = Some it
    /\ SimpleCache.value it = 0%nat.
Proof.
  destruct (cache_hit_returns_the_stored_object Sample.buyEnv "sig" defaultOptions
              newWorld (snd (parseTrade Sample.buyEnv "sig" defaultOptions newWorld))
              0%nat eq_refl eq_refl) as [it [Hget [Hval _]]].
  exists it. split; [exact Hget | exact Hval].
Defined.

(** C9, as stated, fails: after a caller has changed the holder of the
    outcome it got from a cache hit, the next read of the same signature
    shows the changed holder. *)
Lemma shared_reference_counterexample :
  exists (l : loc) (w1 w2 w4 : World) (before after : Trade.t),
    parseTrade Sample.buyEnv "sig" defaultOptions newWorld = (Some l, w1)
    /\ parseTrade Sample.buyEnv "sig" defaultOptions w1 = (Some l, w2)
    /\ deref l w2 = Some before
    /\ parseTrade Sample.buyEnv "sig" defaultOptions
         (mutate l (Trade.setHolderAddress (Some "Mallory")) w2) = (Some l, w4)
    /\ deref l w4 = Some after
    /\ Trade.holderAddress before = Some "Wallet"
    /\ Trade.holderAddress after = Some "Mallory"
    /\ after <> before.
Proof.
  do 6 eexists.
  split; [vm_compute; reflexivity|].
  split; [vm_compute; reflexivity|].
  split; [vm_compute; reflexivity|].
  split; [vm_compute; reflexivity|].
  split; [vm_compute; reflexivity|].
  split; [reflexivity|]. split; [reflexivity|]. discriminate.
Qed.

(** ** The batch pipeline *)

Lemma SimpleCache_get_keeps_absent {V} (c c' : SimpleCache.t V) now k k' r :
  SimpleCache.get now k' c = (r, c') ->
  JsMap.get (SimpleCache.cache c) k = None ->
  JsMap.get (SimpleCache.cache c') k = None.
Proof.
  unfold SimpleCache.get. intros H Habs.
  destruct (JsMap.get (SimpleCache.cache c) k') as [it|].
  - destruct (now - SimpleCache.timestamp it >? SimpleCache.ttl c).
    + injection H as _ <-. cbn. now apply get_delete_none.
    + injection H as _ <-. exact Habs.
  - injection H as _ <-. exact Habs.
Qed.

Lemma SimpleCache_set_keeps_absent {V} (c : SimpleCache.t V) now k k' v :
  k <> k' ->
  JsMap.get (SimpleCache.cache c) k = None ->
  JsMap.get (SimpleCache.cache (SimpleCache.set now k' v c)) k = None.
Proof.
  intros Hne Habs. unfold SimpleCache.set. cbn [SimpleCache.cache].
  rewrite get_set_other by exact Hne.
  destruct (Nat.leb _ _); [|exact Habs].
  destruct (JsMap.firstKey _); [|exact Habs].
  now apply get_delete_none.
Qed.

Section FallbackFacts.

Variable env : Env.

(** With the quote service switched off, [parseTrade] makes at most one
    call to the outside: the fetch of its own signature. *)
Lemma parseTrade_trace_without_jupiter (signature : string) (options : Options)
    (w w' : World) (r : option loc) :
  useJupiterAPI options = false ->
  parseTrade env signature options w = (r, w') ->
  trace w' = trace w \/ trace w' = (trace w ++ [FetchOne signature])%list.
Proof.
  intros Hj Hrun. unfold parseTrade in Hrun. rewrite Hj in Hrun.
  destruct (useCache options).
  - unfold cacheGet in Hrun.
    destruct (SimpleCache.get _ signature (cache w)) as [hit c].
    destruct hit as [l|].
    + injection Hrun as _ <-. now left.
    + cbn [logEvents app trace] in Hrun.
      destruct (catchNull _) as [tradeInfo|] in Hrun.
      * cbn in Hrun. injection Hrun as _ <-. now right.
      * injection Hrun as _ <-. now right.
  - cbn [logEvents app trace] in Hrun.
    destruct (catchNull _) as [tradeInfo|] in Hrun.
    + cbn in Hrun. injection Hrun as _ <-. now right.
    + injection Hrun as _ <-. now right.
Qed.

(** A signature that is not cached and cannot be fetched yields nothing,
    and stays out of the cache. *)
Lemma parseTrade_unfetchable (signature : string) (options : Options) (w : World) :
  getParsedTransaction env signature = None ->
  JsMap.get (SimpleCache.cache (cache w)) signature = None ->
  fst (parseTrade env signature options w) = None
  /\ JsMap.get (SimpleCache.cache (cache (snd (parseTrade env signature options w))))
       signature = None.
Proof.
  intros Hfetch Habs. unfold parseTrade, cacheGet, SimpleCache.get.
  rewrite Habs, Hfetch.
  assert (Hres : forall j, catchNull (resolveTrade signature j None) = None).
  { intros [j|]; reflexivity. }
  rewrite Hres.
  destruct (useCache options); cbn; auto.
Qed.

(** Parsing another signature does not bring an absent one into the
    cache. *)
Lemma parseTrade_keeps_absent (signature other : string) (options : Options)
    (w : World) :
  signature <> other ->
  JsMap.get (SimpleCache.cache (cache w)) signature = None ->
  JsMap.get (SimpleCache.cache (cache (snd (parseTrade env other options w))))
    signature = None.
Proof.
  intros Hne Habs. unfold parseTrade.
  destruct (useCache options).
  - unfold cacheGet.
    destruct (SimpleCache.get (dateNow env (ticks w)) other (cache w))
      as [hit c] eqn:Hget.
    pose proof (SimpleCache_get_keeps_absent _ _ _ signature _ _ Hget Habs) as Hc.
    destruct hit as [l|]; [exact Hc|].
    destruct (catchNull _) as [tradeInfo|]; [|exact Hc].
    cbn. now apply SimpleCache_set_keeps_absent.
  - destruct (catchNull _) as [tradeInfo|]; cbn; exact Habs.
Qed.

Lemma parseTradeInfoInternal_world (signature : string) (w : World) :
  snd (parseTradeInfoInternal env signature w)
  = snd (parseTrade env signature internalOptions w).
Proof.
  unfold parseTradeInfoInternal.
  destruct (parseTrade env signature internalOptions w) as [[l|] w1]; cbn;
    [destruct (deref l w1)|]; reflexivity.
Qed.

Lemma parseTradeInfoInternal_none (signature : string) (w : World) :
  fst (parseTrade env signature internalOptions w) = None ->
  fst (parseTradeInfoInternal env signature w) = None.
Proof.
  unfold parseTradeInfoInternal.
  destruct (parseTrade env signature internalOptions w) as [[l|] w1]; cbn;
    [discriminate | reflexivity].
Qed.

Lemma has_record_other (results : JsMap.t TradeInfo.t) (signature other : string)
    (tradeInfo : option TradeInfo.t) :
  signature <> other ->
  JsMap.has (record results other tradeInfo) signature = JsMap.has results signature.
Proof.
  intro Hne. unfold record, JsMap.has. destruct tradeInfo; [|reflexivity].
  now rewrite get_set_other.
Qed.

Lemma has_record (results : JsMap.t TradeInfo.t) (signature other : string)
    (tradeInfo : option TradeInfo.t) :
  JsMap.has (record results other tradeInfo) signature = true ->
  JsMap.has results signature = true \/ signature = other.
Proof.
  destruct (string_dec signature other) as [->|Hne]; [now right|].
  rewrite has_record_other by exact Hne. now left.
Qed.

End FallbackFacts.


(** ** The fallback of the batch pipeline *)

Section FallbackPhases.

Variable env : Env.




(** *** The first part *)






(** *** The second part *)




(** *** The first phase *)







(** *** The second phase *)





(** *** The two phases together *)


End FallbackPhases.





(* ================================================================== *)
(** * Further properties of the code *)
(* ================================================================== *)

Section MapMore.

Context {V : Type}.

Lemma size_set_le (m : JsMap.t V) (k : string) (v : V) :
  (JsMap.size (JsMap.set m k v) <= S (JsMap.size m))%nat.
Proof.
  unfold JsMap.size. induction m as [|[k' v'] m IH]; simpl; [lia|].
  destruct (String.eqb k k'); simpl; lia.
Qed.

Lemma size_set_present (m : JsMap.t V) (k : string) (v : V) :
  JsMap.has m k = true -> JsMap.size (JsMap.set m k v) = JsMap.size m.
Proof.
  unfold JsMap.size, JsMap.has. induction m as [|[k' v'] m IH]; simpl.
  - discriminate.
  - destruct (String.eqb k k'); simpl; [reflexivity|].
    intro H. now rewrite IH.
Qed.

Lemma has_In_keys (m : JsMap.t V) (k : string) :
  JsMap.has m k = true <-> In k (JsMap.keys m).
Proof.
  unfold JsMap.has. induction m as [|[k' v'] m IH]; simpl.
  - split; [discriminate | intros []].
  - destruct (String.eqb_spec k k') as [->|Hne].
    + split; auto.
    + rewrite IH. split; [auto | intros [E|H]; [congruence | exact H]].
Qed.

Lemma keys_set_present (m : JsMap.t V) (k : string) (v : V) :
  In k (JsMap.keys m) -> JsMap.keys (JsMap.set m k v) = JsMap.keys m.
Proof.
  induction m as [|[k' v'] m IH]; simpl; [intros []|].
  destruct (String.eqb_spec k k') as [->|Hne]; [reflexivity|].
  intros [E|H]; [congruence|]. simpl. f_equal. now apply IH.
Qed.

Lemma NoDup_keys_set (m : JsMap.t V) (k : string) (v : V) :
  NoDup (JsMap.keys m) -> NoDup (JsMap.keys (JsMap.set m k v)).
Proof.
  intro H. destruct (in_dec string_dec k (JsMap.keys m)) as [Hin|Hout].
  - now rewrite keys_set_present.
  - rewrite keys_set_fresh by exact Hout.
    apply NoDup_app; [exact H | repeat constructor; intros [] |].
    intros x Hx [<-|[]]. contradiction.
Qed.

Lemma keys_delete_incl (m : JsMap.t V) (k x : string) :
  In x (JsMap.keys (JsMap.delete m k)) -> In x (JsMap.keys m).
Proof.
  induction m as [|[k' v'] m IH]; simpl; [auto|].
  destruct (String.eqb k k'); simpl; [auto|]. intros [E|H]; auto.
Qed.

Lemma NoDup_keys_delete (m : JsMap.t V) (k : string) :
  NoDup (JsMap.keys m) -> NoDup (JsMap.keys (JsMap.delete m k)).
Proof.
  induction m as [|[k' v'] m IH]; simpl; intro H; [constructor|].
  inversion H as [|? ? Hnotin Hnd]; subst.
  destruct (String.eqb k k'); [exact Hnd|]. simpl. constructor.
  - intro Hin. apply Hnotin. exact (keys_delete_incl _ _ _ Hin).
  - now apply IH.
Qed.

Lemma has_delete_same (m : JsMap.t V) (k : string) :
  NoDup (JsMap.keys m) -> JsMap.has (JsMap.delete m k) k = false.
Proof.
  intro Hnd. apply not_true_is_false. rewrite has_In_keys.
  induction m as [|[k' v'] m IH]; simpl; [intros []|].
  inversion Hnd as [|? ? Hnotin Hnd']; subst.
  destruct (String.eqb_spec k k') as [->|Hne]; [exact Hnotin|].
  simpl. intros [E|H]; [congruence | now apply IH].
Qed.

Lemma size_delete_present (m : JsMap.t V) (k : string) :
  JsMap.has m k = true -> JsMap.size (JsMap.delete m k) = pred (JsMap.size m).
Proof.
  unfold JsMap.size, JsMap.has. induction m as [|[k' v'] m IH]; simpl.
  - discriminate.
  - destruct (String.eqb k k'); simpl; [reflexivity|].
    intro H. rewrite IH by exact H.
    destruct m as [|[k2 v2] m]; simpl in *; [discriminate | reflexivity].
Qed.

End MapMore.

Section CacheMore.

Context {V : Type}.

(** The bound that [set] keeps: the capacity, or one entry when the capacity
    is zero. *)
Lemma size_after_set (c : SimpleCache.t V) (now : Z) (k : string) (v : V) :
  (JsMap.size (SimpleCache.cache c) <= Nat.max (SimpleCache.maxSize c) 1)%nat ->
  (JsMap.size (SimpleCache.cache (SimpleCache.set now k v c))
   <= Nat.max (SimpleCache.maxSize c) 1)%nat.
Proof.
  intro Hb. unfold SimpleCache.set. cbn [SimpleCache.cache].
  destruct (Nat.leb (SimpleCache.maxSize c) (JsMap.size (SimpleCache.cache c))) eqn:E.
  - apply Nat.leb_le in E.
    destruct (SimpleCache.cache c) as [|[k0 it0] rest] eqn:Hc; cbn [JsMap.firstKey].
    + pose proof (size_set_le (@nil (string * SimpleCache.item V)) k
                    (SimpleCache.mkItem v now)) as H.
      unfold JsMap.size in *. simpl in *. lia.
    + rewrite delete_head.
      pose proof (size_set_le rest k (SimpleCache.mkItem v now)) as H.
      unfold JsMap.size in *. simpl in *. lia.
  - apply Nat.leb_gt in E.
    pose proof (size_set_le (SimpleCache.cache c) k (SimpleCache.mkItem v now)) as H.
    lia.
Qed.

Lemma NoDup_after_set (c : SimpleCache.t V) (now : Z) (k : string) (v : V) :
  NoDup (JsMap.keys (SimpleCache.cache c)) ->
  NoDup (JsMap.keys (SimpleCache.cache (SimpleCache.set now k v c))).
Proof.
  intro H. unfold SimpleCache.set. cbn [SimpleCache.cache].
  apply NoDup_keys_set.
  destruct (Nat.leb _ _); [|exact H].
  destruct (JsMap.firstKey _); [|exact H].
  now apply NoDup_keys_delete.
Qed.

(** X1.  However many entries are written into a new [SimpleCache], and
    whatever their keys, the cache never holds more entries than its
    capacity (one entry when the capacity is zero). *)
Theorem cache_size_never_exceeds_capacity :
  forall (N : nat) (ttl : Z) (ops : list (Z * string * V)),
    (JsMap.size (SimpleCache.cache (SimpleCache.setAll ops (SimpleCache.create N ttl)))
     <= Nat.max N 1)%nat.
Proof.
  intros N ttl ops.
  assert (H : forall c : SimpleCache.t V,
             (JsMap.size (SimpleCache.cache c) <= Nat.max (SimpleCache.maxSize c) 1)%nat ->
             (JsMap.size (SimpleCache.cache (SimpleCache.setAll ops c))
              <= Nat.max (SimpleCache.maxSize c) 1)%nat).
  { induction ops as [|[[now k] v] ops IH]; intros c Hc; [exact Hc|].
    cbn [SimpleCache.setAll].
    specialize (IH (SimpleCache.set now k v c)). rewrite maxSize_set in IH.
    apply IH. now apply size_after_set. }
  apply (H (SimpleCache.create N ttl)). unfold JsMap.size. simpl. lia.
Qed.

(** X2.  Reading a key that has just been written: while no more than [ttl]
    milliseconds have passed since the write, [get] returns the value and
    leaves the cache as it is; once more than [ttl] have passed, [get]
    returns [null], the key is gone and the cache holds one entry less. *)
Theorem cache_get_after_set_respects_ttl :
  forall (c : SimpleCache.t V) (t0 t1 : Z) (k : string) (v : V),
    NoDup (JsMap.keys (SimpleCache.cache c)) ->
    let c1 := SimpleCache.set t0 k v c in
    (t1 - t0 <= SimpleCache.ttl c -> SimpleCache.get t1 k c1 = (Some v, c1))
    /\ (SimpleCache.ttl c < t1 - t0 ->
        fst (SimpleCache.get t1 k c1) = None
        /\ JsMap.has (SimpleCache.cache (snd (SimpleCache.get t1 k c1))) k = false
        /\ JsMap.size (SimpleCache.cache (snd (SimpleCache.get t1 k c1)))
           = pred (JsMap.size (SimpleCache.cache c1))).
Proof.
  intros c t0 t1 k v Hnd c1.
  assert (Hget : JsMap.get (SimpleCache.cache c1) k = Some (SimpleCache.mkItem v t0))
    by apply cache_get_after_set.
  assert (Hnd1 : NoDup (JsMap.keys (SimpleCache.cache c1)))
    by now apply NoDup_after_set.
  unfold SimpleCache.get. rewrite Hget. cbn [SimpleCache.timestamp SimpleCache.value].
  change (SimpleCache.ttl c1) with (SimpleCache.ttl c).
  split; intro Ht.
  - replace (t1 - t0 >? SimpleCache.ttl c) with false; [reflexivity|].
    symmetry. rewrite Z.gtb_ltb. now apply Z.ltb_ge.
  - replace (t1 - t0 >? SimpleCache.ttl c) with true.
    2:{ symmetry. rewrite Z.gtb_ltb. now apply Z.ltb_lt. }
    cbn [fst snd SimpleCache.cache]. split; [reflexivity|]. split.
    + now apply has_delete_same.
    + apply size_delete_present. unfold JsMap.has. now rewrite Hget.
Qed.

(** X3.  Writing a key that is already cached, in a cache that is full,
    still evicts the oldest entry: the cache shrinks by one although no new
    key came in. *)
Theorem cache_update_at_capacity_evicts :
  forall (c : SimpleCache.t V) (now : Z) (k : string) (v : V)
         (k0 : string) (it0 : SimpleCache.item V)
         (rest : JsMap.t (SimpleCache.item V)),
    SimpleCache.cache c = (k0, it0) :: rest ->
    (SimpleCache.maxSize c <= JsMap.size (SimpleCache.cache c))%nat ->
    NoDup (JsMap.keys (SimpleCache.cache c)) ->
    JsMap.has rest k = true ->
    JsMap.has (SimpleCache.cache (SimpleCache.set now k v c)) k0 = false
    /\ JsMap.size (SimpleCache.cache (SimpleCache.set now k v c))
       = pred (JsMap.size (SimpleCache.cache c))
    /\ JsMap.get (SimpleCache.cache (SimpleCache.set now k v c)) k
       = Some (SimpleCache.mkItem v now).
Proof.
  intros c now k v k0 it0 rest Hc Hfull Hnd Hk.
  rewrite (set_full c now k v k0 it0 rest Hc Hfull).
  rewrite Hc in Hnd. simpl in Hnd. inversion Hnd as [|? ? Hnotin Hnd']; subst.
  split; [|split].
  - apply not_true_is_false. rewrite has_In_keys.
    rewrite keys_set_present by (now apply has_In_keys). exact Hnotin.
  - rewrite size_set_present by exact Hk. rewrite Hc. reflexivity.
  - apply get_set_same.
Qed.

End CacheMore.

Section TokenExtractorFacts.

Local Open Scope Q_scope.

Lemma wellKeyed_set (m : JsMap.t TokenChange.t) (v : TokenChange.t) :
  wellKeyed m -> goodTokenChange v -> wellKeyed (JsMap.set m (changeKey v) v).
Proof.
  intros [Hnd Hall] Hv. split.
  - now apply NoDup_keys_set.
  - intros k' v' Hin. destruct (In_set _ _ _ _ _ Hin) as [E|H].
    + inversion E; subst. split; [reflexivity | exact Hv].
    + now apply Hall.
Qed.

Lemma balanceKey_spec (b : TokenBalance.t) key owner mint :
  balanceKey b = Some (key, owner, mint) ->
  key = (owner ++ "-" ++ mint)%string
  /\ JsString.truthy owner = true /\ JsString.truthy mint = true
  /\ TokenBalance.owner b = Some owner /\ TokenBalance.mint b = Some mint.
Proof.
  unfold balanceKey.
  destruct (TokenBalance.owner b) as [o|]; [|discriminate].
  destruct (TokenBalance.mint b) as [m|]; [|discriminate].
  destruct (JsString.truthy o) eqn:Ho; [|discriminate].
  destruct (JsString.truthy m) eqn:Hm; [|discriminate].
  cbn [andb]. intro E. inversion E; subst. auto.
Qed.

Lemma gtb_dust_abs (q : Q) :
  JsNum.gtb (Fin q) tokenDust = true ->
  JsNum.gtb (JsNum.abs (Fin q)) tokenDust = true
  /\ JsNum.gtb (JsNum.abs (JsNum.neg (Fin q))) tokenDust = true.
Proof.
  unfold JsNum.gtb, tokenDust. cbn [JsNum.ltb JsNum.abs JsNum.neg].
  rewrite !Qltb_lt. intro H.
  assert (Hpos : 0 <= q).
  { apply Qlt_le_weak. eapply Qlt_trans; [|exact H]. reflexivity. }
  rewrite Qabs_opp, Qabs_pos by exact Hpos. auto.
Qed.

Lemma changedStep_wellKeyed preMap m post :
  wellKeyed m -> wellKeyed (changedStep preMap m post).
Proof.
  intro Hm. unfold changedStep.
  destruct (balanceKey post) as [[[key owner] mint]|] eqn:Hk; [|exact Hm].
  destruct (balanceKey_spec _ _ _ _ Hk) as [-> [Ho [Hmi _]]].
  match goal with |- context [if ?c then _ else _] => destruct c eqn:Hc end;
    [|exact Hm].
  match goal with |- wellKeyed (JsMap.set _ _ ?v) =>
    apply (wellKeyed_set m v Hm) end.
  repeat split; assumption.
Qed.

Lemma vanishedStep_wellKeyed postMap m pre :
  wellKeyed m -> wellKeyed (vanishedStep postMap m pre).
Proof.
  intro Hm. unfold vanishedStep.
  destruct (balanceKey pre) as [[[key owner] mint]|] eqn:Hk; [|exact Hm].
  destruct (balanceKey_spec _ _ _ _ Hk) as [-> [Ho [Hmi _]]].
  destruct (JsNum.gtb (Fin (uiAmountOf pre)) tokenDust) eqn:Hc; [|exact Hm].
  cbn [andb].
  match goal with |- context [if ?c then _ else _] => destruct c end; [|exact Hm].
  match goal with |- context [if ?c then _ else _] => destruct c end; [|exact Hm].
  match goal with |- wellKeyed (JsMap.set _ _ ?v) =>
    apply (wellKeyed_set m v Hm) end.
  repeat split; try assumption. apply (gtb_dust_abs _ Hc).
Qed.

Lemma createdStep_wellKeyed preMap m post :
  wellKeyed m -> wellKeyed (createdStep preMap m post).
Proof.
  intro Hm. unfold createdStep.
  destruct (balanceKey post) as [[[key owner] mint]|] eqn:Hk; [|exact Hm].
  destruct (balanceKey_spec _ _ _ _ Hk) as [-> [Ho [Hmi _]]].
  destruct (JsNum.gtb (Fin (uiAmountOf post)) tokenDust) eqn:Hc; [|exact Hm].
  cbn [andb].
  match goal with |- context [if ?c then _ else _] => destruct c end; [|exact Hm].
  match goal with |- context [if ?c then _ else _] => destruct c end; [|exact Hm].
  match goal with |- wellKeyed (JsMap.set _ _ ?v) =>
    apply (wellKeyed_set m v Hm) end.
  repeat split; try assumption. apply (gtb_dust_abs _ Hc).
Qed.

Lemma fold_wellKeyed {A} (step : JsMap.t TokenChange.t -> A -> JsMap.t TokenChange.t)
    (xs : list A) :
  (forall m x, wellKeyed m -> wellKeyed (step m x)) ->
  forall m, wellKeyed m -> wellKeyed (fold_left step xs m).
Proof.
  intro Hstep. induction xs as [|x xs IH]; intros m Hm; simpl; auto.
Qed.

(** X4.  Every token delta that [parseTokenBalanceChanges] emits has a
    non-empty owner and mint and a change of more than 0.000001 in
    magnitude, and no two deltas share the same owner-and-mint key. *)
Theorem token_deltas_are_significant_and_deduplicated :
  forall (meta : option Meta.t),
    (forall c, In c (parseTokenBalanceChanges meta) -> goodTokenChange c)
    /\ NoDup (List.map changeKey (parseTokenBalanceChanges meta)).
Proof.
  intro meta.
  assert (Hempty : wellKeyed (@JsMap.empty TokenChange.t)).
  { split; [constructor | intros k v []]. }
  assert (Hvalues : forall m, wellKeyed m ->
            (forall c, In c (JsMap.values m) -> goodTokenChange c)
            /\ NoDup (List.map changeKey (JsMap.values m))).
  { intros m [Hnd Hall]. split.
    - intros c Hin. unfold JsMap.values in Hin. apply in_map_iff in Hin.
      destruct Hin as [[k v] [<- Hin]]. exact (proj2 (Hall k v Hin)).
    - unfold JsMap.values, JsMap.keys in *. rewrite map_map.
      erewrite map_ext_in; [exact Hnd|].
      intros [k v] Hin. simpl. symmetry. exact (proj1 (Hall k v Hin)). }
  unfold parseTokenBalanceChanges.
  destruct meta as [m|]; [|split; [intros c []|constructor]].
  assert (Hgo : wellKeyed
            (fold_left (createdStep (balanceMap (orEmpty (Meta.preTokenBalances m))))
               (orEmpty (Meta.postTokenBalances m))
               (fold_left (vanishedStep (balanceMap (orEmpty (Meta.postTokenBalances m))))
                  (orEmpty (Meta.preTokenBalances m))
                  (fold_left (changedStep (balanceMap (orEmpty (Meta.preTokenBalances m))))
                     (orEmpty (Meta.postTokenBalances m)) JsMap.empty)))).
  { apply fold_wellKeyed; [intros; now apply createdStep_wellKeyed|].
    apply fold_wellKeyed; [intros; now apply vanishedStep_wellKeyed|].
    apply fold_wellKeyed; [intros; now apply changedStep_wellKeyed|].
    exact Hempty. }
  destruct (Meta.postTokenBalances m), (Meta.preTokenBalances m);
    try (apply Hvalues; exact Hgo).
  split; [intros c []|constructor].
Qed.

End TokenExtractorFacts.

Section UnchangedBalances.

Local Open Scope Q_scope.

Lemma balanceMap_fold (bs : list TokenBalance.t) :
  balanceMap bs = fold_left balanceStep bs JsMap.empty.
Proof. reflexivity. Qed.

Lemma get_fold_balance_other (bs : list TokenBalance.t) (k : string) :
  ~ In k (balanceKeys bs) ->
  forall m, JsMap.get (fold_left balanceStep bs m) k = JsMap.get m k.
Proof.
  induction bs as [|x bs IH]; intros Hk m; simpl; [reflexivity|].
  unfold balanceKeys in Hk. simpl in Hk. rewrite IH.
  - unfold balanceStep. destruct (balanceKey x) as [[[kx ox] mx]|]; [|reflexivity].
    apply get_set_other. intro E. apply Hk. apply in_or_app. left. simpl. auto.
  - intro Hin. apply Hk. apply in_or_app. now right.
Qed.

Lemma get_balanceMap (bs : list TokenBalance.t) :
  NoDup (balanceKeys bs) ->
  forall b key owner mint,
    In b bs -> balanceKey b = Some (key, owner, mint) ->
    JsMap.get (balanceMap bs) key = Some b.
Proof.
  rewrite balanceMap_fold. generalize (@JsMap.empty TokenBalance.t).
  induction bs as [|x bs IH]; intros m0 Hnd b key owner mint Hin Hk; [destruct Hin|].
  simpl. unfold balanceKeys in Hnd. simpl in Hnd.
  destruct Hin as [->|Hin].
  - rewrite Hk in Hnd. simpl in Hnd. inversion Hnd as [|? ? Hnotin _]; subst.
    rewrite get_fold_balance_other by exact Hnotin.
    unfold balanceStep. rewrite Hk. apply get_set_same.
  - apply (IH _ (NoDup_app_remove_l _ _ Hnd) b key owner mint Hin Hk).
Qed.

Lemma not_significant_zero (a : Q) :
  JsNum.gtb (JsNum.abs (JsNum.sub (Fin a) (Fin a))) tokenDust = false.
Proof.
  unfold JsNum.gtb, JsNum.sub, tokenDust. cbn [JsNum.neg JsNum.add JsNum.abs JsNum.ltb].
  apply Qltb_ge. rewrite Qplus_opp_r. discriminate.
Qed.

Lemma fold_id {A B} (step : B -> A -> B) (xs : list A) (m : B) :
  (forall x, In x xs -> step m x = m) -> fold_left step xs m = m.
Proof.
  induction xs as [|x xs IH]; intro H; simpl; [reflexivity|].
  rewrite (H x) by now left. apply IH. intros y Hy. apply H. now right.
Qed.

(** X5.  When the token balances after the transaction are the same list as
    before, and no two entries share owner and mint, [parseTokenBalanceChanges]
    emits nothing. *)
Theorem unchanged_token_balances_give_no_delta :
  forall (meta : Meta.t) (bs : list TokenBalance.t),
    Meta.preTokenBalances meta = Some bs ->
    Meta.postTokenBalances meta = Some bs ->
    NoDup (balanceKeys bs) ->
    parseTokenBalanceChanges (Some meta) = [].
Proof.
  intros meta bs Hpre Hpost Hnd. unfold parseTokenBalanceChanges.
  rewrite Hpre, Hpost. cbn [orEmpty].
  assert (H1 : fold_left (changedStep (balanceMap bs)) bs JsMap.empty = JsMap.empty).
  { apply fold_id. intros b Hin. unfold changedStep.
    destruct (balanceKey b) as [[[key owner] mint]|] eqn:Hk; [|reflexivity].
    rewrite (get_balanceMap bs Hnd b key owner mint Hin Hk).
    now rewrite not_significant_zero. }
  rewrite H1.
  assert (H2 : fold_left (vanishedStep (balanceMap bs)) bs JsMap.empty = JsMap.empty).
  { apply fold_id. intros b Hin. unfold vanishedStep.
    destruct (balanceKey b) as [[[key owner] mint]|] eqn:Hk; [|reflexivity].
    rewrite (get_balanceMap bs Hnd b key owner mint Hin Hk).
    cbn [orb].
    destruct (JsNum.gtb (Fin (uiAmountOf b)) tokenDust) eqn:Hg; [|reflexivity].
    assert (Hl : JsNum.ltb (Fin (uiAmountOf b)) tokenDust = false).
    { unfold JsNum.gtb in Hg. cbn [JsNum.ltb tokenDust] in *.
      apply Qltb_lt in Hg. apply Qltb_ge. now apply Qlt_le_weak. }
    now rewrite Hl. }
  rewrite H2.
  assert (H3 : fold_left (createdStep (balanceMap bs)) bs JsMap.empty = JsMap.empty).
  { apply fold_id. intros b Hin. unfold createdStep.
    destruct (balanceKey b) as [[[key owner] mint]|] eqn:Hk; [|reflexivity].
    rewrite (get_balanceMap bs Hnd b key owner mint Hin Hk).
    now rewrite andb_false_r. }
  now rewrite H3.
Qed.

End UnchangedBalances.

Section SolExtractorMore.

(** X6.  [parseSOLBalanceChanges] raises exactly when the record has no
    [transaction] part, or has [postBalances] but no message, or has a
    non-empty [postBalances] but no [preBalances]. *)
Theorem sol_extractor_raises_exactly_when :
  forall tx : Transaction.t,
    (exists e, parseSOLBalanceChanges tx = Throw e)
    <-> (Transaction.transaction tx = None
         \/ exists td meta post,
              Transaction.transaction tx = Some td
              /\ Transaction.meta tx = Some meta
              /\ Meta.postBalances meta = Some post
              /\ (TxData.message td = None
                  \/ (post <> [] /\ Meta.preBalances meta = None))).
Proof.
  intro tx. unfold parseSOLBalanceChanges, parseSOLBalanceChangesIndexed.
  destruct (Transaction.transaction tx) as [td|] eqn:Htd; cbn [rbind mustBeDefined].
  2:{ split; [auto | intros _; eexists; reflexivity]. }
  destruct (Transaction.meta tx) as [meta|] eqn:Hmeta.
  2:{ cbn [rbind]. split; [intros [e H]; discriminate|].
      intros [H|[td' [meta' [post [_ [H _]]]]]]; discriminate. }
  destruct (Meta.postBalances meta) as [post|] eqn:Hpost.
  2:{ cbn [rbind]. split; [intros [e H]; discriminate|].
      intros [H|[td' [meta' [post [_ [Hm [Hp _]]]]]]]; [discriminate|].
      inversion Hm; subst. congruence. }
  destruct (TxData.message td) as [message|] eqn:Hmsg; cbn [rbind mustBeDefined].
  2:{ split; [|intros _; eexists; reflexivity].
      intros _. right. exists td, meta, post. auto. }
  destruct post as [|q post].
  { cbn [rbind]. split; [intros [e H]; discriminate|].
    intros [H|[td' [meta' [post' [Ht [Hm [Hp [Hn|[Hne _]]]]]]]]]; [discriminate| |].
    - inversion Ht; subst. congruence.
    - inversion Hm; subst. rewrite Hpost in Hp. inversion Hp; subst. congruence. }
  destruct (Meta.preBalances meta) as [pre|] eqn:Hpre; cbn [rbind mustBeDefined].
  - split; [intros [e H]; discriminate|].
    intros [H|[td' [meta' [post' [Ht [Hm [Hp [Hn|[_ Hn]]]]]]]]]; [discriminate| |].
    + inversion Ht; subst. congruence.
    + inversion Hm; subst. congruence.
  - split; [|intros _; eexists; reflexivity].
    intros _. right. exists td, meta, (q :: post).
    split; [reflexivity|]. split; [reflexivity|]. split; [exact Hpost|].
    right. split; [discriminate | exact Hpre].
Qed.

Lemma parseSOLBalanceChangesIndexed_explicit
    (tx : Transaction.t) (td : TxData.t) (message : Message.t) (meta : Meta.t)
    (pre post : list Z) :
  Transaction.transaction tx = Some td ->
  TxData.message td = Some message ->
  Transaction.meta tx = Some meta ->
  Meta.preBalances meta = Some pre ->
  Meta.postBalances meta = Some post ->
  parseSOLBalanceChangesIndexed tx
  = Ok (solLoop message
          (orEmpty (Message.accountKeys message)
           ++ List.map AccountKey.Str (loadedAddressesOf meta))%list
          (loadedAddressesOf meta) (signerEndIndexOf message) pre O post).
Proof.
  intros Htd Hmsg Hmeta Hpre Hpost.
  unfold parseSOLBalanceChangesIndexed.
  rewrite Htd. cbn [rbind mustBeDefined].
  rewrite Hmeta, Hpost, Hmsg. cbn [rbind mustBeDefined].
  rewrite Hpre. destruct post; reflexivity.
Qed.

(** X7.  How [parseSOLBalanceChanges] fills an emitted record.  The change is
    the lamport difference divided by 1e9.  On a plain-string account key the
    account is that string, the signer flag is
    [index < numRequiredSignatures] and the record is never writable; on an
    object key the signer flag is the key's own; a position that falls into
    the loaded addresses takes its address from there and is not a signer. *)
Theorem sol_delta_fields :
  forall (tx : Transaction.t) (td : TxData.t) (message : Message.t) (meta : Meta.t)
         (pre post : list Z) (changes : list (nat * SolChange.t))
         (i : nat) (e : SolChange.t),
    Transaction.transaction tx = Some td ->
    TxData.message td = Some message ->
    Transaction.meta tx = Some meta ->
    Meta.preBalances meta = Some pre ->
    Meta.postBalances meta = Some post ->
    parseSOLBalanceChangesIndexed tx = Ok changes ->
    In (i, e) changes ->
    let keys := orEmpty (Message.accountKeys message) in
    let n := signerEndIndexOf message in
    (forall p q, nth_error pre i = Some p -> nth_error post i = Some q ->
                 SolChange.change e
                 = Fin ((inject_Z q + - inject_Z p) / lamportsPerSol)%Q)
    /\ (forall s, nth_error keys i = Some (AccountKey.Str s) ->
                  JsString.truthy s = true ->
                  SolChange.account e = s
                  /\ SolChange.isSigner e = Nat.ltb i n
                  /\ SolChange.isWritable e = false)
    /\ (forall pubkey b writable,
          nth_error keys i = Some (AccountKey.Obj pubkey (Some b) writable) ->
          SolChange.isSigner e = b)
    /\ ((List.length keys <= i)%nat ->
        (i - List.length keys < List.length (loadedAddressesOf meta))%nat ->
        (n <= List.length keys)%nat ->
        SolChange.account e = nth (i - List.length keys) (loadedAddressesOf meta) ""
        /\ SolChange.isSigner e = false).
Proof.
  intros tx td message meta pre post changes i e Htd Hmsg Hmeta Hpre Hpost Hrun Hin
         keys n.
  rewrite (parseSOLBalanceChangesIndexed_explicit tx td message meta pre post
             Htd Hmsg Hmeta Hpre Hpost) in Hrun.
  injection Hrun as <-. apply solLoop_spec in Hin.
  destruct Hin as [_ [q [Hq [_ He]]]]. rewrite Nat.sub_0_r in Hq.
  fold keys in He. fold n in He.
  split; [|split; [|split]].
  - intros p q' Hp Hq'. rewrite Hq in Hq'. injection Hq' as <-.
    rewrite He, Hp. unfold solEntry.
    destruct (match nth_error _ i with Some _ => _ | None => _ end) as [[s|pk sg wr]|];
      [| |destruct (_ && _)%bool]; reflexivity.
  - intros s Hs Ht. rewrite He. unfold solEntry.
    rewrite nth_error_app1 by (apply nth_error_Some; congruence).
    rewrite Hs. cbn [AccountKey.truthy]. rewrite Ht. auto.
  - intros pubkey b writable Hk. rewrite He. unfold solEntry.
    rewrite nth_error_app1 by (apply nth_error_Some; congruence).
    rewrite Hk. reflexivity.
  - intros Hlen Hload Hn. rewrite He. unfold solEntry.
    rewrite nth_error_app2 by exact Hlen.
    rewrite nth_error_map.
    destruct (nth_error (loadedAddressesOf meta) (i - List.length keys)) as [a|] eqn:Ha.
    2:{ apply nth_error_None in Ha. lia. }
    cbn [option_map AccountKey.truthy].
    assert (Hlt : Nat.ltb i n = false) by (apply Nat.ltb_ge; lia).
    assert (Hnth : nth (i - List.length keys) (loadedAddressesOf meta) "" = a)
      by (now apply nth_error_nth).
    destruct (JsString.truthy a) eqn:Hta.
    + cbn -[Nat.ltb Nat.leb nth JsNum.div JsNum.sub]. rewrite Hlt, Hnth. auto.
    + fold keys.
      assert (E1 : Nat.leb (List.length keys) i = true) by now apply Nat.leb_le.
      assert (E2 : Nat.ltb (i - List.length keys)
                     (List.length (loadedAddressesOf meta)) = true)
        by now apply Nat.ltb_lt.
      rewrite E1, E2. cbn -[Nat.ltb Nat.leb nth JsNum.div JsNum.sub]. auto.
Qed.

End SolExtractorMore.

Section AnalyzeFacts.

Lemma maxBy_In {A} (key : A -> jsnum) (xs : list A) :
  forall first, In (maxBy key xs first) (first :: xs).
Proof.
  unfold maxBy. induction xs as [|y xs IH]; intro first; simpl; [now left|].
  specialize (IH (if JsNum.gtb (key y) (key first) then y else first)).
  simpl in IH. destruct IH as [E|H]; [|now right; right].
  rewrite <- E. destruct (JsNum.gtb (key y) (key first)); auto.
Qed.

Lemma get_In {V} (m : JsMap.t V) (k : string) (v : V) :
  JsMap.get m k = Some v -> exists k', In (k', v) m.
Proof.
  induction m as [|[k0 v0] m IH]; simpl; [discriminate|].
  destruct (String.eqb k k0).
  - intro E. injection E as <-. exists k0. now left.
  - intro H. destruct (IH H) as [k' Hin]. exists k'. now right.
Qed.

Lemma isSignificantToken_nonNative (c : TokenChange.t) :
  isSignificantToken c = true -> nonNativeMint (TokenChange.mint c).
Proof.
  unfold isSignificantToken, nonNativeMint.
  destruct (String.eqb_spec (TokenChange.mint c) SOL_MINT); [discriminate|].
  destruct (String.eqb_spec (TokenChange.mint c) "SOL"); [discriminate|]. auto.
Qed.

Lemma maxBy_In_self {A} (key : A -> jsnum) (xs : list A) (first : A) :
  In first xs -> In (maxBy key xs first) xs.
Proof.
  intro H. destruct (maxBy_In key xs first) as [E|H']; [now rewrite <- E|exact H'].
Qed.

(** The groups built by [largestPerMint] hold elements of the input only. *)
Lemma largestPerMint_Forall (Q : TokenChange.t -> Prop) (xs : list TokenChange.t) :
  Forall Q xs -> Forall Q (largestPerMint xs).
Proof.
  intro Hxs. unfold largestPerMint.
  set (step := fun (m : JsMap.t (list TokenChange.t)) change =>
                 let key := TokenChange.mint change in
                 let m1 := if negb (JsMap.has m key) then JsMap.set m key [] else m in
                 match JsMap.get m1 key with
                 | Some cs => JsMap.set m1 key (cs ++ [change])%list
                 | None => m1
                 end).
  assert (Hinv : forall ys m,
             Forall Q ys ->
             (forall k cs, In (k, cs) m -> Forall Q cs) ->
             forall k cs, In (k, cs) (fold_left step ys m) -> Forall Q cs).
  { induction ys as [|y ys IH]; intros m Hys Hm; [exact Hm|].
    inversion Hys as [|? ? Hy Hys']; subst. simpl. apply IH; [exact Hys'|].
    intros k cs Hin. unfold step in Hin. cbv zeta in Hin.
    set (m1 := if negb (JsMap.has m (TokenChange.mint y))
               then JsMap.set m (TokenChange.mint y) [] else m) in *.
    assert (Hm1 : forall k cs, In (k, cs) m1 -> Forall Q cs).
    { intros k1 cs1 H1. unfold m1 in H1.
      destruct (negb (JsMap.has m (TokenChange.mint y))); [|now apply (Hm k1)].
      destruct (In_set _ _ _ _ _ H1) as [E|H2]; [|now apply (Hm k1)].
      inversion E; subst. constructor. }
    destruct (JsMap.get m1 (TokenChange.mint y)) as [cs0|] eqn:Hg;
      [|now apply (Hm1 k)].
    destruct (In_set _ _ _ _ _ Hin) as [E|H2]; [|now apply (Hm1 k)].
    inversion E; subst. apply Forall_app. split.
    - destruct (get_In _ _ _ Hg) as [k' Hk']. now apply (Hm1 k').
    - now constructor. }
  apply Forall_forall. intros c Hc. apply in_flat_map in Hc.
  destruct Hc as [cs [Hcs Hc]]. unfold JsMap.values in Hcs.
  apply in_map_iff in Hcs. destruct Hcs as [[k cs'] [E Hin]]. simpl in E. subst cs'.
  assert (HQ : Forall Q cs).
  { apply (Hinv xs JsMap.empty Hxs (fun k cs H => match H with end) k). exact Hin. }
  destruct cs as [|first rest]; [destruct Hc|].
  destruct Hc as [<-|[]].
  rewrite Forall_forall in HQ. apply HQ. apply maxBy_In_self. now left.
Qed.

Lemma Forall_filter {A} (Q : A -> Prop) (f : A -> bool) (xs : list A) :
  Forall Q xs -> Forall Q (filter f xs).
Proof.
  rewrite !Forall_forall. intros H x Hx. apply H.
  apply filter_In in Hx. tauto.
Qed.

(** The token changes attributed to the user are taken from the significant
    ones. *)
Lemma effectiveTokenChangesOf_Forall (Q : TokenChange.t -> Prop)
    (sigTok : list TokenChange.t) (sigSol spent recv : list SolChange.t) :
  Forall Q sigTok -> Forall Q (effectiveTokenChangesOf sigTok sigSol spent recv).
Proof.
  intro H. unfold effectiveTokenChangesOf. cbv zeta.
  match goal with
  | |- Forall Q (match ?e2 with [] => _ | _ :: _ => _ end) =>
      assert (He2 : Forall Q e2)
  end.
  { match goal with
    | |- Forall Q (match ?e1 with [] => _ | _ :: _ => _ end) =>
        assert (He1 : Forall Q e1)
    end.
    { destruct (filter _ sigTok) eqn:E.
      - destruct (filter SolChange.isSigner sigSol); [constructor|].
        now apply Forall_filter.
      - rewrite <- E. now apply Forall_filter. }
    match goal with
    | |- Forall Q (match ?e1 with [] => _ | _ :: _ => _ end) =>
        destruct e1; [|exact He1]
    end.
    destruct spent; [constructor|].
    destruct (filter (fun c => isPositive (TokenChange.change c)) sigTok)
      as [|first rest] eqn:E; [constructor|].
    constructor; [|constructor].
    assert (Hf : Forall Q (first :: rest)) by (rewrite <- E; now apply Forall_filter).
    rewrite Forall_forall in Hf. apply Hf. apply maxBy_In_self. now left. }
  match goal with
  | |- Forall Q (match ?e2 with [] => _ | _ :: _ => _ end) =>
      destruct e2; [|exact He2]
  end.
  destruct sigTok; [constructor|].
  cbn [app]. now apply largestPerMint_Forall.
Qed.

(** Every entry of [tokenChangeMap] carries the mint of one of the changes. *)
Lemma tokenChangeMapOf_mints (Q : string -> Prop) (eff : list TokenChange.t) :
  Forall (fun c => Q (TokenChange.mint c)) eff ->
  Forall (fun t => Q (TokenTotal.mint t)) (JsMap.values (tokenChangeMapOf eff)).
Proof.
  intro Heff. unfold tokenChangeMapOf.
  set (step := fun (m : JsMap.t TokenTotal.t) change =>
                 let key := TokenChange.mint change in
                 let m1 :=
                   if negb (JsMap.has m key)
                   then JsMap.set m key
                          (TokenTotal.mk (TokenChange.mint change)
                             (TokenChange.decimals change) (Fin 0))
                   else m in
                 match JsMap.get m1 key with
                 | Some e =>
                     JsMap.set m1 key
                       (TokenTotal.mk (TokenTotal.mint e) (TokenTotal.decimals e)
                          (JsNum.add (TokenTotal.totalChange e)
                             (TokenChange.change change)))
                 | None => m1
                 end).
  assert (Hinv : forall ys m,
             Forall (fun c => Q (TokenChange.mint c)) ys ->
             (forall k t, In (k, t) m -> Q (TokenTotal.mint t)) ->
             forall k t, In (k, t) (fold_left step ys m) -> Q (TokenTotal.mint t)).
  { induction ys as [|y ys IH]; intros m Hys Hm; [exact Hm|].
    inversion Hys as [|? ? Hy Hys']; subst. simpl. apply IH; [exact Hys'|].
    intros k t Hin. unfold step in Hin. cbv zeta in Hin.
    set (m1 := if negb (JsMap.has m (TokenChange.mint y))
               then JsMap.set m (TokenChange.mint y)
                      (TokenTotal.mk (TokenChange.mint y) (TokenChange.decimals y) (Fin 0))
               else m) in *.
    assert (Hm1 : forall k t, In (k, t) m1 -> Q (TokenTotal.mint t)).
    { intros k1 t1 H1. unfold m1 in H1.
      destruct (negb (JsMap.has m (TokenChange.mint y))); [|now apply (Hm k1)].
      destruct (In_set _ _ _ _ _ H1) as [E|H2]; [|now apply (Hm k1)].
      inversion E; subst. exact Hy. }
    destruct (JsMap.get m1 (TokenChange.mint y)) as [e0|] eqn:Hg;
      [|now apply (Hm1 k)].
    destruct (In_set _ _ _ _ _ Hin) as [E|H2]; [|now apply (Hm1 k)].
    inversion E; subst. cbn [TokenTotal.mint].
    destruct (get_In _ _ _ Hg) as [k' Hk']. now apply (Hm1 k'). }
  apply Forall_forall. intros t Ht. unfold JsMap.values in Ht.
  apply in_map_iff in Ht. destruct Ht as [[k t'] [E Hin]]. simpl in E. subst t'.
  apply (Hinv eff JsMap.empty Heff (fun k t H => match H with end) k). exact Hin.
Qed.

Lemma pickBought_In (ts : list TokenTotal.t) (t : TokenTotal.t) :
  pickBought ts = Some t -> In t ts.
Proof.
  unfold pickBought. destruct ts as [|a [|b rest]]; [discriminate| |].
  - intro E. injection E as <-. now left.
  - intro E. injection E as <-.
    exact (maxBy_In_self _ (a :: b :: rest) a (or_introl eq_refl)).
Qed.

Lemma pickSold_In (ts : list TokenTotal.t) (t : TokenTotal.t) :
  pickSold ts = Some t -> In t ts.
Proof.
  unfold pickSold. destruct ts as [|a [|b rest]]; [discriminate| |].
  - intro E. injection E as <-. now left.
  - intro E. injection E as <-.
    exact (maxBy_In_self _ (a :: b :: rest) a (or_introl eq_refl)).
Qed.

Lemma isPositive_abs_of_negative (x : jsnum) :
  isNegative x = true -> isPositive (JsNum.abs x) = true.
Proof.
  destruct x as [q| | |]; try discriminate; [|reflexivity].
  intro H. apply isNegative_Fin in H. apply isPositive_Fin.
  apply Qabs_case; intro H0.
  - exfalso. exact (Qlt_not_le _ _ H H0).
  - apply Qopp_lt_compat in H. exact H.
Qed.

(** The shape of an outcome, shared by the parsers that build on
    [analyzeSOLTokenTrade]. *)
Lemma analyzeSOLTokenTrade_sides :
  forall (tokenChanges : list TokenChange.t) (solChanges : list SolChange.t)
         (t : Trade.t),
    analyzeSOLTokenTrade tokenChanges solChanges = Ok (Some t) ->
    ((Trade.type t = Buy
      /\ TokenRef.mint (Trade.soldToken t) = SOL_MINT
      /\ nonNativeMint (TokenRef.mint (Trade.boughtToken t)))
     \/ (Trade.type t = Sell
         /\ TokenRef.mint (Trade.boughtToken t) = SOL_MINT
         /\ nonNativeMint (TokenRef.mint (Trade.soldToken t))))
    /\ isPositive (TokenRef.amount (Trade.soldToken t)) = true
    /\ isPositive (TokenRef.amount (Trade.boughtToken t)) = true
    /\ Trade.price t
       = Some (JsNum.div
                 (TokenRef.amount
                    (if TradeType_eqb (Trade.type t) Buy
                     then Trade.soldToken t else Trade.boughtToken t))
                 (TokenRef.amount
                    (if TradeType_eqb (Trade.type t) Buy
                     then Trade.boughtToken t else Trade.soldToken t))).
Proof.
  intros tokenChanges solChanges t H.
  unfold analyzeSOLTokenTrade in H. cbv zeta in H.
  set (sigSol := filter isSignificantSol solChanges) in *.
  set (sigTok := filter isSignificantToken tokenChanges) in *.
  set (spent := filter (fun c => isNegative (SolChange.change c)) sigSol) in *.
  set (recv := filter (fun c => isPositive (SolChange.change c)) sigSol) in *.
  set (eff := effectiveTokenChangesOf sigTok sigSol spent recv) in *.
  assert (Hmints : Forall (fun t => nonNativeMint (TokenTotal.mint t))
                     (JsMap.values (tokenChangeMapOf eff))).
  { apply tokenChangeMapOf_mints.
    apply (effectiveTokenChangesOf_Forall
             (fun c => nonNativeMint (TokenChange.mint c))).
    apply Forall_forall. intros c Hc. apply filter_In in Hc.
    apply isSignificantToken_nonNative. tauto. }
  rewrite Forall_forall in Hmints.
  set (totalSpent := fold_left _ spent (Fin 0)) in *.
  destruct (isPositive totalSpent) eqn:Hspent.
  - destruct (pickBought _) as [tb|] eqn:Hb.
    + injection H as <-. apply pickBought_In in Hb. apply filter_In in Hb.
      destruct Hb as [Hin Hpos].
      cbn. split; [left; split; [reflexivity|]; split; [reflexivity|];
                   now apply Hmints|].
      auto.
    + clear Hb. 
      set (totalRecv := fold_left _ recv (Fin 0)) in *.
      destruct (isPositive totalRecv) eqn:Hrecv; [|discriminate].
      destruct (pickSold _) as [ts|] eqn:Hs; [|discriminate].
      match type of H with (if ?c then _ else _) = _ => destruct c end;
        [discriminate|].
      injection H as <-. apply pickSold_In in Hs. apply filter_In in Hs.
      destruct Hs as [Hin Hneg].
      cbn. split; [right; split; [reflexivity|]; split; [reflexivity|];
                   now apply Hmints|].
      split; [now apply isPositive_abs_of_negative|]. auto.
  - set (totalRecv := fold_left _ recv (Fin 0)) in *.
    destruct (isPositive totalRecv) eqn:Hrecv; [|discriminate].
    destruct (pickSold _) as [ts|] eqn:Hs; [|discriminate].
    match type of H with (if ?c then _ else _) = _ => destruct c end;
      [discriminate|].
    injection H as <-. apply pickSold_In in Hs. apply filter_In in Hs.
    destruct Hs as [Hin Hneg].
    cbn. split; [right; split; [reflexivity|]; split; [reflexivity|];
                 now apply Hmints|].
    split; [now apply isPositive_abs_of_negative|]. auto.
Qed.

(** X8.  Whatever the deltas, an outcome of [analyzeSOLTokenTrade] is a buy
    or a sell, never a swap.  A buy sells the native mint for a token whose
    mint is not native, a sell does the converse; both amounts are strictly
    positive and the price is the native amount divided by the token
    amount. *)
Theorem analyzeSOLTokenTrade_outcome_shape :
  forall (tokenChanges : list TokenChange.t) (solChanges : list SolChange.t)
         (t : Trade.t),
    analyzeSOLTokenTrade tokenChanges solChanges = Ok (Some t) ->
    ((Trade.type t = Buy
      /\ TokenRef.mint (Trade.soldToken t) = SOL_MINT
      /\ nonNativeMint (TokenRef.mint (Trade.boughtToken t)))
     \/ (Trade.type t = Sell
         /\ TokenRef.mint (Trade.boughtToken t) = SOL_MINT
         /\ nonNativeMint (TokenRef.mint (Trade.soldToken t))))
    /\ isPositive (TokenRef.amount (Trade.soldToken t)) = true
    /\ isPositive (TokenRef.amount (Trade.boughtToken t)) = true
    /\ Trade.price t
       = Some (JsNum.div
                 (TokenRef.amount
                    (if TradeType_eqb (Trade.type t) Buy
                     then Trade.soldToken t else Trade.boughtToken t))
                 (TokenRef.amount
                    (if TradeType_eqb (Trade.type t) Buy
                     then Trade.boughtToken t else Trade.soldToken t))).
Proof. exact analyzeSOLTokenTrade_sides. Qed.

Lemma analyzeSOLTokenTrade_outcome_shape_witness :
  exists t : Trade.t,
    analyzeSOLTokenTrade Sample.plainBuyTokens Sample.plainBuySol = Ok (Some t)
    /\ (((Trade.type t = Buy
          /\ TokenRef.mint (Trade.soldToken t) = SOL_MINT
          /\ nonNativeMint (TokenRef.mint (Trade.boughtToken t)))
         \/ (Trade.type t = Sell
             /\ TokenRef.mint (Trade.boughtToken t) = SOL_MINT
             /\ nonNativeMint (TokenRef.mint (Trade.soldToken t))))
        /\ isPositive (TokenRef.amount (Trade.soldToken t)) = true
        /\ isPositive (TokenRef.amount (Trade.boughtToken t)) = true
        /\ Trade.price t
           = Some (JsNum.div
                     (TokenRef.amount
                        (if TradeType_eqb (Trade.type t) Buy
                         then Trade.soldToken t else Trade.boughtToken t))
                     (TokenRef.amount
                        (if TradeType_eqb (Trade.type t) Buy
                         then Trade.boughtToken t else Trade.soldToken t)))).
Proof.
  eexists. split; [vm_compute; reflexivity|].
  apply (analyzeSOLTokenTrade_outcome_shape
           Sample.plainBuyTokens Sample.plainBuySol).
  vm_compute. reflexivity.
Defined.

End AnalyzeFacts.

Section AnalyzeRaises.

Lemma orOpt_falsy (a b : option string) :
  JsString.truthyOpt (orOpt a b) = false -> JsString.truthyOpt b = false.
Proof.
  unfold orOpt. destruct (JsString.truthyOpt a) eqn:E; [congruence|auto].
Qed.

(** X9.  [analyzeSOLTokenTrade] raises only a [ReferenceError] (its sell
    branch reads a variable that is not in scope), and only when the first
    significant native increase belongs to an account with an empty
    address: with named accounts it never raises. *)
Theorem analyzeSOLTokenTrade_raises_only_for_unnamed_receiver :
  forall (tokenChanges : list TokenChange.t) (solChanges : list SolChange.t)
         (e : string),
    analyzeSOLTokenTrade tokenChanges solChanges = Throw e ->
    e = "ReferenceError"
    /\ exists c rest,
         filter (fun c => isPositive (SolChange.change c))
           (filter isSignificantSol solChanges) = c :: rest
         /\ JsString.truthy (SolChange.account c) = false.
Proof.
  intros tokenChanges solChanges e H.
  unfold analyzeSOLTokenTrade in H. cbv zeta in H.
  set (sigSol := filter isSignificantSol solChanges) in *.
  set (recv := filter (fun c => isPositive (SolChange.change c)) sigSol) in *.
  match type of H with
  | match ?s with Some _ => _ | None => _ end = _ => destruct s; [discriminate|]
  end.
  set (totalRecv := fold_left _ recv (Fin 0)) in *.
  destruct (isPositive totalRecv) eqn:Hrecv; [|discriminate].
  destruct (pickSold _) as [ts|]; [|discriminate].
  match type of H with
  | (if negb (JsString.truthyOpt ?h3) then _ else _) = _ =>
      destruct (JsString.truthyOpt h3) eqn:Hh3; [discriminate|]
  end.
  cbn [negb] in H. injection H as <-. split; [reflexivity|].
  match type of Hh3 with
  | JsString.truthyOpt (if negb (JsString.truthyOpt ?h2) then _ else _) = _ =>
      destruct (JsString.truthyOpt h2) eqn:Hh2
  end.
  - cbn [negb] in Hh3. congruence.
  - cbn [negb] in Hh3. apply orOpt_falsy in Hh3.
    destruct recv as [|c rest] eqn:Er.
    + subst totalRecv. cbn in Hrecv. discriminate.
    + exists c, rest. split; [reflexivity|exact Hh3].
Qed.

Lemma analyzeSOLTokenTrade_raises_only_for_unnamed_receiver_witness :
  "ReferenceError"%string = "ReferenceError"%string
  /\ exists c rest,
       filter (fun c => isPositive (SolChange.change c))
         (filter isSignificantSol Cases.unnamedReceiverSol) = c :: rest
       /\ JsString.truthy (SolChange.account c) = false.
Proof.
  exact (analyzeSOLTokenTrade_raises_only_for_unnamed_receiver
           Cases.unnamedReceiverTokens Cases.unnamedReceiverSol
           "ReferenceError" eq_refl).
Defined.

End AnalyzeRaises.

Section OutcomeInvariants.

Lemma nativeAgainstToken_infer (t : Trade.t) :
  nativeAgainstToken t ->
  Trade.type t
  = inferTradeType (TokenRef.mint (Trade.soldToken t))
      (TokenRef.mint (Trade.boughtToken t)).
Proof.
  unfold nativeAgainstToken, inferTradeType, nonNativeMint.
  intros [[-> [-> _]]|[-> [-> [Hn _]]]].
  - now rewrite String.eqb_refl.
  - destruct (String.eqb_spec (TokenRef.mint (Trade.soldToken t)) SOL_MINT);
      [contradiction|].
    now rewrite String.eqb_refl.
Qed.

Lemma analyzeSOLTokenTrade_native (tokenChanges : list TokenChange.t)
    (solChanges : list SolChange.t) (t : Trade.t) :
  analyzeSOLTokenTrade tokenChanges solChanges = Ok (Some t) ->
  nativeAgainstToken t /\ consistentTrade t.
Proof.
  intro H. destruct (analyzeSOLTokenTrade_sides _ _ _ H) as [Hs [Hp [Hq _]]].
  split; [exact Hs|]. split; [now apply nativeAgainstToken_infer|]. auto.
Qed.

Lemma tokenSwapOf_consistent (dex : string) (holderAddress : option string)
    (tokenChanges : list TokenChange.t) (solChanges : list SolChange.t)
    (t : Trade.t) :
  tokenSwapOf dex holderAddress tokenChanges solChanges = Some t ->
  consistentTrade t /\ Trade.type t = Swap
  /\ Trade.dex t = Some dex /\ Trade.source t = Some "generic_parser".
Proof.
  unfold tokenSwapOf. cbv zeta.
  match goal with
  | |- match filter ?f ?e with _ => _ end = _ -> _ =>
      generalize e; intro eff
  end.
  destruct (filter (fun c => isNegative (TokenChange.change c)) eff)
    as [|s0 srest] eqn:Es; [discriminate|].
  destruct (filter (fun c => isPositive (TokenChange.change c)) eff)
    as [|b0 brest] eqn:Eb; [discriminate|].
  set (maxSold := maxBy absTokenChange (s0 :: srest) s0).
  set (maxBought := maxBy absTokenChange (b0 :: brest) b0).
  destruct (String.eqb_spec (TokenChange.mint maxSold) SOL_MINT) as [|Hs];
    [discriminate|].
  destruct (String.eqb_spec (TokenChange.mint maxBought) SOL_MINT) as [|Hb];
    [discriminate|].
  cbn [negb andb]. intro E. injection E as <-.
  assert (Hin_s : In maxSold (s0 :: srest))
    by (apply maxBy_In_self; now left).
  assert (Hin_b : In maxBought (b0 :: brest))
    by (apply maxBy_In_self; now left).
  rewrite <- Es in Hin_s. rewrite <- Eb in Hin_b.
  apply filter_In in Hin_s. apply filter_In in Hin_b.
  clearbody maxSold maxBought.
  unfold consistentTrade, inferTradeType, Trade.make, absTokenChange.
  cbn [Trade.type Trade.soldToken Trade.boughtToken Trade.dex Trade.source
       TokenRef.mint TokenRef.amount].
  destruct (String.eqb_spec (TokenChange.mint maxSold) SOL_MINT);
    [contradiction|].
  destruct (String.eqb_spec (TokenChange.mint maxBought) SOL_MINT);
    [contradiction|].
  split; [split; [reflexivity|]; split;
            [apply isPositive_abs_of_negative|]; tauto|].
  split; [reflexivity|]. split; reflexivity.
Qed.

Lemma pairOutcome_consistent dex holder note (sold bought : ChangeItem.t) :
  isNegative (ChangeItem.amount sold) = true ->
  isPositive (ChangeItem.amount bought) = true ->
  consistentTrade (pairOutcome dex holder note sold bought)
  /\ Trade.dex (pairOutcome dex holder note sold bought) = Some dex
  /\ Trade.source (pairOutcome dex holder note sold bought) = Some "generic_parser".
Proof.
  intros Hs Hb. unfold consistentTrade, pairOutcome, Trade.make, absItem.
  cbn [Trade.type Trade.soldToken Trade.boughtToken Trade.dex Trade.source
       TokenRef.mint TokenRef.amount].
  split; [split; [reflexivity|]; split;
            [now apply isPositive_abs_of_negative|exact Hb]|].
  split; reflexivity.
Qed.

Lemma pairFromAllChanges_consistent (dex : string) (holderAddress : option string)
    (tokenChanges : list TokenChange.t) (solChanges : list SolChange.t)
    (t : Trade.t) :
  pairFromAllChanges dex holderAddress tokenChanges solChanges = Some t ->
  consistentTrade t
  /\ Trade.dex t = Some dex /\ Trade.source t = Some "generic_parser".
Proof.
  unfold pairFromAllChanges. cbv zeta.
  unfold soldItemsOf, boughtItemsOf.
  generalize (filter isSignificantItem (allChangesOf tokenChanges solChanges)).
  intro items.
  destruct (filter (fun i => isNegative (ChangeItem.amount i)) items)
    as [|s0 srest] eqn:Es; [discriminate|].
  destruct (filter (fun i => isPositive (ChangeItem.amount i)) items)
    as [|b0 brest] eqn:Eb; [destruct srest; discriminate|].
  assert (Hs : forall x, In x (s0 :: srest) -> isNegative (ChangeItem.amount x) = true).
  { intros x Hx. rewrite <- Es in Hx. apply filter_In in Hx. tauto. }
  assert (Hb : forall x, In x (b0 :: brest) -> isPositive (ChangeItem.amount x) = true).
  { intros x Hx. rewrite <- Eb in Hx. apply filter_In in Hx. tauto. }
  assert (Hmax : forall note,
             consistentTrade
               (pairOutcome dex holderAddress note
                  (maxBy absItem srest s0) (maxBy absItem brest b0))
             /\ Trade.dex (pairOutcome dex holderAddress note
                  (maxBy absItem srest s0) (maxBy absItem brest b0)) = Some dex
             /\ Trade.source (pairOutcome dex holderAddress note
                  (maxBy absItem srest s0) (maxBy absItem brest b0))
                = Some "generic_parser").
  { intro note. apply pairOutcome_consistent.
    - apply Hs. apply maxBy_In.
    - apply Hb. apply maxBy_In. }
  destruct srest as [|s1 srest]; destruct brest as [|b1 brest]; intro E.
  - injection E as <-. apply pairOutcome_consistent;
      [apply Hs | apply Hb]; now left.
  - destruct (isSOLTokenTrade _ _); [|discriminate]. injection E as <-. apply Hmax.
  - destruct (isSOLTokenTrade _ _); [|discriminate]. injection E as <-. apply Hmax.
  - destruct (isSOLTokenTrade _ _); [|discriminate]. injection E as <-. apply Hmax.
Qed.

Lemma consistentTrade_same_core (t t' : Trade.t) :
  Trade.type t' = Trade.type t ->
  Trade.soldToken t' = Trade.soldToken t ->
  Trade.boughtToken t' = Trade.boughtToken t ->
  consistentTrade t -> consistentTrade t'.
Proof.
  unfold consistentTrade. intros -> -> ->. auto.
Qed.

Lemma nativeAgainstToken_same_core (t t' : Trade.t) :
  Trade.type t' = Trade.type t ->
  Trade.soldToken t' = Trade.soldToken t ->
  Trade.boughtToken t' = Trade.boughtToken t ->
  nativeAgainstToken t -> nativeAgainstToken t'.
Proof.
  unfold nativeAgainstToken. intros -> -> ->. auto.
Qed.

Lemma parseGenericTransaction_consistent (tx : Transaction.t) (dex : string)
    (t : Trade.t) :
  parseGenericTransaction tx dex = Ok (Some t) ->
  consistentTrade t
  /\ Trade.dex t = Some dex /\ Trade.source t = Some "generic_parser".
Proof.
  unfold parseGenericTransaction.
  destruct (hasLiquidityOperation tx || hasLiquidityInstruction tx
            || hasLiquidityInnerInstruction tx)%bool; [discriminate|].
  destruct (parseSOLBalanceChanges tx) as [solChanges|e]; [|discriminate].
  cbn [rbind].
  destruct (tokenSwapOf _ _ _ _) as [swap|] eqn:Esw.
  - intro E. injection E as <-.
    destruct (tokenSwapOf_consistent _ _ _ _ _ Esw) as [H1 [_ [H2 H3]]]. auto.
  - destruct (analyzeSOLTokenTrade _ _) as [[t0|]|e] eqn:Ea; cbn [rbind];
      [| |discriminate].
    + intro E. injection E as <-.
      destruct (analyzeSOLTokenTrade_native _ _ _ Ea) as [_ Hc].
      split; [|split; reflexivity].
      eapply consistentTrade_same_core; [| | |exact Hc];
        destruct (negb _); reflexivity.
    + intro E. injection E as E. now apply pairFromAllChanges_consistent in E.
Qed.

Lemma applyLogDirection_native (logText : string) (t : Trade.t) :
  nativeAgainstToken t -> isPositive (TokenRef.amount (Trade.soldToken t)) = true ->
  isPositive (TokenRef.amount (Trade.boughtToken t)) = true ->
  nativeAgainstToken (applyLogDirection logText t)
  /\ isPositive (TokenRef.amount (Trade.soldToken (applyLogDirection logText t)))
     = true
  /\ isPositive (TokenRef.amount (Trade.boughtToken (applyLogDirection logText t)))
     = true.
Proof.
  intros Hn Hs Hb. unfold applyLogDirection. cbv zeta.
  destruct Hn as [[Ht [Hm Hx]]|[Ht [Hm Hx]]]; rewrite Ht; cbn [TradeType_eqb].
  - destruct (isSellFromLog logText); cbn [andb].
    + split; [right; cbn; auto|]. cbn. auto.
    + rewrite Bool.andb_false_r. split; [left; auto|]. auto.
  - rewrite Bool.andb_false_r. destruct (isBuyFromLog logText); cbn [andb].
    + split; [left; cbn; auto|]. cbn. auto.
    + split; [right; auto|]. auto.
Qed.

Lemma native_not_swap (t : Trade.t) : nativeAgainstToken t -> Trade.type t <> Swap.
Proof. intros [[-> _]|[-> _]]; discriminate. Qed.

Lemma parseRaydiumTransaction_native (tx : Transaction.t) (t : Trade.t) :
  parseRaydiumTransaction tx = Ok (Some t) ->
  nativeAgainstToken t /\ consistentTrade t /\ Trade.dex t = Some "raydium".
Proof.
  unfold parseRaydiumTransaction.
  destruct (instructionsOrThrow tx); [|discriminate]. cbn [rbind].
  destruct (parseSOLBalanceChanges tx); [|discriminate]. cbn [rbind].
  destruct (analyzeSOLTokenTrade _ _) as [[t0|]|] eqn:Ea; try discriminate.
  cbn [rbind option_map]. intro E. injection E as <-.
  destruct (analyzeSOLTokenTrade_native _ _ _ Ea) as [Hn Hc].
  split; [|split; [|reflexivity]].
  - eapply nativeAgainstToken_same_core; [| | |exact Hn]; reflexivity.
  - eapply consistentTrade_same_core; [| | |exact Hc]; reflexivity.
Qed.

Lemma parseOrcaTransaction_native (tx : Transaction.t) (t : Trade.t) :
  parseOrcaTransaction tx = Ok (Some t) ->
  nativeAgainstToken t /\ consistentTrade t /\ Trade.dex t = Some "orca".
Proof.
  unfold parseOrcaTransaction.
  destruct (instructionsOrThrow tx); [|discriminate]. cbn [rbind].
  destruct (parseSOLBalanceChanges tx); [|discriminate]. cbn [rbind].
  destruct (analyzeSOLTokenTrade _ _) as [[t0|]|] eqn:Ea; try discriminate.
  cbn [rbind option_map]. intro E. injection E as <-.
  destruct (analyzeSOLTokenTrade_native _ _ _ Ea) as [Hn Hc].
  split; [|split; [|reflexivity]].
  - eapply nativeAgainstToken_same_core; [| | |exact Hn]; reflexivity.
  - eapply consistentTrade_same_core; [| | |exact Hc]; reflexivity.
Qed.

Lemma parsePumpFunTransaction_native (tx : Transaction.t) (t : Trade.t) :
  parsePumpFunTransaction tx = Ok (Some t) ->
  nativeAgainstToken t /\ consistentTrade t /\ Trade.dex t = Some "pump_fun_amm".
Proof.
  unfold parsePumpFunTransaction.
  destruct (Transaction.transaction tx) as [td|]; [|discriminate].
  cbn [rbind mustBeDefined].
  destruct (TxData.message td) as [message|]; [|discriminate].
  cbn [rbind mustBeDefined].
  destruct (Message.instructions message) as [instructions|]; [|discriminate].
  cbn [rbind mustBeDefined]. cbv zeta.
  destruct (negb (pumpFunEvidence tx _ instructions)); [discriminate|].
  destruct (parseSOLBalanceChanges tx); [|discriminate]. cbn [rbind].
  destruct (analyzeSOLTokenTrade _ _) as [[t0|]|] eqn:Ea; try discriminate.
  cbn [rbind option_map]. intro E. injection E as <-.
  destruct (analyzeSOLTokenTrade_native _ _ _ Ea) as [Hn [_ [Hs Hb]]].
  destruct (applyLogDirection_native (logTextOf (Transaction.meta tx)) t0 Hn Hs Hb)
    as [Hn' [Hs' Hb']].
  assert (Hn2 : nativeAgainstToken
                  (Trade.setPumpFun "pump.fun"
                     (List.length
                        (pumpFunInstructions (Message.accountKeys message) instructions)
                      + List.length
                          (pumpFunInstructions (Message.accountKeys message)
                             (flattenInner (innerInstructionsOf (Transaction.meta tx)))))
                     (Nat.ltb 0
                        (List.length
                           (pumpFunInstructions (Message.accountKeys message)
                              (flattenInner
                                 (innerInstructionsOf (Transaction.meta tx))))))
                     (Trade.setDexSource "pump_fun_amm" "pump_fun_parser"
                        (applyLogDirection (logTextOf (Transaction.meta tx)) t0)))).
  { eapply nativeAgainstToken_same_core; [| | |exact Hn']; reflexivity. }
  split; [exact Hn2|]. split; [|reflexivity].
  split; [now apply nativeAgainstToken_infer|]. split; [exact Hs'|exact Hb'].
Qed.

Lemma parseJupiterTransaction_consistent (tx : Transaction.t) (t : Trade.t) :
  parseJupiterTransaction tx = Ok (Some t) ->
  consistentTrade t /\ Trade.dex t = Some "jupiter".
Proof.
  unfold parseJupiterTransaction.
  destruct (parseGenericTransaction tx "jupiter") as [[t0|]|] eqn:Eg;
    try discriminate.
  cbn [rbind option_map]. intro E. injection E as <-.
  destruct (parseGenericTransaction_consistent _ _ _ Eg) as [Hc [Hd _]].
  split; [|exact Hd].
  eapply consistentTrade_same_core; [| | |exact Hc]; reflexivity.
Qed.

Lemma dispatch_consistent (dexType : DexType) (tx : Transaction.t) (t : Trade.t) :
  dispatch dexType tx = Ok (Some t) -> consistentTrade t.
Proof.
  destruct dexType; cbn [dispatch]; intro H.
  - now apply parseJupiterTransaction_consistent in H.
  - now apply parseRaydiumTransaction_native in H.
  - now apply parseOrcaTransaction_native in H.
  - now apply parsePumpFunTransaction_native in H.
  - now apply parseGenericTransaction_consistent in H.
  - now apply parseGenericTransaction_consistent in H.
  - now apply parseGenericTransaction_consistent in H.
Qed.

(** X10.  Every outcome of [parseGenericTransaction] has the type that
    [inferTradeType] gives for its two mints, strictly positive sold and
    bought amounts, the [dex] label it was called with and the source
    ["generic_parser"]. *)
Theorem generic_outcome_is_consistent_and_tagged :
  forall (tx : Transaction.t) (dex : string) (t : Trade.t),
    parseGenericTransaction tx dex = Ok (Some t) ->
    Trade.type t
    = inferTradeType (TokenRef.mint (Trade.soldToken t))
        (TokenRef.mint (Trade.boughtToken t))
    /\ isPositive (TokenRef.amount (Trade.soldToken t)) = true
    /\ isPositive (TokenRef.amount (Trade.boughtToken t)) = true
    /\ Trade.dex t = Some dex
    /\ Trade.source t = Some "generic_parser".
Proof.
  intros tx dex t H.
  destruct (parseGenericTransaction_consistent tx dex t H) as [[H1 [H2 H3]] [H4 H5]].
  auto.
Qed.

Lemma generic_outcome_is_consistent_and_tagged_witness :
  exists t : Trade.t,
    parseGenericTransaction Sample.plainBuy "unknown" = Ok (Some t)
    /\ Trade.type t
       = inferTradeType (TokenRef.mint (Trade.soldToken t))
           (TokenRef.mint (Trade.boughtToken t))
    /\ isPositive (TokenRef.amount (Trade.soldToken t)) = true
    /\ isPositive (TokenRef.amount (Trade.boughtToken t)) = true
    /\ Trade.dex t = Some "unknown"
    /\ Trade.source t = Some "generic_parser".
Proof.
  eexists. split; [vm_compute; reflexivity|].
  apply (generic_outcome_is_consistent_and_tagged Sample.plainBuy "unknown").
  vm_compute. reflexivity.
Defined.

(** X11.  The Raydium, Orca and Pump.fun parsers never report a swap: each of
    their outcomes is a buy of a non-native token with the native mint or a
    sell of one for it, with strictly positive amounts. *)
Theorem amm_parsers_report_native_trades_only :
  forall (tx : Transaction.t) (t : Trade.t),
    parseRaydiumTransaction tx = Ok (Some t)
    \/ parseOrcaTransaction tx = Ok (Some t)
    \/ parsePumpFunTransaction tx = Ok (Some t) ->
    Trade.type t <> Swap
    /\ ((Trade.type t = Buy
         /\ TokenRef.mint (Trade.soldToken t) = SOL_MINT
         /\ nonNativeMint (TokenRef.mint (Trade.boughtToken t)))
        \/ (Trade.type t = Sell
            /\ TokenRef.mint (Trade.boughtToken t) = SOL_MINT
            /\ nonNativeMint (TokenRef.mint (Trade.soldToken t))))
    /\ isPositive (TokenRef.amount (Trade.soldToken t)) = true
    /\ isPositive (TokenRef.amount (Trade.boughtToken t)) = true.
Proof.
  intros tx t H.
  assert (Hn : nativeAgainstToken t /\ consistentTrade t).
  { destruct H as [H|[H|H]].
    - apply parseRaydiumTransaction_native in H. tauto.
    - apply parseOrcaTransaction_native in H. tauto.
    - apply parsePumpFunTransaction_native in H. tauto. }
  destruct Hn as [Hn [_ [Hs Hb]]].
  split; [now apply native_not_swap|]. split; [exact Hn|]. auto.
Qed.

Lemma amm_parsers_report_native_trades_only_witness :
  exists t : Trade.t,
    parsePumpFunTransaction Sample.pumpSellLoggedBuy = Ok (Some t)
    /\ Trade.type t <> Swap
    /\ ((Trade.type t = Buy
         /\ TokenRef.mint (Trade.soldToken t) = SOL_MINT
         /\ nonNativeMint (TokenRef.mint (Trade.boughtToken t)))
        \/ (Trade.type t = Sell
            /\ TokenRef.mint (Trade.boughtToken t) = SOL_MINT
            /\ nonNativeMint (TokenRef.mint (Trade.soldToken t))))
    /\ isPositive (TokenRef.amount (Trade.soldToken t)) = true
    /\ isPositive (TokenRef.amount (Trade.boughtToken t)) = true.
Proof.
  eexists. split; [vm_compute; reflexivity|].
  apply (amm_parsers_report_native_trades_only Sample.pumpSellLoggedBuy).
  right. right. vm_compute. reflexivity.
Defined.

End OutcomeInvariants.

Section ParseTradeFacts.

Variable env : Env.

Lemma resolveTrade_on_chain (signature : string) (transaction : option Transaction.t)
    (t : Trade.t) :
  resolveTrade signature None transaction = Ok (Some t) ->
  exists tx t0,
    transaction = Some tx
    /\ t = Trade.stamp signature (timestampOf tx) (Transaction.slot tx) t0
    /\ consistentTrade t0.
Proof.
  unfold resolveTrade. destruct transaction as [tx|]; [|discriminate].
  destruct (identifyDEX tx) as [dexType|]; [|discriminate]. cbn [rbind].
  destruct (dispatch dexType tx) as [[t0|]|] eqn:Ed; try discriminate.
  cbn [rbind option_map]. intro E. injection E as <-.
  exists tx, t0. split; [reflexivity|]. split; [reflexivity|].
  exact (dispatch_consistent _ _ _ Ed).
Qed.

Lemma cacheGet_miss (signature : string) (w : World) :
  JsMap.get (SimpleCache.cache (cache w)) signature = None ->
  fst (cacheGet env signature w) = None
  /\ heap (snd (cacheGet env signature w)) = heap w
  /\ cache (snd (cacheGet env signature w)) = cache w
  /\ trace (snd (cacheGet env signature w)) = trace w.
Proof.
  intro H. unfold cacheGet, SimpleCache.get. rewrite H. cbn. auto.
Qed.

Lemma nth_error_snoc {A} (xs : list A) (x : A) :
  nth_error (xs ++ [x])%list (List.length xs) = Some x.
Proof.
  rewrite nth_error_app2 by lia. now rewrite Nat.sub_diag.
Qed.

(** What a call that has to go to the chain returns. *)
Lemma parseTrade_miss (signature : string) (options : Options) (w w' : World)
    (l : loc) :
  useJupiterAPI options = false ->
  useCache options = false
  \/ JsMap.get (SimpleCache.cache (cache w)) signature = None ->
  parseTrade env signature options w = (Some l, w') ->
  exists t,
    resolveTrade signature None (getParsedTransaction env signature) = Ok (Some t)
    /\ l = List.length (heap w)
    /\ heap w' = (heap w ++ [t])%list
    /\ trace w' = (trace w ++ [FetchOne signature])%list.
Proof.
  intros Hj Hmiss. unfold parseTrade. rewrite Hj.
  assert (Hpre : exists w1,
             (if useCache options then cacheGet env signature w else (None, w))
             = (None, w1)
             /\ heap w1 = heap w /\ trace w1 = trace w).
  { destruct (useCache options) eqn:Hc.
    - destruct Hmiss as [Hf|Hget]; [discriminate|].
      destruct (cacheGet_miss signature w Hget) as [H1 [H2 [_ H4]]].
      destruct (cacheGet env signature w) as [r w1]. cbn in *. subst r.
      exists w1. auto.
    - exists w. auto. }
  destruct Hpre as [w1 [-> [Hh Ht]]].
  cbn [app].
  destruct (resolveTrade signature None (getParsedTransaction env signature))
    as [[t|]|e] eqn:Er; cbn [catchNull]; try discriminate.
  unfold alloc, logEvents. cbn [heap cache trace ticks].
  destruct (useCache options); unfold cacheSet; cbn [heap cache trace ticks];
    intro E; injection E as <- <-; cbn [heap trace]; exists t;
    rewrite Hh, Ht; auto.
Qed.

(** X12.  With the quote service off and no cache entry to answer (or
    caching off), whatever [parseTrade] returns is a new object: its
    reference pointed at nothing before the call, and the call adds this one
    object to the heap and leaves the others alone.  The object carries the
    requested signature, a type that agrees with the position of the native
    mint, and strictly positive amounts. *)
Theorem parseTrade_on_chain_outcome_is_consistent :
  forall (signature : string) (options : Options) (w w' : World) (l : loc),
    useJupiterAPI options = false ->
    useCache options = false
    \/ JsMap.get (SimpleCache.cache (cache w)) signature = None ->
    parseTrade env signature options w = (Some l, w') ->
    exists t,
      deref l w = None
      /\ l = List.length (heap w)
      /\ heap w' = (heap w ++ [t])%list
      /\ deref l w' = Some t
      /\ Trade.signature t = Some signature
      /\ Trade.type t
         = inferTradeType (TokenRef.mint (Trade.soldToken t))
             (TokenRef.mint (Trade.boughtToken t))
      /\ isPositive (TokenRef.amount (Trade.soldToken t)) = true
      /\ isPositive (TokenRef.amount (Trade.boughtToken t)) = true.
Proof.
  intros signature options w w' l Hj Hmiss Hrun.
  destruct (parseTrade_miss signature options w w' l Hj Hmiss Hrun)
    as [t [Hres [-> [Hheap _]]]].
  exists t. unfold deref. rewrite Hheap.
  split; [apply nth_error_None; lia|]. split; [reflexivity|].
  split; [reflexivity|]. split; [apply nth_error_snoc|].
  destruct (resolveTrade_on_chain _ _ _ Hres) as [tx [t0 [_ [-> [H1 [H2 H3]]]]]].
  cbn. auto.
Qed.

End ParseTradeFacts.

Lemma parseTrade_on_chain_outcome_is_consistent_witness :
  exists (l : loc) (w' : World) (t : Trade.t),
    parseTrade Sample.buyEnv "sig" internalOptions newWorld = (Some l, w')
    /\ deref l newWorld = None
    /\ l = List.length (heap newWorld)
    /\ heap w' = (heap newWorld ++ [t])%list
    /\ deref l w' = Some t
    /\ Trade.signature t = Some "sig"%string
    /\ Trade.type t
       = inferTradeType (TokenRef.mint (Trade.soldToken t))
           (TokenRef.mint (Trade.boughtToken t))
    /\ isPositive (TokenRef.amount (Trade.soldToken t)) = true
    /\ isPositive (TokenRef.amount (Trade.boughtToken t)) = true.
Proof.
  exists O. eexists.
  destruct (parseTrade_on_chain_outcome_is_consistent Sample.buyEnv "sig"
              internalOptions newWorld _ O eq_refl (or_intror eq_refl) eq_refl)
    as [t Ht].
  exists t. split; [reflexivity|exact Ht].
Defined.

Section ParseTradeCache.

Variable env : Env.

Lemma get_has {V} (m : JsMap.t V) (k : string) (v : V) :
  JsMap.get m k = Some v -> JsMap.has m k = true.
Proof. unfold JsMap.has. now intros ->. Qed.

(** X13.  A cache hit costs one reading of the clock and nothing else:
    [parseTrade] returns the stored reference without any call to the chain
    or to the quote service, whatever the options say about the latter, and
    leaves heap and cache as they are. *)
Theorem parseTrade_cache_hit_makes_no_call :
  forall (signature : string) (options : Options) (w : World)
         (it : SimpleCache.item loc),
    useCache options = true ->
    JsMap.get (SimpleCache.cache (cache w)) signature = Some it ->
    dateNow env (ticks w) - SimpleCache.timestamp it <= SimpleCache.ttl (cache w) ->
    parseTrade env signature options w
    = (Some (SimpleCache.value it),
       mkWorld (heap w) (cache w) (trace w) (S (ticks w))).
Proof.
  intros signature options w it Hc Hget Hfresh.
  unfold parseTrade. rewrite Hc. unfold cacheGet, SimpleCache.get.
  rewrite Hget, (get_has _ _ _ Hget).
  assert (E : (dateNow env (ticks w) - SimpleCache.timestamp it
               >? SimpleCache.ttl (cache w)) = false).
  { rewrite Z.gtb_ltb. apply Z.ltb_ge. exact Hfresh. }
  rewrite E. reflexivity.
Qed.

(** X14.  A [null] result is not cached: after [parseTrade] has returned
    [null] with caching on, the cache has no entry for the signature (an
    expired one has been dropped), no object has been created, and the
    calls of a miss have been made, so the next call fetches again. *)
Theorem parseTrade_null_is_not_cached :
  forall (signature : string) (options : Options) (w w' : World),
    useCache options = true ->
    NoDup (JsMap.keys (SimpleCache.cache (cache w))) ->
    parseTrade env signature options w = (None, w') ->
    JsMap.has (SimpleCache.cache (cache w')) signature = false
    /\ heap w' = heap w
    /\ trace w'
       = (trace w
          ++ (if useJupiterAPI options then [JupiterLookup signature] else [])
          ++ [FetchOne signature])%list.
Proof.
  intros signature options w w' Hc Hnd. unfold parseTrade. rewrite Hc.
  assert (Hpre :
            (exists l w1, cacheGet env signature w = (Some l, w1))
            \/ exists w1,
                 cacheGet env signature w = (None, w1)
                 /\ JsMap.has (SimpleCache.cache (cache w1)) signature = false
                 /\ heap w1 = heap w /\ trace w1 = trace w).
  { unfold cacheGet, SimpleCache.get.
    destruct (JsMap.get (SimpleCache.cache (cache w)) signature) as [it|] eqn:Hget.
    - destruct (dateNow env (ticks w) - SimpleCache.timestamp it
                >? SimpleCache.ttl (cache w)).
      + right. eexists. split; [reflexivity|]. cbn [cache heap trace SimpleCache.cache].
        split; [now apply has_delete_same|]. auto.
      + left. eauto.
    - right. eexists. split; [reflexivity|]. cbn [cache heap trace].
      unfold JsMap.has. rewrite Hget. auto. }
  destruct Hpre as [[l [w1 ->]]|[w1 [-> [Hhas [Hh Ht]]]]]; [discriminate|].
  destruct (catchNull _) as [tradeInfo|].
  - unfold alloc. cbn. discriminate.
  - intro E. injection E as <-. unfold logEvents. cbn [heap cache trace].
    rewrite Ht. auto.
Qed.

End ParseTradeCache.

Lemma parseTrade_cache_hit_makes_no_call_witness :
  parseTrade Cases.deadEnv "sig" defaultOptions Cases.warmWorld
  = (Some O,
     mkWorld (heap Cases.warmWorld) (cache Cases.warmWorld)
       (trace Cases.warmWorld) 2).
Proof.
  apply (parseTrade_cache_hit_makes_no_call Cases.deadEnv "sig" defaultOptions
           Cases.warmWorld (SimpleCache.mkItem O 0) eq_refl eq_refl).
  vm_compute. discriminate.
Defined.

Lemma parseTrade_null_is_not_cached_witness :
  JsMap.has
    (SimpleCache.cache
       (cache (snd (parseTrade Cases.deadEnv "sig" defaultOptions newWorld))))
    "sig" = false
  /\ heap (snd (parseTrade Cases.deadEnv "sig" defaultOptions newWorld))
     = heap newWorld
  /\ trace (snd (parseTrade Cases.deadEnv "sig" defaultOptions newWorld))
     = (trace newWorld
        ++ (if useJupiterAPI defaultOptions then [JupiterLookup "sig"] else [])
        ++ [FetchOne "sig"])%list.
Proof.
  apply (parseTrade_null_is_not_cached Cases.deadEnv "sig" defaultOptions newWorld
           _ eq_refl (NoDup_nil _)).
  reflexivity.
Defined.

Section BatchFacts.

Variable env : Env.

Lemma batchLoop_enough_fuel (batchSize : nat) (signatures : list string) :
  (1 <= batchSize)%nat ->
  forall (fuel i : nat) (results : JsMap.t TradeInfo.t) (w : World),
    (List.length signatures - i < fuel)%nat ->
    exists r, batchLoop env fuel batchSize i signatures results w = Some r.
Proof.
  intro Hb. induction fuel as [|fuel IH]; intros i results w Hfuel; [lia|].
  cbn [batchLoop].
  destruct (Nat.ltb_spec i (List.length signatures)) as [Hlt|Hge].
  - destruct (processBatch env _ results w) as [results1 w1].
    apply IH. lia.
  - eauto.
Qed.

Lemma batchLoop_zero_step (signatures : list string) :
  forall (fuel i : nat) (results : JsMap.t TradeInfo.t) (w : World),
    (i < List.length signatures)%nat ->
    batchLoop env fuel 0 i signatures results w = None.
Proof.
  induction fuel as [|fuel IH]; intros i results w Hlt; [reflexivity|].
  cbn [batchLoop].
  destruct (Nat.ltb_spec i (List.length signatures)) as [_|Hge]; [|lia].
  destruct (processBatch env _ results w) as [results1 w1].
  rewrite Nat.add_0_r. now apply IH.
Qed.

(** X15.  [parseMultipleTradeInfo] returns whenever there are at most fifty
    signatures or the concurrency is at least one: the loop runs out of
    signatures within as many turns as there are signatures. *)
Theorem parseMultipleTradeInfo_returns :
  forall (signatures : list string) (concurrency : nat) (w : World),
    (List.length signatures <= 50)%nat \/ (1 <= concurrency)%nat ->
    exists r, parseMultipleTradeInfo env signatures concurrency w = Some r.
Proof.
  intros signatures concurrency w H. unfold parseMultipleTradeInfo.
  destruct signatures as [|s rest]; [eauto|].
  assert (Hlen : (1 <= List.length (s :: rest))%nat) by (simpl; lia).
  revert H Hlen. generalize (s :: rest). intros signatures H Hlen.
  apply batchLoop_enough_fuel; [|lia].
  destruct (Nat.leb_spec (List.length signatures) 50); cbv iota;
    [exact Hlen|].
  destruct H as [H|H]; lia.
Qed.

(** X16.  With more than fifty signatures and a concurrency of zero the batch
    size is zero and the loop of [parseMultipleTradeInfo] never advances: no
    number of turns makes it return. *)
Theorem parseMultipleTradeInfo_zero_concurrency_never_returns :
  forall (signatures : list string) (w : World),
    (50 < List.length signatures)%nat ->
    parseMultipleTradeInfo env signatures 0 w = None
    /\ forall fuel : nat,
         batchLoop env fuel (Nat.min 0 50) 0 signatures JsMap.empty w = None.
Proof.
  intros signatures w Hlen.
  assert (H : forall fuel,
             batchLoop env fuel (Nat.min 0 50) 0 signatures JsMap.empty w = None).
  { intro fuel. cbn [Nat.min]. apply batchLoop_zero_step. lia. }
  split; [|exact H].
  unfold parseMultipleTradeInfo. destruct signatures as [|s rest];
    [simpl in Hlen; lia|].
  revert H Hlen. generalize (s :: rest). intros signatures H Hlen.
  destruct (Nat.leb_spec (List.length signatures) 50); [lia|]. apply H.
Qed.

Lemma parseFetched_keys (batch : list string)
    (transactions : list (option Transaction.t)) :
  forall (index : nat) (results : JsMap.t TradeInfo.t) (signature : string),
    JsMap.has (parseFetched batch transactions index results) signature = true ->
    JsMap.has results signature = true \/ In signature batch.
Proof.
  induction batch as [|s rest IH]; intros index results signature H; [now left|].
  cbn [parseFetched] in H. apply IH in H. destruct H as [H|H]; [|right; now right].
  apply has_record in H. destruct H as [H| ->]; [now left|right; now left].
Qed.

Lemma processBatch_fetched (batch : list string) (results : JsMap.t TradeInfo.t)
    (w : World) :
  getParsedTransactions env batch <> None ->
  snd (processBatch env batch results w) = logEvents [FetchBatch batch] w
  /\ forall signature,
       JsMap.has (fst (processBatch env batch results w)) signature = true ->
       JsMap.has results signature = true \/ In signature batch.
Proof.
  intro H. unfold processBatch.
  destruct (getParsedTransactions env batch) as [[|t ts]|]; [| |contradiction].
  - split; [reflexivity|]. intros s Hs. now left.
  - split; [reflexivity|]. intros s Hs. cbn [fst] in Hs.
    now apply parseFetched_keys in Hs.
Qed.

Lemma batchLoop_fetched (batchSize : nat) (signatures : list string) :
  (forall b, getParsedTransactions env b <> None) ->
  (1 <= batchSize <= 50)%nat ->
  forall (fuel i : nat) (results r : JsMap.t TradeInfo.t) (w w' : World),
    batchLoop env fuel batchSize i signatures results w = Some (r, w') ->
    heap w' = heap w /\ cache w' = cache w /\ ticks w' = ticks w
    /\ (exists batches,
          trace w' = (trace w ++ List.map FetchBatch batches)%list
          /\ List.concat batches = skipn i signatures
          /\ Forall (fun b => b <> [] /\ (List.length b <= 50)%nat) batches)
    /\ forall signature,
         JsMap.has r signature = true ->
         JsMap.has results signature = true \/ In signature (skipn i signatures).
Proof.
  intros Hok Hb. induction fuel as [|fuel IH]; intros i results r w w' H;
    [discriminate|].
  cbn [batchLoop] in H.
  destruct (Nat.ltb_spec i (List.length signatures)) as [Hlt|Hge].
  - set (batch := firstn batchSize (skipn i signatures)) in *.
    destruct (processBatch_fetched batch results w (Hok batch)) as [Hw Hkeys].
    destruct (processBatch env batch results w) as [results1 w1].
    cbn [fst snd] in Hw, Hkeys. subst w1.
    apply IH in H. destruct H as [Hh [Hc [Ht [[batches [Htr [Hcat Hall]]] Hk]]]].
    cbn [logEvents heap cache ticks trace] in Hh, Hc, Ht, Htr.
    assert (Hsplit : skipn i signatures
                     = (batch ++ skipn (i + batchSize) signatures)%list).
    { rewrite Nat.add_comm, <- skipn_skipn. unfold batch.
      now rewrite firstn_skipn. }
    split; [exact Hh|]. split; [exact Hc|]. split; [exact Ht|]. split.
    + exists (batch :: batches). split; [|split].
      * rewrite Htr, <- app_assoc. reflexivity.
      * cbn [List.concat]. rewrite Hcat. now rewrite <- Hsplit.
      * constructor; [|exact Hall]. split.
        -- unfold batch. intro E.
           assert (Hl : List.length (firstn batchSize (skipn i signatures)) = O)
             by now rewrite E.
           rewrite length_firstn, length_skipn in Hl. lia.
        -- unfold batch. rewrite length_firstn. lia.
    + intros s Hs. apply Hk in Hs. rewrite Hsplit.
      destruct Hs as [Hs|Hs].
      * apply Hkeys in Hs. destruct Hs as [Hs|Hs]; [now left|].
        right. apply in_or_app. now left.
      * right. apply in_or_app. now right.
  - injection H as <- <-. split; [reflexivity|]. split; [reflexivity|].
    split; [reflexivity|]. split.
    + exists []. cbn [List.map List.concat]. rewrite app_nil_r.
      rewrite skipn_all2 by lia. auto.
    + intros s Hs. now left.
Qed.

(** X17.  When every bulk fetch answers, [parseMultipleTradeInfo] asks for
    each signature exactly once, in order, in non-empty batches of at most
    fifty, makes no other outside call, touches neither the cache nor the
    heap, and its result has keys among the signatures only. *)
Theorem parseMultipleTradeInfo_bulk_path :
  forall (signatures : list string) (concurrency : nat) (w w' : World)
         (results : JsMap.t TradeInfo.t),
    (forall b, getParsedTransactions env b <> None) ->
    parseMultipleTradeInfo env signatures concurrency w = Some (results, w') ->
    heap w' = heap w /\ cache w' = cache w
    /\ (exists batches,
          trace w' = (trace w ++ List.map FetchBatch batches)%list
          /\ List.concat batches = signatures
          /\ Forall (fun b => b <> [] /\ (List.length b <= 50)%nat) batches)
    /\ forall signature,
         JsMap.has results signature = true -> In signature signatures.
Proof.
  intros signatures concurrency w w' results Hok H.
  unfold parseMultipleTradeInfo in H.
  destruct signatures as [|s rest].
  - injection H as <- <-. split; [reflexivity|]. split; [reflexivity|]. split.
    + exists []. cbn. rewrite app_nil_r. auto.
    + intros sig Hs. discriminate.
  - assert (Hlen : (1 <= List.length (s :: rest))%nat) by (simpl; lia).
    revert H Hlen. generalize (s :: rest). intros signatures H Hlen.
    set (batchSize := if Nat.leb (List.length signatures) 50
                      then List.length signatures else Nat.min concurrency 50) in *.
    destruct (Nat.eq_dec batchSize 0) as [Hz|Hnz].
    + rewrite Hz in H. rewrite batchLoop_zero_step in H by lia. discriminate.
    + assert (Hb : (1 <= batchSize <= 50)%nat).
      { unfold batchSize in *.
        destruct (Nat.leb_spec (List.length signatures) 50); lia. }
      destruct (batchLoop_fetched batchSize signatures Hok Hb _ _ _ _ _ _ H)
        as [Hh [Hc [_ [Hbatches Hk]]]].
      split; [exact Hh|]. split; [exact Hc|]. split; [exact Hbatches|].
      intros sig Hs. apply Hk in Hs. destruct Hs as [Hs|Hs]; [discriminate|].
      exact Hs.
Qed.

Lemma get_record_other (results : JsMap.t TradeInfo.t) (signature other : string)
    (tradeInfo : option TradeInfo.t) :
  signature <> other ->
  JsMap.get (record results other tradeInfo) signature
  = JsMap.get results signature.
Proof.
  intro Hne. destruct tradeInfo; [|reflexivity]. cbn [record].
  now apply get_set_other.
Qed.

Lemma parseFetched_get_absent (batch : list string)
    (transactions : list (option Transaction.t)) (signature : string) :
  ~ In signature batch ->
  forall (index : nat) (results : JsMap.t TradeInfo.t),
    JsMap.get (parseFetched batch transactions index results) signature
    = JsMap.get results signature.
Proof.
  induction batch as [|s rest IH]; intros Hnot index results; [reflexivity|].
  cbn [parseFetched]. rewrite IH by (intro H; apply Hnot; now right).
  apply get_record_other. intro E. apply Hnot. now left.
Qed.

Lemma parseFetched_get (batch : list string)
    (transactions : list (option Transaction.t)) (signature : string) :
  NoDup batch ->
  forall (k index : nat) (results : JsMap.t TradeInfo.t),
    nth_error batch k = Some signature ->
    JsMap.get (parseFetched batch transactions index results) signature
    = match nth_error transactions (index + k) with
      | Some (Some tx) =>
          match catchNull (parseTradeFromTransactionSync signature (Some tx)) with
          | Some tradeInfo => Some tradeInfo
          | None => JsMap.get results signature
          end
      | _ => JsMap.get results signature
      end.
Proof.
  induction batch as [|s rest IH]; intros Hnd k index results Hk;
    [destruct k; discriminate|].
  inversion Hnd as [|? ? Hnotin Hnd']; subst.
  destruct k as [|k]; cbn [nth_error] in Hk.
  - injection Hk as ->. cbn [parseFetched].
    rewrite parseFetched_get_absent by exact Hnotin.
    rewrite Nat.add_0_r.
    destruct (nth_error transactions index) as [[tx|]|]; try reflexivity.
    destruct (catchNull _) as [tradeInfo|]; [|reflexivity].
    cbn [record]. apply get_set_same.
  - cbn [parseFetched]. rewrite (IH Hnd' k (S index) _ Hk).
    assert (Hne : signature <> s).
    { intro E. subst s. apply Hnotin. eapply nth_error_In. exact Hk. }
    rewrite get_record_other by exact Hne.
    replace (S index + k)%nat with (index + S k)%nat by lia. reflexivity.
Qed.

(** X18.  The synchronous pass over a fetched batch pairs signatures and
    replies by position: for a batch without repeated signatures, the entry
    of the [k]-th signature is the parse of the [k]-th reply; when that
    reply is missing or [null], or its parse fails or finds no trade, the
    entry is what the map held before. *)
Theorem parseFetched_pairs_by_position :
  forall (batch : list string) (transactions : list (option Transaction.t))
         (results : JsMap.t TradeInfo.t) (k : nat) (signature : string),
    NoDup batch ->
    nth_error batch k = Some signature ->
    JsMap.get (parseFetched batch transactions 0 results) signature
    = match nth_error transactions k with
      | Some (Some tx) =>
          match catchNull (parseTradeFromTransactionSync signature (Some tx)) with
          | Some tradeInfo => Some tradeInfo
          | None => JsMap.get results signature
          end
      | _ => JsMap.get results signature
      end.
Proof.
  intros batch transactions results k signature Hnd Hk.
  exact (parseFetched_get batch transactions signature Hnd k 0 results Hk).
Qed.

End BatchFacts.

Lemma parseMultipleTradeInfo_returns_witness :
  exists r, parseMultipleTradeInfo Sample.buyEnv Cases.manySignatures 5 newWorld
            = Some r.
Proof.
  apply (parseMultipleTradeInfo_returns Sample.buyEnv Cases.manySignatures 5
           newWorld).
  right. lia.
Defined.

Lemma parseMultipleTradeInfo_zero_concurrency_never_returns_witness :
  parseMultipleTradeInfo Sample.buyEnv Cases.manySignatures 0 newWorld = None
  /\ forall fuel : nat,
       batchLoop Sample.buyEnv fuel (Nat.min 0 50) 0 Cases.manySignatures
         JsMap.empty newWorld = None.
Proof.
  apply (parseMultipleTradeInfo_zero_concurrency_never_returns Sample.buyEnv
           Cases.manySignatures newWorld).
  vm_compute. lia.
Defined.

Lemma parseMultipleTradeInfo_bulk_path_witness :
  exists (results : JsMap.t TradeInfo.t) (w' : World),
    parseMultipleTradeInfo Cases.bulkEnv Cases.manySignatures 25 newWorld
    = Some (results, w')
    /\ heap w' = heap newWorld /\ cache w' = cache newWorld
    /\ (exists batches,
          trace w' = (trace newWorld ++ List.map FetchBatch batches)%list
          /\ List.concat batches = Cases.manySignatures
          /\ Forall (fun b => b <> [] /\ (List.length b <= 50)%nat) batches)
    /\ forall signature,
         JsMap.has results signature = true -> In signature Cases.manySignatures.
Proof.
  do 2 eexists. split; [vm_compute; reflexivity|].
  apply (parseMultipleTradeInfo_bulk_path Cases.bulkEnv Cases.manySignatures 25
           newWorld).
  - intro b. discriminate.
  - vm_compute. reflexivity.
Defined.

Lemma parseFetched_pairs_by_position_witness :
  JsMap.get
    (parseFetched ["a"; "b"] [None; Some Sample.plainBuy] 0 JsMap.empty) "b"
  = match nth_error [None; Some Sample.plainBuy] 1 with
    | Some (Some tx) =>
        match catchNull (parseTradeFromTransactionSync "b" (Some tx)) with
        | Some tradeInfo => Some tradeInfo
        | None => JsMap.get JsMap.empty "b"
        end
    | _ => JsMap.get JsMap.empty "b"
    end.
Proof.
  apply (parseFetched_pairs_by_position ["a"; "b"] [None; Some Sample.plainBuy]
           JsMap.empty 1 "b").
  - repeat constructor; simpl; intuition discriminate.
  - reflexivity.
Defined.


Section PrefetchedFacts.

Lemma sync_incomplete (signature : string) (tx : Transaction.t) :
  Transaction.transaction tx = None \/ Transaction.meta tx = None ->
  parseTradeFromTransactionSync signature (Some tx) = Ok None.
Proof.
  unfold parseTradeFromTransactionSync.
  intros [-> | ->]; [reflexivity|].
  destruct (Transaction.transaction tx); reflexivity.
Qed.

Lemma prefetchedStep_record (results : JsMap.t TradeInfo.t) (sig : string)
    (tx : Transaction.t) :
  JsString.truthy sig = true ->
  prefetchedStep results (PrefetchedTx.mk (Some sig) None tx)
  = record results sig (catchNull (parseTradeFromTransactionSync sig (Some tx))).
Proof.
  intro Ht. unfold prefetchedStep, orOpt.
  cbn [PrefetchedTx.signature PrefetchedTx.firstSignature PrefetchedTx.data
       JsString.truthyOpt].
  rewrite Ht. cbv iota beta. rewrite Ht. cbn [negb].
  destruct (Transaction.transaction tx) eqn:E1.
  - destruct (Transaction.meta tx) eqn:E2; [reflexivity|].
    rewrite sync_incomplete by (now right). reflexivity.
  - rewrite sync_incomplete by (now left). reflexivity.
Qed.

Lemma prefetched_fold (pairs : list (string * Transaction.t)) :
  (forall p, In p pairs -> JsString.truthy (fst p) = true) ->
  forall (before : list (option Transaction.t)) (results : JsMap.t TradeInfo.t),
    fold_left prefetchedStep (prefetched pairs) results
    = parseFetched (List.map fst pairs)
        (before ++ List.map (fun p => Some (snd p)) pairs)%list
        (List.length before) results.
Proof.
  induction pairs as [|[sig tx] pairs IH]; intros Ht before results;
    [reflexivity|].
  cbn [prefetched List.map fold_left parseFetched fst snd].
  rewrite nth_error_app2 by lia. rewrite Nat.sub_diag. cbn [nth_error].
  rewrite prefetchedStep_record by (apply (Ht (sig, tx)); now left).
  specialize (IH (fun p H => Ht p (or_intror H))
                 (before ++ [Some tx])%list
                 (record results sig
                    (catchNull (parseTradeFromTransactionSync sig (Some tx))))).
  rewrite <- app_assoc, length_app in IH. cbn [List.length app] in IH.
  rewrite Nat.add_1_r in IH. exact IH.
Qed.

(** X19.  [parseMultipleTradeInfoFromTransactions], given transactions that
    carry their non-empty signature, builds the very map that the bulk
    route of [parseMultipleTradeInfo] builds from the same signatures and
    replies. *)
Theorem prefetched_route_agrees_with_bulk_route :
  forall pairs : list (string * Transaction.t),
    (forall p, In p pairs -> JsString.truthy (fst p) = true) ->
    parseMultipleTradeInfoFromTransactions (Some (prefetched pairs))
    = parseFetched (List.map fst pairs)
        (List.map (fun p => Some (snd p)) pairs) 0 JsMap.empty.
Proof.
  intros pairs Ht. unfold parseMultipleTradeInfoFromTransactions.
  exact (prefetched_fold pairs Ht [] JsMap.empty).
Qed.

Lemma prefetched_route_agrees_with_bulk_route_witness :
  parseMultipleTradeInfoFromTransactions
    (Some (prefetched [("a"%string, Sample.plainBuy); ("b"%string, Sample.dustBuy)]))
  = parseFetched ["a"; "b"] [Some Sample.plainBuy; Some Sample.dustBuy] 0
      JsMap.empty.
Proof.
  apply (prefetched_route_agrees_with_bulk_route
           [("a"%string, Sample.plainBuy); ("b"%string, Sample.dustBuy)]).
  intros p [<-|[<-|[]]]; reflexivity.
Defined.

End PrefetchedFacts.

Section QuoteFacts.

Local Open Scope Q_scope.

Lemma not_leb_zero (x : jsnum) :
  JsNum.leb x (Fin 0) = false -> isPositive x = true \/ x = NaN.
Proof.
  destruct x as [q| | |]; cbn; intro H; auto; try discriminate.
  left. apply Qltb_lt. apply Qnot_le_lt. intro Hle.
  apply Qle_bool_iff in Hle. congruence.
Qed.

Lemma pow10_not_zero (d : Z) : Qeq_bool (Qpower (10 # 1) d) 0 = false.
Proof.
  apply Qeq_bool_false. intro E.
  assert (H : 0 < Qpower (10 # 1) d) by (apply Qpower_0_lt; reflexivity).
  rewrite E in H. exact (Qlt_irrefl _ H).
Qed.

Lemma scaled_not_NaN (q : Q) (d : Z) :
  JsNum.div (Fin q) (pow10 d) <> NaN.
Proof.
  unfold pow10, JsNum.div. rewrite pow10_not_zero. discriminate.
Qed.

Lemma scaled_positive_or_missing (o : option Q) (d : Z) :
  JsNum.leb (JsNum.div (numberOf o) (pow10 d)) (Fin 0) = false ->
  isPositive (JsNum.div (numberOf o) (pow10 d)) = true
  \/ (o = None /\ JsNum.div (numberOf o) (pow10 d) = NaN).
Proof.
  intro H. destruct (not_leb_zero _ H) as [Hp|Hn]; [now left|].
  destruct o as [q|]; [exfalso; exact (scaled_not_NaN q d Hn)|].
  right. split; reflexivity.
Qed.

(** X20.  What [parseJupiterViaAPI] accepts from the quote service.  An
    accepted quote has a type that agrees with its mints, no holder address,
    the source ["jupiter_api"], decimals that are never zero (zero and
    absent become six) and, for a native input, an amount that is not below
    0.01.  Its amounts are strictly positive -- unless the reply lacks the
    amount, in which case the quote is accepted with [NaN] for it. *)
Theorem jupiter_quote_acceptance :
  forall (data : JupiterData.t) (t : Trade.t),
    jupiterTradeOf (Some data) = Some t ->
    Trade.type t
    = inferTradeType (TokenRef.mint (Trade.soldToken t))
        (TokenRef.mint (Trade.boughtToken t))
    /\ Trade.holderAddress t = None
    /\ Trade.source t = Some "jupiter_api"%string
    /\ (isPositive (TokenRef.amount (Trade.soldToken t)) = true
        \/ (JupiterData.inputAmount data = None
            /\ TokenRef.amount (Trade.soldToken t) = NaN))
    /\ (isPositive (TokenRef.amount (Trade.boughtToken t)) = true
        \/ (JupiterData.outputAmount data = None
            /\ TokenRef.amount (Trade.boughtToken t) = NaN))
    /\ (TokenRef.mint (Trade.soldToken t) = SOL_MINT ->
        JsNum.ltb (TokenRef.amount (Trade.soldToken t)) (Fin (1 # 100)) = false)
    /\ TokenRef.decimals (Trade.soldToken t) <> 0%Z
    /\ TokenRef.decimals (Trade.boughtToken t) <> 0%Z.
Proof.
  intros data t. unfold jupiterTradeOf.
  destruct (JupiterData.inputMint data) as [inputMint|]; [|discriminate].
  destruct (JupiterData.outputMint data) as [outputMint|]; [|discriminate].
  destruct (negb (JsString.truthy inputMint) || negb (JsString.truthy outputMint))%bool;
    [discriminate|].
  cbv zeta.
  set (inputAmount := JsNum.div (numberOf (JupiterData.inputAmount data))
                        (pow10 (orSix (JupiterData.inputDecimals data)))).
  set (outputAmount := JsNum.div (numberOf (JupiterData.outputAmount data))
                         (pow10 (orSix (JupiterData.outputDecimals data)))).
  destruct (JsNum.leb inputAmount (Fin 0)) eqn:Hi; [discriminate|].
  destruct (JsNum.leb outputAmount (Fin 0)) eqn:Ho; [discriminate|].
  cbn [orb].
  destruct (String.eqb inputMint SOL_MINT && JsNum.ltb inputAmount (Fin (1 # 100)))%bool
    eqn:Hsmall; [discriminate|].
  intro E. injection E as <-.
  unfold Trade.setFee, Trade.make.
  cbn [Trade.type Trade.soldToken Trade.boughtToken Trade.holderAddress
       Trade.source TokenRef.mint TokenRef.amount TokenRef.decimals].
  split; [reflexivity|]. split; [reflexivity|]. split; [reflexivity|].
  split; [exact (scaled_positive_or_missing _ _ Hi)|].
  split; [exact (scaled_positive_or_missing _ _ Ho)|].
  split.
  - intros ->. rewrite String.eqb_refl in Hsmall. exact Hsmall.
  - assert (H6 : forall o, orSix o <> 0%Z).
    { intros [z|]; cbn; [|discriminate].
      destruct (Z.eqb_spec z 0); [discriminate|assumption]. }
    split; apply H6.
Qed.

Lemma jupiter_quote_acceptance_witness :
  exists t : Trade.t,
    jupiterTradeOf (Some Cases.quoteWithoutInputAmount) = Some t
    /\ Trade.type t
       = inferTradeType (TokenRef.mint (Trade.soldToken t))
           (TokenRef.mint (Trade.boughtToken t))
    /\ Trade.holderAddress t = None
    /\ Trade.source t = Some "jupiter_api"%string
    /\ (isPositive (TokenRef.amount (Trade.soldToken t)) = true
        \/ (JupiterData.inputAmount Cases.quoteWithoutInputAmount = None
            /\ TokenRef.amount (Trade.soldToken t) = NaN))
    /\ (isPositive (TokenRef.amount (Trade.boughtToken t)) = true
        \/ (JupiterData.outputAmount Cases.quoteWithoutInputAmount = None
            /\ TokenRef.amount (Trade.boughtToken t) = NaN))
    /\ (TokenRef.mint (Trade.soldToken t) = SOL_MINT ->
        JsNum.ltb (TokenRef.amount (Trade.soldToken t)) (Fin (1 # 100)) = false)
    /\ TokenRef.decimals (Trade.soldToken t) <> 0%Z
    /\ TokenRef.decimals (Trade.boughtToken t) <> 0%Z.
Proof.
  eexists. split; [vm_compute; reflexivity|].
  apply (jupiter_quote_acceptance Cases.quoteWithoutInputAmount).
  vm_compute. reflexivity.
Defined.

End QuoteFacts.

Section RouteFacts.

Lemma tokenSwapOf_relabel (d d' : string) holder tokenChanges solChanges :
  tokenSwapOf d' holder tokenChanges solChanges
  = option_map (Trade.setDexSource d' "generic_parser")
      (tokenSwapOf d holder tokenChanges solChanges).
Proof.
  unfold tokenSwapOf. cbv zeta.
  match goal with
  | |- match filter ?f ?e with _ => _ end = _ => generalize e; intro eff
  end.
  destruct (filter (fun c => isNegative (TokenChange.change c)) eff); [reflexivity|].
  destruct (filter (fun c => isPositive (TokenChange.change c)) eff); [reflexivity|].
  destruct (negb _ && negb _)%bool; reflexivity.
Qed.

Lemma pairFromAllChanges_relabel (d d' : string) holder tokenChanges solChanges :
  pairFromAllChanges d' holder tokenChanges solChanges
  = option_map (Trade.setDexSource d' "generic_parser")
      (pairFromAllChanges d holder tokenChanges solChanges).
Proof.
  unfold pairFromAllChanges. cbv zeta.
  destruct (soldItemsOf tokenChanges solChanges) as [|s0 [|s1 srest]];
    [reflexivity| |];
    destruct (boughtItemsOf tokenChanges solChanges) as [|b0 [|b1 brest]];
    try reflexivity;
    destruct (isSOLTokenTrade _ _); reflexivity.
Qed.

(** The label handed to the generic parser ends up in [dex] and nowhere
    else. *)
Lemma parseGenericTransaction_relabel (tx : Transaction.t) (d d' : string) :
  parseGenericTransaction tx d'
  = (r <- parseGenericTransaction tx d ;;
     Ok (option_map (Trade.setDexSource d' "generic_parser") r)).
Proof.
  unfold parseGenericTransaction.
  destruct (hasLiquidityOperation tx || hasLiquidityInstruction tx
            || hasLiquidityInnerInstruction tx)%bool; [reflexivity|].
  destruct (parseSOLBalanceChanges tx) as [solChanges|e]; [|reflexivity].
  cbn [rbind]. rewrite (tokenSwapOf_relabel d d').
  destruct (tokenSwapOf d _ _ _) as [swap|]; [reflexivity|].
  cbn [option_map].
  destruct (analyzeSOLTokenTrade _ _) as [[t0|]|e]; cbn [rbind]; try reflexivity.
  now rewrite (pairFromAllChanges_relabel d d').
Qed.

(** X21.  A transaction identified as Meteora gets a different [dex] label
    on the two routes: the outcome of [parseTrade] says ["unknown"], while
    [parseTradeFromTransactionSync] reports the same trade as
    ["Meteora DLMM"]. *)
Theorem meteora_label_depends_on_the_route :
  forall (tx : Transaction.t) (signature : string) (t : Trade.t),
    identifyDEX tx = Ok DexMeteora ->
    Transaction.meta tx <> None ->
    resolveTrade signature None (Some tx) = Ok (Some t) ->
    Trade.dex t = Some "unknown"
    /\ parseTradeFromTransactionSync signature (Some tx)
       = Ok (Some (simplifyWithHolder
                     (Trade.setDexSource "Meteora DLMM" "generic_parser" t)))
    /\ TradeInfo.dex
         (simplifyWithHolder (Trade.setDexSource "Meteora DLMM" "generic_parser" t))
       = Some "Meteora DLMM".
Proof.
  intros tx signature t Hid Hmeta. unfold resolveTrade. rewrite Hid.
  cbn [rbind dispatch].
  destruct (parseGenericTransaction tx "unknown") as [[t0|]|e] eqn:Eg;
    cbn [rbind option_map]; try discriminate.
  intro E. injection E as <-.
  destruct (parseGenericTransaction_consistent _ _ _ Eg) as [_ [Hd _]].
  split; [exact Hd|]. split; [|reflexivity].
  unfold parseTradeFromTransactionSync.
  destruct (Transaction.transaction tx) as [td|] eqn:Etd.
  - destruct (Transaction.meta tx) as [meta|]; [|contradiction].
    rewrite Hid. cbn [rbind].
    rewrite (parseGenericTransaction_relabel tx "unknown" "Meteora DLMM"), Eg.
    reflexivity.
  - unfold identifyDEX in Hid. rewrite Etd in Hid. discriminate.
Qed.

(** X22.  A transaction that [identifyDEX] sends to the Pump.fun parser
    although it has no Pump.fun instruction and no Pump.fun program id in
    its logs (the log keywords alone did it) is never classified: both
    routes return [null] without looking at its balances. *)
Theorem pump_fun_keyword_route_is_a_dead_end :
  forall (tx : Transaction.t) (td : TxData.t) (message : Message.t)
         (instructions : list Instruction.t) (signature : string),
    Transaction.transaction tx = Some td ->
    TxData.message td = Some message ->
    Message.instructions message = Some instructions ->
    identifyDEX tx = Ok DexPumpFun ->
    pumpFunEvidence tx (Message.accountKeys message) instructions = false ->
    resolveTrade signature None (Some tx) = Ok None
    /\ parseTradeFromTransactionSync signature (Some tx) = Ok None.
Proof.
  intros tx td message instructions signature Htd Hm Hi Hid Hev.
  assert (Hp : parsePumpFunTransaction tx = Ok None).
  { unfold parsePumpFunTransaction. rewrite Htd. cbn [rbind mustBeDefined].
    rewrite Hm. cbn [rbind mustBeDefined]. rewrite Hi. cbn [rbind mustBeDefined].
    cbv zeta. rewrite Hev. reflexivity. }
  split.
  - unfold resolveTrade. rewrite Hid. cbn [rbind dispatch]. rewrite Hp. reflexivity.
  - unfold parseTradeFromTransactionSync. rewrite Htd.
    destruct (Transaction.meta tx); [|reflexivity].
    rewrite Hid. cbn [rbind]. rewrite Hp. reflexivity.
Qed.

End RouteFacts.

Lemma meteora_label_depends_on_the_route_witness :
  exists t : Trade.t,
    resolveTrade "sig" None (Some Cases.meteoraBuy) = Ok (Some t)
    /\ Trade.dex t = Some "unknown"
    /\ parseTradeFromTransactionSync "sig" (Some Cases.meteoraBuy)
       = Ok (Some (simplifyWithHolder
                     (Trade.setDexSource "Meteora DLMM" "generic_parser" t)))
    /\ TradeInfo.dex
         (simplifyWithHolder (Trade.setDexSource "Meteora DLMM" "generic_parser" t))
       = Some "Meteora DLMM".
Proof.
  eexists. split; [vm_compute; reflexivity|].
  apply (meteora_label_depends_on_the_route Cases.meteoraBuy "sig").
  - vm_compute. reflexivity.
  - discriminate.
  - vm_compute. reflexivity.
Defined.

Lemma pump_fun_keyword_route_is_a_dead_end_witness :
  resolveTrade "sig" None (Some Cases.keywordOnlyPumpFun) = Ok None
  /\ parseTradeFromTransactionSync "sig" (Some Cases.keywordOnlyPumpFun) = Ok None.
Proof.
  apply (pump_fun_keyword_route_is_a_dead_end Cases.keywordOnlyPumpFun _ _ _ "sig"
           eq_refl eq_refl eq_refl).
  - vm_compute. reflexivity.
  - vm_compute. reflexivity.
Defined.

Section SellFacts.

Local Open Scope Q_scope.

Lemma effective_single_sale (tc : TokenChange.t) (sc : SolChange.t)
    (sig spent : list SolChange.t) :
  isNegative (TokenChange.change tc) = true ->
  TokenChange.owner tc = SolChange.account sc ->
  effectiveTokenChangesOf [tc] sig spent [sc] = [tc].
Proof.
  intros Hneg Hown. unfold effectiveTokenChangesOf.
  cbn [filter List.map]. rewrite Hneg, Hown.
  assert (Hinc : includesStr [SolChange.account sc] (SolChange.account sc) = true).
  { unfold includesStr. cbn [existsb]. now rewrite String.eqb_refl. }
  rewrite Hinc. cbn [andb orb].
  destruct (isPositive (TokenChange.change tc) && _)%bool; reflexivity.
Qed.

Lemma holderOfToken_single (wanted : jsnum -> bool) (tc : TokenChange.t)
    (solChanges : list SolChange.t) :
  wanted (TokenChange.change tc) = true ->
  JsString.truthy (TokenChange.owner tc) = true ->
  holderOfToken wanted (TokenChange.mint tc) [tc] solChanges
  = Some (TokenChange.owner tc).
Proof.
  intros Hw Ht. unfold holderOfToken. cbn [filter].
  rewrite (String.eqb_refl (TokenChange.mint tc)), Hw. cbn [andb find].
  destruct (find _ solChanges); cbn [option_map]; unfold orOpt;
    cbn [JsString.truthyOpt]; rewrite ?Ht; reflexivity.
Qed.

(** X23.  The mirror image of a buy.  When the wallet's native increase [X]
    is the only native increase above the dust threshold and its token
    decrease [Y] is the only significant non-native token change,
    [analyzeSOLTokenTrade] returns a sell of the token for the amount [Y]
    against the native mint for the amount [X], at the price [X / Y], held
    by that wallet. *)
Theorem token_for_sol_is_a_sell :
  forall (tokenChanges : list TokenChange.t) (solChanges : list SolChange.t)
         (sc : SolChange.t) (tc : TokenChange.t) (X Y : Q),
    filter (fun c => isPositive (SolChange.change c))
      (filter isSignificantSol solChanges) = [sc] ->
    SolChange.change sc = Fin X ->
    filter isSignificantToken tokenChanges = [tc] ->
    TokenChange.change tc = Fin (- Y) ->
    0 < Y ->
    TokenChange.owner tc = SolChange.account sc ->
    JsString.truthy (TokenChange.owner tc) = true ->
    exists (t : Trade.t) (p : jsnum),
      analyzeSOLTokenTrade tokenChanges solChanges = Ok (Some t)
      /\ Trade.type t = Sell
      /\ TokenRef.mint (Trade.soldToken t) = TokenChange.mint tc
      /\ JsNum.same (TokenRef.amount (Trade.soldToken t)) (Fin Y)
      /\ TokenRef.mint (Trade.boughtToken t) = SOL_MINT
      /\ JsNum.same (TokenRef.amount (Trade.boughtToken t)) (Fin X)
      /\ Trade.price t = Some p
      /\ JsNum.same p (Fin (X / Y))
      /\ Trade.holderAddress t = Some (TokenChange.owner tc).
Proof.
  intros tokenChanges solChanges sc tc X Y Hsol HX Htok HY HYpos Hown Htruthy.
  destruct (in_singleton_filter _ _ _ Hsol) as [Hpos _].
  rewrite HX in Hpos. apply isPositive_Fin in Hpos.
  assert (Hneg : isNegative (TokenChange.change tc) = true).
  { rewrite HY. apply isNegative_Fin.
    apply Qopp_lt_compat in HYpos. exact HYpos. }
  assert (Hnotpos : isPositive (Fin (0 + - Y)) = false).
  { apply not_true_is_false. intro H. apply isPositive_Fin in H.
    rewrite Qplus_0_l in H. apply Qopp_lt_compat in HYpos.
    exact (Qlt_irrefl _ (Qlt_trans _ _ _ H HYpos)). }
  assert (Hsold : isNegative (Fin (0 + - Y)) = true).
  { apply isNegative_Fin. rewrite Qplus_0_l.
    apply Qopp_lt_compat in HYpos. exact HYpos. }
  assert (Hrecv : isPositive (Fin (0 + X)) = true).
  { apply isPositive_Fin. now rewrite Qplus_0_l. }
  unfold analyzeSOLTokenTrade. rewrite Htok, Hsol.
  rewrite effective_single_sale by assumption.
  rewrite tokenChangeMapOf_single.
  cbn [JsMap.values List.map snd filter TokenTotal.totalChange TokenTotal.mint].
  rewrite HY. cbn [JsNum.add]. rewrite Hnotpos. cbn [pickBought].
  assert (Hnone : forall b : bool, (if b then @None TokenTotal.t else None) = None)
    by (intros []; reflexivity).
  rewrite Hnone.
  cbn [fold_left]. rewrite HX. cbn [JsNum.add]. rewrite Hrecv, Hsold.
  cbn [pickSold].
  cbn [TokenTotal.mint TokenTotal.totalChange TokenTotal.decimals].
  rewrite (holderOfToken_single isNegative tc solChanges)
    by assumption.
  cbn [JsString.truthyOpt]. rewrite Htruthy. cbn [negb].
  cbn [JsString.truthyOpt]. rewrite Htruthy. cbn [negb].
  cbn [JsString.truthyOpt]. rewrite Htruthy. cbn [negb].
  eexists. eexists. split; [reflexivity|].
  cbn [Trade.type Trade.soldToken Trade.boughtToken Trade.price Trade.make
       Trade.holderAddress TokenRef.mint TokenRef.amount TokenTotal.mint
       TokenTotal.totalChange TokenTotal.decimals JsNum.abs].
  assert (HabsY : Qabs (0 + - Y) == Y).
  { rewrite Qplus_0_l. now apply Qabs_opp_pos. }
  assert (HY0 : Qeq_bool (Qabs (0 + - Y)) 0 = false).
  { apply Qeq_bool_false. rewrite HabsY. intro E. rewrite E in HYpos.
    exact (Qlt_irrefl 0 HYpos). }
  split; [reflexivity|]. split; [reflexivity|].
  split; [cbn [JsNum.same]; exact HabsY|].
  split; [reflexivity|].
  split; [cbn [JsNum.same]; apply Qplus_0_l|].
  unfold JsNum.div. rewrite HY0.
  split; [reflexivity|].
  split; [cbn [JsNum.same]; rewrite HabsY, Qplus_0_l; reflexivity|].
  unfold orOpt. cbn [JsString.truthyOpt]. now rewrite Htruthy.
Qed.

Lemma token_for_sol_is_a_sell_witness :
  exists (t : Trade.t) (p : jsnum),
    analyzeSOLTokenTrade Cases.plainSellTokens Cases.plainSellSol = Ok (Some t)
    /\ Trade.type t = Sell
    /\ TokenRef.mint (Trade.soldToken t) = Sample.mintM
    /\ JsNum.same (TokenRef.amount (Trade.soldToken t)) (Fin 1000000)
    /\ TokenRef.mint (Trade.boughtToken t) = SOL_MINT
    /\ JsNum.same (TokenRef.amount (Trade.boughtToken t)) (Fin 1.500000000)
    /\ Trade.price t = Some p
    /\ JsNum.same p (Fin (1.500000000 / 1000000))
    /\ Trade.holderAddress t = Some "Wallet"%string.
Proof.
  exact (token_for_sol_is_a_sell Cases.plainSellTokens Cases.plainSellSol
           (SolChange.mk "Wallet" (Fin 8.500000000) (Fin 10.000000000)
              (Fin 1.500000000) true false)
           (TokenChange.mk Sample.mintM "Wallet" (Fin 1000000) (Fin 0)
              (Fin (- 1000000)) 6)
           1.500000000 1000000
           eq_refl eq_refl eq_refl eq_refl eq_refl eq_refl eq_refl).
Defined.

End SellFacts.

Section SwapFacts.

Local Open Scope Q_scope.

Lemma maxBy_single {A} (key : A -> jsnum) (x : A) : maxBy key [x] x = x.
Proof. unfold maxBy. cbn [fold_left]. destruct (JsNum.gtb _ _); reflexivity. Qed.

(** X24.  When, among the significant token changes of the signers, exactly
    one is a decrease and exactly one is an increase, [parseGenericTransaction]
    reports a swap of the first for the second at the price
    [bought / sold], whatever the native balances did; the outcome carries
    the token-to-token note. *)
Theorem signer_token_exchange_is_a_swap :
  forall (tx : Transaction.t) (dex : string) (solChanges : list SolChange.t)
         (ts tb : TokenChange.t) (a b : Q),
    (hasLiquidityOperation tx || hasLiquidityInstruction tx
     || hasLiquidityInnerInstruction tx)%bool = false ->
    parseSOLBalanceChanges tx = Ok solChanges ->
    filter (fun c => isNegative (TokenChange.change c))
      (signerTokenChangesOf (parseTokenBalanceChanges (Transaction.meta tx))
         solChanges) = [ts] ->
    filter (fun c => isPositive (TokenChange.change c))
      (signerTokenChangesOf (parseTokenBalanceChanges (Transaction.meta tx))
         solChanges) = [tb] ->
    TokenChange.change ts = Fin (- a) ->
    TokenChange.change tb = Fin b ->
    exists (t : Trade.t) (p : jsnum),
      parseGenericTransaction tx dex = Ok (Some t)
      /\ Trade.type t = Swap
      /\ TokenRef.mint (Trade.soldToken t) = TokenChange.mint ts
      /\ JsNum.same (TokenRef.amount (Trade.soldToken t)) (Fin a)
      /\ TokenRef.mint (Trade.boughtToken t) = TokenChange.mint tb
      /\ TokenRef.amount (Trade.boughtToken t) = Fin b
      /\ Trade.price t = Some p
      /\ JsNum.same p (Fin (b / a))
      /\ Trade.dex t = Some dex
      /\ Trade.note t = Some swapNote.
Proof.
  intros tx dex solChanges ts tb a b Hgate Hsol Hsold Hbought Ha Hb.
  destruct (in_singleton_filter _ _ _ Hsold) as [Hneg Hin_s].
  destruct (in_singleton_filter _ _ _ Hbought) as [_ Hin_b].
  unfold signerTokenChangesOf in Hin_s, Hin_b.
  apply filter_In in Hin_s. destruct Hin_s as [Hin_s _].
  apply filter_In in Hin_b. destruct Hin_b as [Hin_b _].
  apply filter_In in Hin_s. destruct Hin_s as [_ Hsig_s].
  apply filter_In in Hin_b. destruct Hin_b as [_ Hsig_b].
  apply isSignificantToken_nonNative in Hsig_s. destruct Hsig_s as [Hs _].
  apply isSignificantToken_nonNative in Hsig_b. destruct Hsig_b as [Hb' _].
  rewrite Ha in Hneg. apply isNegative_Fin in Hneg.
  assert (Hapos : 0 < a).
  { apply Qopp_lt_compat in Hneg. rewrite Qopp_involutive in Hneg. exact Hneg. }
  unfold parseGenericTransaction. rewrite Hgate, Hsol. cbn [rbind].
  unfold tokenSwapOf. cbv zeta.
  fold (signerTokenChangesOf (parseTokenBalanceChanges (Transaction.meta tx))
          solChanges).
  destruct (signerTokenChangesOf (parseTokenBalanceChanges (Transaction.meta tx))
              solChanges) as [|u0 urest] eqn:Eu; [discriminate|].
  rewrite Hsold, Hbought. rewrite !maxBy_single.
  destruct (String.eqb_spec (TokenChange.mint ts) SOL_MINT); [contradiction|].
  destruct (String.eqb_spec (TokenChange.mint tb) SOL_MINT); [contradiction|].
  cbn [negb andb].
  eexists. eexists. split; [reflexivity|].
  unfold Trade.make, absTokenChange.
  cbn [Trade.type Trade.soldToken Trade.boughtToken Trade.price Trade.dex
       Trade.note TokenRef.mint TokenRef.amount].
  rewrite Ha, Hb. cbn [JsNum.abs].
  assert (Hab : Qabs (- a) == a) by now apply Qabs_opp_pos.
  assert (Ha0 : Qeq_bool (Qabs (- a)) 0 = false).
  { apply Qeq_bool_false. rewrite Hab. intro E. rewrite E in Hapos.
    exact (Qlt_irrefl 0 Hapos). }
  split; [reflexivity|]. split; [reflexivity|].
  split; [cbn [JsNum.same]; exact Hab|].
  split; [reflexivity|]. split; [reflexivity|].
  unfold JsNum.div. rewrite Ha0.
  split; [reflexivity|].
  split; [cbn [JsNum.same]; now rewrite Hab|].
  split; reflexivity.
Qed.

Lemma signer_token_exchange_is_a_swap_witness :
  exists (t : Trade.t) (p : jsnum),
    parseGenericTransaction Cases.tokenSwap "unknown" = Ok (Some t)
    /\ Trade.type t = Swap
    /\ TokenRef.mint (Trade.soldToken t) = Sample.mintM
    /\ JsNum.same (TokenRef.amount (Trade.soldToken t)) (Fin 3)
    /\ TokenRef.mint (Trade.boughtToken t) = Cases.mintN
    /\ TokenRef.amount (Trade.boughtToken t) = Fin 5
    /\ Trade.price t = Some p
    /\ JsNum.same p (Fin (5 / 3))
    /\ Trade.dex t = Some "unknown"%string
    /\ Trade.note t = Some swapNote.
Proof.
  exact (signer_token_exchange_is_a_swap Cases.tokenSwap "unknown"
           Cases.tokenSwapSol
           (TokenChange.mk Sample.mintM "Wallet" (Fin 3) (Fin 0) (Fin (- 3)) 6)
           (TokenChange.mk Cases.mintN "Wallet" (Fin 0) (Fin 5) (Fin 5) 6)
           3 5 eq_refl eq_refl eq_refl eq_refl eq_refl eq_refl).
Defined.

End SwapFacts.

Section PumpFunPrice.

Lemma applyLogDirection_cases (logText : string) (t : Trade.t) :
  (applyLogDirection logText t = t)
  \/ (isSellFromLog logText = true /\ Trade.type t = Buy
      /\ applyLogDirection logText t
         = Trade.flip Sell
             (Some (JsNum.div (TokenRef.amount (Trade.soldToken t))
                      (TokenRef.amount (Trade.boughtToken t)))) t)
  \/ (isBuyFromLog logText = true /\ Trade.type t = Sell
      /\ applyLogDirection logText t
         = Trade.flip Buy
             (Some (JsNum.div (TokenRef.amount (Trade.soldToken t))
                      (TokenRef.amount (Trade.boughtToken t)))) t).
Proof.
  unfold applyLogDirection. cbv zeta.
  destruct (isSellFromLog logText); destruct (isBuyFromLog logText);
    destruct (Trade.type t); cbn [andb TradeType_eqb]; auto.
Qed.

(** X25.  The price of a Pump.fun outcome.  A sell is always priced as the
    native amount per token.  So is a buy, except a buy that results from
    overriding an inferred sell by the log: that one is priced as tokens per
    native unit. *)
Theorem pump_fun_price_orientation :
  forall (tx : Transaction.t) (t : Trade.t),
    parsePumpFunTransaction tx = Ok (Some t) ->
    (Trade.type t = Sell ->
     Trade.price t
     = Some (JsNum.div (TokenRef.amount (Trade.boughtToken t))
               (TokenRef.amount (Trade.soldToken t))))
    /\ (Trade.type t = Buy ->
        Trade.price t
        = Some (JsNum.div (TokenRef.amount (Trade.soldToken t))
                  (TokenRef.amount (Trade.boughtToken t)))
        \/ (isBuyFromLog (logTextOf (Transaction.meta tx)) = true
            /\ Trade.price t
               = Some (JsNum.div (TokenRef.amount (Trade.boughtToken t))
                         (TokenRef.amount (Trade.soldToken t))))).
Proof.
  intros tx t. unfold parsePumpFunTransaction.
  destruct (Transaction.transaction tx) as [td|]; [|discriminate].
  cbn [rbind mustBeDefined].
  destruct (TxData.message td) as [message|]; [|discriminate].
  cbn [rbind mustBeDefined].
  destruct (Message.instructions message) as [instructions|]; [|discriminate].
  cbn [rbind mustBeDefined]. cbv zeta.
  destruct (negb (pumpFunEvidence tx _ instructions)); [discriminate|].
  destruct (parseSOLBalanceChanges tx); [|discriminate]. cbn [rbind].
  destruct (analyzeSOLTokenTrade _ _) as [[t0|]|] eqn:Ea; try discriminate.
  cbn [rbind option_map]. intro E. injection E as <-.
  destruct (analyzeSOLTokenTrade_sides _ _ _ Ea) as [Hs [_ [_ Hp]]].
  unfold Trade.setPumpFun, Trade.setDexSource.
  cbn [Trade.type Trade.price Trade.soldToken Trade.boughtToken].
  destruct (applyLogDirection_cases (logTextOf (Transaction.meta tx)) t0)
    as [-> | [[_ [Hty ->]] | [Hbuy [Hty ->]]]].
  - split; intro Hty; rewrite Hty in Hp; cbn [TradeType_eqb] in Hp;
      [exact Hp | left; exact Hp].
  - unfold Trade.flip.
    cbn [Trade.type Trade.price Trade.soldToken Trade.boughtToken].
    split; [reflexivity | discriminate].
  - unfold Trade.flip.
    cbn [Trade.type Trade.price Trade.soldToken Trade.boughtToken].
    split; [discriminate|]. intros _. right. split; [exact Hbuy | reflexivity].
Qed.

Lemma pump_fun_price_orientation_witness :
  exists t : Trade.t,
    parsePumpFunTransaction Cases.pumpBuyLoggedSell = Ok (Some t)
    /\ (Trade.type t = Sell ->
        Trade.price t
        = Some (JsNum.div (TokenRef.amount (Trade.boughtToken t))
                  (TokenRef.amount (Trade.soldToken t))))
    /\ (Trade.type t = Buy ->
        Trade.price t
        = Some (JsNum.div (TokenRef.amount (Trade.soldToken t))
                  (TokenRef.amount (Trade.boughtToken t)))
        \/ (isBuyFromLog (logTextOf (Transaction.meta Cases.pumpBuyLoggedSell))
            = true
            /\ Trade.price t
               = Some (JsNum.div (TokenRef.amount (Trade.boughtToken t))
                         (TokenRef.amount (Trade.soldToken t))))).
Proof.
  eexists. split; [vm_compute; reflexivity|].
  apply (pump_fun_price_orientation Cases.pumpBuyLoggedSell).
  vm_compute. reflexivity.
Defined.

End PumpFunPrice.

Section QuoteRoute.

Lemma analyzeSOLTokenTrade_fresh (tokenChanges : list TokenChange.t)
    (solChanges : list SolChange.t) (t : Trade.t) :
  analyzeSOLTokenTrade tokenChanges solChanges = Ok (Some t) ->
  exists ty sold bought price holder,
    t = Trade.make ty sold bought price holder None None None.
Proof.
  unfold analyzeSOLTokenTrade. cbv zeta.
  match goal with
  | |- match ?s with Some _ => _ | None => _ end = _ -> _ => destruct s
  end.
  - intro E. injection E as <-. repeat eexists.
  - match goal with
    | |- match ?s with Some _ => _ | None => _ end = _ -> _ => destruct s
    end; [|discriminate].
    match goal with
    | |- (if ?c then _ else _) = _ -> _ => destruct c
    end; [discriminate|].
    intro E. injection E as <-. repeat eexists.
Qed.

Lemma parsePumpFunTransaction_unstamped (tx : Transaction.t) (t : Trade.t) :
  parsePumpFunTransaction tx = Ok (Some t) ->
  Trade.signature t = None /\ Trade.timestamp t = None /\ Trade.slot t = None.
Proof.
  unfold parsePumpFunTransaction.
  destruct (Transaction.transaction tx) as [td|]; [|discriminate].
  cbn [rbind mustBeDefined].
  destruct (TxData.message td) as [message|]; [|discriminate].
  cbn [rbind mustBeDefined].
  destruct (Message.instructions message) as [instructions|]; [|discriminate].
  cbn [rbind mustBeDefined]. cbv zeta.
  destruct (negb (pumpFunEvidence tx _ instructions)); [discriminate|].
  destruct (parseSOLBalanceChanges tx); [|discriminate]. cbn [rbind].
  destruct (analyzeSOLTokenTrade _ _) as [[t0|]|] eqn:Ea; try discriminate.
  cbn [rbind option_map]. intro E. injection E as <-.
  destruct (analyzeSOLTokenTrade_fresh _ _ _ Ea)
    as [ty [sold [bought [price [holder ->]]]]].
  destruct (applyLogDirection_cases (logTextOf (Transaction.meta tx))
              (Trade.make ty sold bought price holder None None None))
    as [-> | [[_ [_ ->]] | [_ [_ ->]]]]; auto.
Qed.

Lemma backfillHolder_core (tx : Transaction.t) (jt jt1 : Trade.t) :
  backfillHolder tx jt = Ok jt1 ->
  exists h, jt1 = Trade.setHolderAddress h jt.
Proof.
  unfold backfillHolder.
  assert (Hid : jt = Trade.setHolderAddress (Trade.holderAddress jt) jt)
    by (destruct jt; reflexivity).
  destruct (negb (JsString.truthyOpt (Trade.holderAddress jt))).
  - destruct (firstSignerKey _).
    + intro E. injection E as <-. eauto.
    + destruct (parseSOLBalanceChanges tx) as [solChanges|]; [|discriminate].
      cbn [rbind]. destruct (find SolChange.isSigner solChanges).
      * intro E. injection E as <-. eauto.
      * destruct solChanges; intro E; injection E as <-; eauto.
  - intro E. injection E as <-. eauto.
Qed.

Lemma resolveTrade_quote_unstamped :
  forall (signature : string) (reply : option JupiterData.t) (jt : Trade.t)
         (tx : Transaction.t) (t : Trade.t),
    jupiterTradeOf reply = Some jt ->
    resolveTrade signature (Some jt) (Some tx) = Ok (Some t) ->
    Trade.signature t = None /\ Trade.timestamp t = None /\ Trade.slot t = None.
Proof.
  intros signature reply jt tx t Hq. unfold resolveTrade.
  destruct (identifyDEX tx) as [dexType|]; [|discriminate]. cbn [rbind].
  assert (Hjt : Trade.signature jt = None /\ Trade.timestamp jt = None
                /\ Trade.slot jt = None).
  { unfold jupiterTradeOf in Hq. destruct reply as [data|]; [|discriminate].
    destruct (JupiterData.inputMint data); [|discriminate].
    destruct (JupiterData.outputMint data); [|discriminate].
    destruct (negb _ || negb _)%bool; [discriminate|]. cbv zeta in Hq.
    destruct (JsNum.leb _ _ || JsNum.leb _ _)%bool; [discriminate|].
    destruct (String.eqb _ _ && JsNum.ltb _ _)%bool; [discriminate|].
    injection Hq as <-. auto. }
  assert (Hback : forall r,
             (jt1 <- backfillHolder tx jt ;; Ok (Some jt1)) = Ok (Some r) ->
             Trade.signature r = None /\ Trade.timestamp r = None
             /\ Trade.slot r = None).
  { intros r. destruct (backfillHolder tx jt) as [jt1|] eqn:Eb; [|discriminate].
    cbn [rbind]. intro E. injection E as <-.
    destruct (backfillHolder_core _ _ _ Eb) as [h ->]. exact Hjt. }
  destruct dexType; cbn [rbind]; try apply Hback.
  destruct (parsePumpFunTransaction tx) as [[pt|]|] eqn:Ep; cbn [rbind];
    try discriminate; [|apply Hback].
  intro E. injection E as <-. now apply parsePumpFunTransaction_unstamped in Ep.
Qed.

(** X26.  When the quote service has answered, what [parseTrade] resolves
    (the quote with its holder filled in, or the Pump.fun outcome that
    replaces it) carries no signature, timestamp or slot, unlike the
    outcomes parsed from the chain alone. *)
Theorem quote_route_outcomes_are_not_stamped :
  forall (signature : string) (reply : option JupiterData.t) (jt : Trade.t)
         (tx : Transaction.t) (t : Trade.t),
    jupiterTradeOf reply = Some jt ->
    resolveTrade signature (Some jt) (Some tx) = Ok (Some t) ->
    Trade.signature t = None /\ Trade.timestamp t = None /\ Trade.slot t = None.
Proof. exact resolveTrade_quote_unstamped. Qed.

End QuoteRoute.

Lemma quote_route_outcomes_are_not_stamped_witness :
  exists (jt t : Trade.t),
    jupiterTradeOf (Some Sample.quote) = Some jt
    /\ resolveTrade "sig" (Some jt) (Some Sample.plainBuy) = Ok (Some t)
    /\ Trade.signature t = None /\ Trade.timestamp t = None
    /\ Trade.slot t = None.
Proof.
  do 2 eexists. split; [vm_compute; reflexivity|].
  split; [vm_compute; reflexivity|].
  eapply (quote_route_outcomes_are_not_stamped "sig" (Some Sample.quote) _
            Sample.plainBuy).
  - vm_compute. reflexivity.
  - vm_compute. reflexivity.
Defined.

Section PumpFunRouting.

Lemma filter_nonempty {A} (f : A -> bool) (xs : list A) (x : A) :
  In x xs -> f x = true -> Nat.eqb (List.length (filter f xs)) 0 = false.
Proof.
  intros Hin Hf.
  assert (H : In x (filter f xs)) by (apply filter_In; auto).
  destruct (filter f xs); [destruct H | reflexivity].
Qed.

(** X27.  An instruction of the Pump.fun program, at the top level or among
    the inner instructions, makes [identifyDEX] answer [pump_fun] whatever
    other programs the transaction calls, and is evidence enough for
    [parsePumpFunTransaction] to go on to the balances. *)
Theorem pump_fun_instruction_selects_the_pump_fun_parser :
  forall (tx : Transaction.t) (td : TxData.t) (message : Message.t)
         (instructions : list Instruction.t) (ix : Instruction.t),
    Transaction.transaction tx = Some td ->
    TxData.message td = Some message ->
    Message.instructions message = Some instructions ->
    In ix instructions
    \/ In ix (flattenInner (innerInstructionsOf (Transaction.meta tx))) ->
    getProgramId ix (Message.accountKeys message) = Some PUMP_FUN_PROGRAM_ID ->
    identifyDEX tx = Ok DexPumpFun
    /\ pumpFunEvidence tx (Message.accountKeys message) instructions = true.
Proof.
  intros tx td message instructions ix Htd Hm Hi Hin Hid.
  split.
  - unfold identifyDEX. rewrite Htd. cbn [rbind mustBeDefined].
    rewrite Hm. cbn [rbind mustBeDefined]. rewrite Hi. cbn [rbind mustBeDefined].
    cbv zeta.
    assert (Hany : anyProgram DEX_PROGRAMS.PUMP_FUN
                     (collectProgramIds (Message.accountKeys message) instructions
                        (innerInstructionsOf (Transaction.meta tx))) = true).
    { unfold anyProgram, DEX_PROGRAMS.PUMP_FUN. cbn [existsb].
      rewrite Bool.orb_false_r. apply includesStr_In.
      unfold collectProgramIds. cbv zeta. apply in_or_app.
      destruct Hin as [Hin|Hin].
      - right. apply in_flat_map. exists ix. split; [exact Hin|].
        rewrite Hid. now left.
      - left. apply in_flat_map. exists ix. split; [exact Hin|].
        rewrite Hid. now left. }
    rewrite Hany. reflexivity.
  - unfold pumpFunEvidence. cbv zeta. apply Bool.negb_true_iff.
    assert (Hf : (fun i =>
                    match getProgramId i (Message.accountKeys message) with
                    | Some id => String.eqb id PUMP_FUN_PROGRAM_ID
                    | None => false
                    end) ix = true).
    { cbv beta. rewrite Hid. apply String.eqb_refl. }
    unfold pumpFunInstructions.
    destruct Hin as [Hin|Hin].
    + rewrite (filter_nonempty _ _ ix Hin Hf). reflexivity.
    + rewrite (filter_nonempty _ _ ix Hin Hf). apply Bool.andb_false_intro1.
      apply Bool.andb_false_r.
Qed.

Lemma pump_fun_instruction_selects_the_pump_fun_parser_witness :
  identifyDEX Cases.routedPumpFun = Ok DexPumpFun
  /\ pumpFunEvidence Cases.routedPumpFun
       (Some [AccountKey.Str "Wallet"; AccountKey.Str "Pool"])
       [Instruction.mk (Some "JUP6LkbZbjS1jKKwapdHNy74zcZ3tLUZoi5QNyVTaV4")
          None None]
     = true.
Proof.
  apply (pump_fun_instruction_selects_the_pump_fun_parser Cases.routedPumpFun
           _ _ _ (Instruction.mk (Some PUMP_FUN_PROGRAM_ID) None None)
           eq_refl eq_refl eq_refl).
  - right. simpl. now left.
  - reflexivity.
Defined.

End PumpFunRouting.

Section SequentialBatch.

Variable env : Env.

Lemma parseTrade_without_cache (signature : string) (options : Options) (w : World) :
  useCache options = false ->
  cache (snd (parseTrade env signature options w)) = cache w
  /\ ticks (snd (parseTrade env signature options w)) = ticks w
  /\ trace (snd (parseTrade env signature options w))
     = (trace w ++ callsFor options signature)%list
  /\ ((fst (parseTrade env signature options w) = None
       /\ heap (snd (parseTrade env signature options w)) = heap w)
      \/ (fst (parseTrade env signature options w) = Some (List.length (heap w))
          /\ exists t,
               heap (snd (parseTrade env signature options w))
               = (heap w ++ [t])%list)).
Proof.
  intro Hc. unfold parseTrade, callsFor. rewrite Hc.
  destruct (catchNull _) as [tradeInfo|].
  - unfold alloc, logEvents. cbn. split; [reflexivity|]. split; [reflexivity|].
    split; [reflexivity|]. right. eauto.
  - unfold logEvents. cbn. split; [reflexivity|]. split; [reflexivity|].
    split; [reflexivity|]. left. split; reflexivity.
Qed.

Lemma parseEach_without_cache (options : Options) :
  useCache options = false ->
  forall (signatures : list string) (results : list loc) (w : World),
    cache (snd (parseEach env signatures options results w)) = cache w
    /\ ticks (snd (parseEach env signatures options results w)) = ticks w
    /\ trace (snd (parseEach env signatures options results w))
       = (trace w ++ flat_map (callsFor options) signatures)%list
    /\ exists k : nat,
         (k <= List.length signatures)%nat
         /\ fst (parseEach env signatures options results w)
            = (results ++ seq (List.length (heap w)) k)%list
         /\ List.length (heap (snd (parseEach env signatures options results w)))
            = (List.length (heap w) + k)%nat.
Proof.
  intro Hc. induction signatures as [|s rest IH]; intros results w.
  - cbn. rewrite !app_nil_r. split; [reflexivity|]. split; [reflexivity|].
    split; [reflexivity|]. exists O. cbn. rewrite app_nil_r. auto with arith.
  - cbn [parseEach flat_map].
    destruct (parseTrade_without_cache s options w Hc) as [H1 [H2 [H3 H4]]].
    destruct (parseTrade env s options w) as [r w1]. cbn [fst snd] in *.
    specialize (IH (match r with
                    | Some l => (results ++ [l])%list
                    | None => results
                    end) w1).
    destruct IH as [I1 [I2 [I3 [k [Hk [I4 I5]]]]]].
    rewrite I1, I2, I3, H1, H2, H3, <- app_assoc.
    split; [reflexivity|]. split; [reflexivity|]. split; [reflexivity|].
    destruct H4 as [[-> Hh]|[-> [t Hh]]].
    + exists k. rewrite I4, I5, Hh. cbn [List.length]. auto with arith.
    + exists (S k). rewrite I4, I5, Hh, length_app. cbn [List.length seq].
      rewrite <- app_assoc. cbn [app]. rewrite Nat.add_1_r.
      split; [lia|]. split; [reflexivity|lia].
Qed.

(** X28.  With caching off, [parseMultipleTrades] makes the calls of a miss
    for every signature, in order, leaves the cache alone, and returns one
    new object per parsed signature: the references are consecutive
    locations, none of them shared. *)
Theorem parseMultipleTrades_without_cache :
  forall (signatures : list string) (options : Options) (w w' : World)
         (results : list loc),
    useCache options = false ->
    parseMultipleTrades env signatures options w = (results, w') ->
    cache w' = cache w
    /\ trace w' = (trace w ++ flat_map (callsFor options) signatures)%list
    /\ (List.length results <= List.length signatures)%nat
    /\ results = seq (List.length (heap w)) (List.length results)
    /\ List.length (heap w') = (List.length (heap w) + List.length results)%nat.
Proof.
  intros signatures options w w' results Hc Hrun.
  destruct (parseEach_without_cache options Hc signatures [] w)
    as [H1 [_ [H3 [k [Hk [H4 H5]]]]]].
  unfold parseMultipleTrades in Hrun. rewrite Hrun in *. cbn [fst snd app] in *.
  subst results. rewrite length_seq. auto.
Qed.

End SequentialBatch.

Lemma parseMultipleTrades_without_cache_witness :
  exists (results : list loc) (w' : World),
    parseMultipleTrades Sample.buyEnv ["a"; "b"] (mkOptions false false) newWorld
    = (results, w')
    /\ cache w' = cache newWorld
    /\ trace w'
       = (trace newWorld
          ++ flat_map (callsFor (mkOptions false false)) ["a"; "b"])%list
    /\ (List.length results <= List.length ["a"; "b"]%string)%nat
    /\ results = seq (List.length (heap newWorld)) (List.length results)
    /\ List.length (heap w')
       = (List.length (heap newWorld) + List.length results)%nat.
Proof.
  do 2 eexists. split; [vm_compute; reflexivity|].
  apply (parseMultipleTrades_without_cache Sample.buyEnv ["a"; "b"]
           (mkOptions false false) newWorld).
  - reflexivity.
  - vm_compute. reflexivity.
Defined.

Section AddressFilterFacts.

Import AddressFilter.

(** X29.  [isLiquidityPoolAddress] makes at most three lookups, and none for
    an address on one of its lists.  It answers [true] exactly when the
    address is listed, or is a valid key whose first answered lookup, among
    three attempts, names an owner that is a listed DEX program or pool; a
    missing account, or three failures in a row, give [false]. *)
Theorem isLiquidityPoolAddress_retries_three_times :
  forall (chain : Chain) (address : string),
    (snd (isLiquidityPoolAddress chain address) <= 3)%nat
    /\ (listed address = true ->
        isLiquidityPoolAddress chain address = (true, O))
    /\ (fst (isLiquidityPoolAddress chain address) = true <->
        listed address = true
        \/ (validKey chain address = true
            /\ exists (n : nat) (owner : string),
                 (n < 3)%nat
                 /\ (forall m, (m < n)%nat ->
                       getAccountInfo chain address m = Failed)
                 /\ getAccountInfo chain address n = OwnedBy owner
                 /\ (isDEXProgramAddress owner
                     || isKnownLiquidityPoolAddress owner)%bool = true)).
Proof.
  intros chain address. unfold isLiquidityPoolAddress, listed.
  destruct (isKnownCEXAddress address);
    [cbn; split; [lia|]; split; [reflexivity|]; split; auto|].
  destruct (isKnownLiquidityPoolAddress address);
    [cbn; split; [lia|]; split; [reflexivity|]; split; auto|].
  destruct (isDEXProgramAddress address);
    [cbn; split; [lia|]; split; [reflexivity|]; split; auto|].
  cbn [orb].
  destruct (validKey chain address); cbn [negb].
  2:{ cbn. split; [lia|]. split; [discriminate|]. split; [discriminate|].
      intros [H|[H _]]; discriminate. }
  cbn [fetchAccountInfo].
  assert (Hlt : forall n, (n < 3)%nat -> n = 0%nat \/ n = 1%nat \/ n = 2%nat)
    by (intros; lia).
  destruct (getAccountInfo chain address 0) as [| |o0] eqn:E0.
  - destruct (getAccountInfo chain address 1) as [| |o1] eqn:E1.
    + destruct (getAccountInfo chain address 2) as [| |o2] eqn:E2; cbn [fst snd].
      * split; [lia|]. split; [discriminate|]. split; [discriminate|].
        intros [H|[_ [n [owner [Hn [_ [Hget _]]]]]]]; [discriminate|].
        destruct (Hlt n Hn) as [-> | [-> | ->]]; congruence.
      * split; [lia|]. split; [discriminate|]. split; [discriminate|].
        intros [H|[_ [n [owner [Hn [_ [Hget _]]]]]]]; [discriminate|].
        destruct (Hlt n Hn) as [-> | [-> | ->]]; congruence.
      * split; [lia|]. split; [discriminate|]. split.
        -- intro H. right. split; [reflexivity|]. exists 2%nat, o2.
           split; [lia|]. split; [|auto].
           intros m Hm. assert (m = 0 \/ m = 1)%nat as [-> | ->] by lia; assumption.
        -- intros [H|[_ [n [owner [Hn [_ [Hget Hown]]]]]]]; [discriminate|].
           destruct (Hlt n Hn) as [-> | [-> | ->]]; congruence.
    + cbn [fst snd]. split; [lia|]. split; [discriminate|]. split; [discriminate|].
      intros [H|[_ [n [owner [Hn [Hfail [Hget _]]]]]]]; [discriminate|].
      destruct (Hlt n Hn) as [-> | [-> | ->]]; try congruence.
      specialize (Hfail 1%nat ltac:(lia)). congruence.
    + cbn [fst snd]. split; [lia|]. split; [discriminate|]. split.
      * intro H. right. split; [reflexivity|]. exists 1%nat, o1.
        split; [lia|]. split; [|auto].
        intros m Hm. assert (m = 0)%nat as -> by lia. assumption.
      * intros [H|[_ [n [owner [Hn [Hfail [Hget Hown]]]]]]]; [discriminate|].
        destruct (Hlt n Hn) as [-> | [-> | ->]]; try congruence.
        specialize (Hfail 1%nat ltac:(lia)). congruence.
  - cbn [fst snd]. split; [lia|]. split; [discriminate|]. split; [discriminate|].
    intros [H|[_ [n [owner [Hn [Hfail [Hget _]]]]]]]; [discriminate|].
    destruct (Hlt n Hn) as [-> | [-> | ->]]; try congruence;
      specialize (Hfail 0%nat ltac:(lia)); congruence.
  - cbn [fst snd]. split; [lia|]. split; [discriminate|]. split.
    + intro H. right. split; [reflexivity|]. exists 0%nat, o0.
      split; [lia|]. split; [|auto]. intros m Hm. lia.
    + intros [H|[_ [n [owner [Hn [Hfail [Hget Hown]]]]]]]; [discriminate|].
      destruct (Hlt n Hn) as [-> | [-> | ->]]; try congruence;
        specialize (Hfail 0%nat ltac:(lia)); congruence.
Qed.

End AddressFilterFacts.

Section CacheConsistency.

Variable env : Env.

Lemma In_delete {V} (m : JsMap.t V) (k : string) (e : string * V) :
  In e (JsMap.delete m k) -> In e m.
Proof.
  induction m as [|[k0 v0] m IH]; simpl; [auto|].
  destruct (String.eqb k k0); [now right|].
  intros [E|H]; [now left | right; now apply IH].
Qed.

Lemma In_cache_set (c : SimpleCache.t loc) (now : Z) (k : string) (v : loc)
    (e : string * SimpleCache.item loc) :
  In e (SimpleCache.cache (SimpleCache.set now k v c)) ->
  e = (k, SimpleCache.mkItem v now) \/ In e (SimpleCache.cache c).
Proof.
  unfold SimpleCache.set. cbn [SimpleCache.cache]. destruct e as [k' it'].
  intro H. apply In_set in H. destruct H as [E|H]; [now left|]. right.
  destruct (Nat.leb _ _); [|exact H].
  destruct (JsMap.firstKey _); [|exact H]. now apply In_delete in H.
Qed.

Lemma resolveTrade_signature (signature : string) (jupiterTrade : option Trade.t)
    (reply : option JupiterData.t) (transaction : option Transaction.t)
    (t : Trade.t) :
  jupiterTrade = None \/ jupiterTrade = jupiterTradeOf reply ->
  resolveTrade signature jupiterTrade transaction = Ok (Some t) ->
  Trade.signature t = None \/ Trade.signature t = Some signature.
Proof.
  intros Hj Hres. destruct jupiterTrade as [jt|].
  - destruct Hj as [Hj|Hj]; [discriminate|].
    destruct transaction as [tx|]; [|discriminate].
    left. symmetry in Hj.
    now destruct (resolveTrade_quote_unstamped signature reply jt tx t Hj Hres).
  - right. destruct (resolveTrade_on_chain _ _ _ Hres) as [tx [t0 [_ [-> _]]]].
    reflexivity.
Qed.

Lemma cacheConsistent_same (w w1 : World) :
  heap w1 = heap w ->
  (forall e, In e (SimpleCache.cache (cache w1)) ->
             In e (SimpleCache.cache (cache w))) ->
  cacheConsistent w -> cacheConsistent w1.
Proof.
  intros Hh Hc Hw k it Hin. rewrite Hh. apply Hw. now apply Hc.
Qed.

(** X30.  [parseTrade] keeps the cache consistent with the heap: if every
    cache entry refers to an object of the heap that carries the signature
    it is filed under (or none), this still holds afterwards, and the
    reference returned is one to such an object for the requested
    signature. *)
Theorem parseTrade_returns_valid_references :
  forall (signature : string) (options : Options) (w w' : World)
         (r : option loc),
    cacheConsistent w ->
    parseTrade env signature options w = (r, w') ->
    cacheConsistent w'
    /\ forall l, r = Some l ->
         exists t,
           deref l w' = Some t
           /\ (Trade.signature t = None \/ Trade.signature t = Some signature).
Proof.
  intros signature options w w' r Hw. unfold parseTrade.
  assert (Hpre :
            (exists it,
               (if useCache options then cacheGet env signature w else (None, w))
               = (Some (SimpleCache.value it),
                  snd (if useCache options then cacheGet env signature w
                       else (None, w)))
               /\ In (signature, it) (SimpleCache.cache (cache w))
               /\ heap (snd (if useCache options then cacheGet env signature w
                             else (None, w))) = heap w
               /\ cache (snd (if useCache options then cacheGet env signature w
                              else (None, w))) = cache w)
            \/ (fst (if useCache options then cacheGet env signature w
                     else (None, w)) = None
                /\ cacheConsistent
                     (snd (if useCache options then cacheGet env signature w
                           else (None, w))))).
  { destruct (useCache options); [|right; auto].
    unfold cacheGet, SimpleCache.get.
    destruct (JsMap.get (SimpleCache.cache (cache w)) signature) as [it|] eqn:Hget.
    - destruct (dateNow env (ticks w) - SimpleCache.timestamp it
                >? SimpleCache.ttl (cache w)).
      + right. split; [reflexivity|]. cbn [snd].
        apply (cacheConsistent_same w); [reflexivity| |exact Hw].
        cbn [cache SimpleCache.cache]. intros e He. now apply In_delete in He.
      + left. exists it. cbn [snd heap cache]. split; [reflexivity|].
        split; [now apply get_In_same|]. auto.
    - right. split; [reflexivity|]. cbn [snd].
      apply (cacheConsistent_same w); [reflexivity| |exact Hw].
      cbn [cache]. auto. }
  destruct (if useCache options then cacheGet env signature w else (None, w))
    as [cached w1].
  cbn [fst snd] in Hpre.
  destruct Hpre as [[it [E [Hin [Hh Hc]]]]|[-> Hw1]].
  - injection E as ->. intro Hrun. injection Hrun as <- <-. split.
    + apply (cacheConsistent_same w); [exact Hh| |exact Hw].
      rewrite Hc. auto.
    + intros l El. injection El as <-. unfold deref. rewrite Hh.
      exact (Hw signature it Hin).
  - set (jupiterTrade := if useJupiterAPI options
                         then parseJupiterViaAPI env signature else None).
    assert (Hj : jupiterTrade = None
                 \/ jupiterTrade = jupiterTradeOf (jupiterResponse env signature)).
    { unfold jupiterTrade, parseJupiterViaAPI.
      destruct (useJupiterAPI options); auto. }
    destruct (resolveTrade signature jupiterTrade
                (getParsedTransaction env signature)) as [[t|]|e] eqn:Er;
      cbn [catchNull].
    + assert (Hsig := resolveTrade_signature _ _ _ _ _ Hj Er).
      unfold alloc, logEvents. cbn [heap cache trace ticks].
      assert (Hold : forall k it,
                 In (k, it) (SimpleCache.cache (cache w1)) ->
                 exists t0,
                   nth_error (heap w1 ++ [t])%list (SimpleCache.value it) = Some t0
                   /\ (Trade.signature t0 = None \/ Trade.signature t0 = Some k)).
      { intros k it Hin. destruct (Hw1 k it Hin) as [t0 [Hn Hs]].
        exists t0. split; [|exact Hs].
        rewrite nth_error_app1; [exact Hn|].
        apply nth_error_Some. congruence. }
      destruct (useCache options); intro Hrun; injection Hrun as <- <-.
      * split.
        -- intros k it Hin. unfold cacheSet in Hin.
           cbn [cache heap] in Hin |- *.
           apply In_cache_set in Hin. destruct Hin as [E|Hin].
           ++ injection E as -> ->. cbn [SimpleCache.value].
              exists t. split; [apply nth_error_snoc | exact Hsig].
           ++ now apply Hold.
        -- intros l El. injection El as <-. unfold deref, cacheSet.
           cbn [heap]. exists t. split; [apply nth_error_snoc | exact Hsig].
      * split.
        -- intros k it Hin. cbn [cache heap] in Hin |- *. now apply Hold.
        -- intros l El. injection El as <-. unfold deref. cbn [heap].
           exists t. split; [apply nth_error_snoc | exact Hsig].
    + intro Hrun. injection Hrun as <- <-. split; [|discriminate].
      apply (cacheConsistent_same w1); [reflexivity| |exact Hw1]. auto.
    + intro Hrun. injection Hrun as <- <-. split; [|discriminate].
      apply (cacheConsistent_same w1); [reflexivity| |exact Hw1]. auto.
Qed.

End CacheConsistency.

Lemma newWorld_consistent : cacheConsistent newWorld.
Proof. intros k it []. Qed.

Lemma parseTrade_returns_valid_references_witness :
  cacheConsistent (snd (parseTrade Sample.buyEnv "sig" defaultOptions newWorld))
  /\ forall l,
       fst (parseTrade Sample.buyEnv "sig" defaultOptions newWorld) = Some l ->
       exists t,
         deref l (snd (parseTrade Sample.buyEnv "sig" defaultOptions newWorld))
         = Some t
         /\ (Trade.signature t = None \/ Trade.signature t = Some "sig"%string).
Proof.
  apply (parseTrade_returns_valid_references Sample.buyEnv "sig" defaultOptions
           newWorld _ _ newWorld_consistent).
  reflexivity.
Defined.

(** ** The properties above, at sample inputs *)

Lemma cache_get_after_set_respects_ttl_witness :
  SimpleCache.get 50 "b" (SimpleCache.set 7 "b" 21%nat Cases.fullCache)
  = (Some 21%nat, SimpleCache.set 7 "b" 21%nat Cases.fullCache)
  /\ fst (SimpleCache.get 500 "b" (SimpleCache.set 7 "b" 21%nat Cases.fullCache))
     = None.
Proof.
  assert (Hnd : NoDup (JsMap.keys (SimpleCache.cache Cases.fullCache))).
  { repeat constructor; simpl; intuition discriminate. }
  split.
  - apply (proj1 (cache_get_after_set_respects_ttl Cases.fullCache 7 50 "b"
                    21%nat Hnd)).
    vm_compute. discriminate.
  - apply (proj2 (cache_get_after_set_respects_ttl Cases.fullCache 7 500 "b"
                    21%nat Hnd)).
    reflexivity.
Defined.

Lemma cache_update_at_capacity_evicts_witness :
  JsMap.has (SimpleCache.cache (SimpleCache.set 7 "b" 21%nat Cases.fullCache)) "a"
  = false
  /\ JsMap.size (SimpleCache.cache (SimpleCache.set 7 "b" 21%nat Cases.fullCache))
     = pred (JsMap.size (SimpleCache.cache Cases.fullCache))
  /\ JsMap.get (SimpleCache.cache (SimpleCache.set 7 "b" 21%nat Cases.fullCache)) "b"
     = Some (SimpleCache.mkItem 21%nat 7).
Proof.
  apply (cache_update_at_capacity_evicts Cases.fullCache 7 "b" 21%nat
           "a" (SimpleCache.mkItem 10%nat 1)
           [("b"%string, SimpleCache.mkItem 20%nat 2)] eq_refl).
  - simpl. lia.
  - repeat constructor; simpl; intuition discriminate.
  - reflexivity.
Defined.

Lemma unchanged_token_balances_give_no_delta_witness :
  parseTokenBalanceChanges (Some Cases.idleMeta) = [].
Proof.
  apply (unchanged_token_balances_give_no_delta Cases.idleMeta
           [Sample.balance "Wallet" Sample.mintM 5] eq_refl eq_refl).
  repeat constructor; simpl; intuition discriminate.
Defined.

Lemma sol_delta_fields_witness :
  SolChange.change
    (SolChange.mk "Wallet" (Fin 10.000000000%Q) (Fin 8.500000000%Q)
       (Fin (- 1.500000000)%Q) true false)
  = Fin ((inject_Z 8500000000 + - inject_Z 10000000000) / lamportsPerSol)%Q
  /\ SolChange.isSigner
       (SolChange.mk "Wallet" (Fin 10.000000000%Q) (Fin 8.500000000%Q)
          (Fin (- 1.500000000)%Q) true false)
     = Nat.ltb 0 1.
Proof.
  destruct (sol_delta_fields Sample.plainBuy _ _ _
              [10000000000; 0] [8500000000; 0] _ O
              (SolChange.mk "Wallet" (Fin 10.000000000%Q) (Fin 8.500000000%Q)
                 (Fin (- 1.500000000)%Q) true false)
              eq_refl eq_refl eq_refl eq_refl eq_refl eq_refl
              (or_introl eq_refl))
    as [Hchange [Hstr _]].
  split.
  - exact (Hchange 10000000000 8500000000 eq_refl eq_refl).
  - exact (proj1 (proj2 (Hstr "Wallet" eq_refl eq_refl))).
Defined.
